(** * Project Alice: the speech-recognition session lifecycle

    A shallow embedding of [core/asr/model/CoquiAsr.py] (the embedded
    engine: its sessions, its voice-activity callbacks, its start-up with
    the language files, and [_checkResponses]) and of
    [core/asr/model/SnipsAsr.py] (the delegated engine).

    Python objects that are mutated in place ([self], the recorders) live
    in an explicit state; every call to a collaborator is appended to an
    event log, so that "how often" and "in which order" are statements
    about that log.  Python exceptions are an explicit outcome. *)

From Stdlib Require Import ZArith QArith Lia Bool.
From Stdlib Require Import DecimalString.
From stdpp Require Import base list strings gmap.

Local Open Scope Z_scope.

(** ** Python outcomes and the state-and-exception monad *)

Module Py.

Inductive PyException :=
| AttributeError (msg : string)
| ValueError (msg : string)
| Exception (msg : string).

Inductive Outcome (A : Type) :=
| Returned (a : A)
| Raised (e : PyException).
Arguments Returned {A} a.
Arguments Raised {A} e.

(** A method of an object whose attributes are [S]. *)
Definition M (S A : Type) : Type := S -> Outcome A * S.

Definition ret {S A} (a : A) : M S A := fun s => (Returned a, s).

Definition bind {S A B} (c : M S A) (k : A -> M S B) : M S B :=
  fun s => match c s with
           | (Returned a, s') => k a s'
           | (Raised e, s') => (Raised e, s')
           end.

Definition raise {S A} (e : PyException) : M S A := fun s => (Raised e, s).
Definition get {S} : M S S := fun s => (Returned s, s).
Definition modify {S} (f : S -> S) : M S unit := fun s => (Returned tt, f s).

(** [try: body finally: cleanup], which is what a [with] block does with
    the [__exit__] of its context manager. *)
Definition finally {S A} (body : M S A) (cleanup : M S unit) : M S A :=
  fun s => match body s with
           | (out, s') =>
               match cleanup s' with
               | (Returned _, s'') => (out, s'')
               | (Raised e, s'') => (Raised e, s'')
               end
           end.

(** Values of the configuration, with Python's truth test and the
    rendering an f-string gives them. *)
Inductive PyVal :=
| PyNone
| PyBool (b : bool)
| PyInt (z : Z)
| PyStr (s : string).

Definition truthy (v : PyVal) : bool :=
  match v with
  | PyNone => false
  | PyBool b => b
  | PyInt z => negb (z =? 0)
  | PyStr s => negb (String.eqb s "")
  end.

Definition format (v : PyVal) : string :=
  match v with
  | PyNone => "None"
  | PyBool true => "True"
  | PyBool false => "False"
  | PyInt z => NilZero.string_of_int (Z.to_int z)
  | PyStr s => s
  end.

End Py.

Import Py.

Declare Scope py_scope.
Delimit Scope py_scope with py.
Notation "x <- c ;; k" := (bind c (fun x => k))
  (at level 100, c at next level, right associativity) : py_scope.
Notation "c ;;; k" := (bind c (fun _ => k))
  (at level 100, right associativity) : py_scope.

(** ** Data shared by both engines *)

Record DialogSession := mkSession {
  user : string;
  deviceUid : string
}.

Record ASRResult := mkASRResult {
  text : string;
  session : DialogSession;
  likelihood : Q;
  processingTime : Q
}.

(** ** The embedded engine, [CoquiAsr] *)

Module CoquiAsr.

(** The four operations the code uses of an [stt.Model] and of the
    stream it creates; the state of a stream context is [Stream]. *)
Record SttModel := mkModel {
  Stream : Type;
  createStream : Stream;
  feedAudioContent : Stream -> list Z -> Stream;
  intermediateDecode : Stream -> string;
  finishStream : Stream -> string
}.

(** Modelled from the spec: the class [Recorder] is not among the sources.
    A recorder is built from [(timeout, user, deviceUid)], is recording
    from the moment its [with] block is entered, and hands out chunks
    until [stopRecording()] has been called on it or its source ends. *)
Record Recorder := mkRecorder {
  rec_timeout : Z;
  rec_user : string;
  rec_deviceUid : string;
  isRecording : bool
}.

Inductive Event :=
| EvSuperDecodeStream (s : DialogSession)
| EvRecorderEnter (rid : nat)
| EvAddRecorder (device : string) (rid : nat)
| EvCreateStream (sid : nat)
| EvRecorderYield (rid : nat) (chunk : list Byte.byte)
| EvFeedAudioContent (sid : nat) (samples : list Z)
| EvIntermediateDecode (sid : nat) (hypothesis : string)
| EvPartialTextCaptured (s : DialogSession) (txt : string) (lik seconds : Q)
| EvRecorderExit (rid : nat)
| EvFinishStream (sid : nat) (txt : string)
| EvEnd
| EvStopRecording (rid : nat).

(** The attributes of a [CoquiAsr] instance ([_recorder] and [_timeout]
    are those of the base class [Asr]; [_recorder] refers to an object
    of the store, or to none before the first session), the store of the
    recorder objects created so far, the number of stream contexts the
    model has handed out, and the log of the calls made so far. *)
Record State := mkState {
  _model : option SttModel;
  _triggerFlag : bool;
  _recorder : option nat;
  _timeout : Z;
  recorders : list Recorder;
  nextStream : nat;
  log : list Event
}.

Definition set_triggerFlag (b : bool) (st : State) : State :=
  mkState (_model st) b (_recorder st) (_timeout st)
          (recorders st) (nextStream st) (log st).

Definition set_recorder (r : option nat) (st : State) : State :=
  mkState (_model st) (_triggerFlag st) r (_timeout st)
          (recorders st) (nextStream st) (log st).

Definition set_recorders (rs : list Recorder) (st : State) : State :=
  mkState (_model st) (_triggerFlag st) (_recorder st) (_timeout st)
          rs (nextStream st) (log st).

Definition set_nextStream (n : nat) (st : State) : State :=
  mkState (_model st) (_triggerFlag st) (_recorder st) (_timeout st)
          (recorders st) n (log st).

Definition set_log (l : list Event) (st : State) : State :=
  mkState (_model st) (_triggerFlag st) (_recorder st) (_timeout st)
          (recorders st) (nextStream st) l.

Definition emit (e : Event) : M State unit :=
  modify (fun st => set_log (log st ++ [e]) st).

(** *** The recorder *)

Definition stop (r : Recorder) : Recorder :=
  mkRecorder (rec_timeout r) (rec_user r) (rec_deviceUid r) false.

(** Modelled from the spec: [recorder.stopRecording()], a request that
    the recorder sees at its next chunk boundary. *)
Definition stopRecording (rid : nat) : M State unit :=
  (emit (EvStopRecording rid) ;;;
   modify (fun st => set_recorders (alter stop rid (recorders st)) st))%py.

(** Modelled from the spec: [Recorder(timeout, user, deviceUid)] and its
    [__enter__()], a new object of the store. *)
Definition Recorder_enter (timeout : Z) (s : DialogSession) : M State nat :=
  (st <- get ;;
   let rid := length (recorders st) in
   modify (set_recorders
             (recorders st ++ [mkRecorder timeout (user s) (deviceUid s) true])) ;;;
   emit (EvRecorderEnter rid) ;;;
   ret rid)%py.

(** Modelled from the spec: [Recorder.__exit__()], the capture is
    released on every exit path. *)
Definition Recorder_exit (rid : nat) : M State unit :=
  (modify (fun st => set_recorders (alter stop rid (recorders st)) st) ;;;
   emit (EvRecorderExit rid))%py.

(** Modelled from the spec: whether the recorder still hands out chunks. *)
Definition recording (rid : nat) (st : State) : bool :=
  match recorders st !! rid with
  | Some r => isRecording r
  | None => false
  end.

(** *** The voice-activity callbacks *)

Definition onVadUp : M State unit :=
  modify (set_triggerFlag true).

Definition onVadDown : M State unit :=
  (st <- get ;;
   if negb (_triggerFlag st) then ret tt
   else match _recorder st with
        | Some rid => stopRecording rid
        | None => raise (AttributeError "'NoneType' object has no attribute 'stopRecording'")
        end)%py.

Inductive Signal := VadUp | VadDown.

Definition signal (sg : Signal) : M State unit :=
  match sg with
  | VadUp => onVadUp
  | VadDown => onVadDown
  end.

(** The callbacks run on the detector's thread: what they raise stays
    there and never reaches the decode call. *)
Fixpoint deliver (sgs : list Signal) (st : State) : State :=
  match sgs with
  | [] => st
  | sg :: rest => deliver rest (snd (signal sg st))
  end.

(** *** The decode loop *)

(** One pull from the recorder: the signals that arrive while the loop
    waits, then the chunk the source has ready. *)
Record Tick := mkTick {
  during : list Signal;
  chunk : list Byte.byte
}.

Definition int16_of_bytes (lo hi : Byte.byte) : Z :=
  let u := Z.of_N (Byte.to_N lo) + 256 * Z.of_N (Byte.to_N hi) in
  if u <? 32768 then u else u - 65536.

(** [np.frombuffer(chunk, np.int16)], little endian. *)
Fixpoint frombuffer_int16 (buf : list Byte.byte) : option (list Z) :=
  match buf with
  | [] => Some []
  | [_] => None
  | lo :: hi :: rest =>
      match frombuffer_int16 rest with
      | Some l => Some (int16_of_bytes lo hi :: l)
      | None => None
      end
  end.

(** [bool(result)] for [result] being [None] or a [str]. *)
Definition truthy_text (result : option string) : bool :=
  match result with
  | None => false
  | Some s => negb (String.eqb s "")
  end.

(** [for chunk in recorder: ...], with [streamContext] and [result] the
    two local variables the body updates. *)
Fixpoint decodeLoop (m : SttModel) (s : DialogSession) (rid sid : nat)
    (ticks : list Tick) (streamContext : Stream m) (result : option string)
  : M State (Stream m * option string) :=
  match ticks with
  | [] => ret (streamContext, result)
  | t :: rest =>
      (modify (deliver (during t)) ;;;
       st <- get ;;
       if negb (recording rid st) then ret (streamContext, result)
       else
         emit (EvRecorderYield rid (chunk t)) ;;;
         match chunk t with
         | [] => ret (streamContext, result)
         | _ =>
             match frombuffer_int16 (chunk t) with
             | None => raise (ValueError "buffer size must be a multiple of element size")
             | Some samples =>
                 let streamContext' := feedAudioContent m streamContext samples in
                 emit (EvFeedAudioContent sid samples) ;;;
                 let result' := intermediateDecode m streamContext' in
                 emit (EvIntermediateDecode sid result') ;;;
                 emit (EvPartialTextCaptured s result' 1 0) ;;;
                 decodeLoop m s rid sid rest streamContext' (Some result')
             end
         end)%py
  end.

(** What the [with] block leaves in the local variables: the stream
    context created by [self._model.createStream()], a new object each
    time, and [result]. *)
Record Locals (m : SttModel) := mkLocals {
  loc_sid : nat;
  loc_streamContext : Stream m;
  loc_result : option string
}.
Arguments loc_sid {m}.
Arguments loc_streamContext {m}.
Arguments loc_result {m}.

(** The body of [with Recorder(...) as recorder:]. *)
Definition recordingBlock (s : DialogSession) (ticks : list Tick) (rid : nat)
  : M State (sigT Locals) :=
  (emit (EvAddRecorder (deviceUid s) rid) ;;;
   modify (set_recorder (Some rid)) ;;;
   st <- get ;;
   match _model st with
   | None => raise (AttributeError "'NoneType' object has no attribute 'createStream'")
   | Some m =>
       let sid := nextStream st in
       modify (set_nextStream (S sid)) ;;;
       emit (EvCreateStream sid) ;;;
       r <- decodeLoop m s rid sid ticks (createStream m) None ;;
       ret (existT m (mkLocals m sid (fst r) (snd r)))
   end)%py.

(** [decodeStream(session)].  [elapsed] is what the stopwatch reads at
    the end, [ticks] what the recorder's source delivers, [late] the
    signals that arrive after the recorder was released and before the
    flag is cleared.  No signal arrives here between the clearing of the
    flag and the return: [decodeStreamToReturn] below lets them. *)
Definition decodeStream (elapsed : Q) (s : DialogSession)
    (ticks : list Tick) (late : list Signal) : M State (option ASRResult) :=
  (emit (EvSuperDecodeStream s) ;;;
   st <- get ;;
   rid <- Recorder_enter (_timeout st) s ;;
   r <- finally (recordingBlock s ticks rid) (Recorder_exit rid) ;;
   let (m, rc) := r in
   let txt := finishStream m (loc_streamContext rc) in
   emit (EvFinishStream (loc_sid rc) txt) ;;;
   modify (deliver late) ;;;
   modify (set_triggerFlag false) ;;;
   emit EvEnd ;;;
   ret (if truthy_text (loc_result rc)
        then Some (mkASRResult txt s 1 elapsed)
        else None))%py.

(** [decodeStream(session)] with the detector's thread still running
    while the method finishes: [closing] are the signals that arrive
    between [self._triggerFlag.clear()] and [self.end()], [returning]
    those that arrive after [self.end()], while the result is built and
    before the method returns.  With neither this is [decodeStream]. *)
Definition decodeStreamToReturn (elapsed : Q) (s : DialogSession)
    (ticks : list Tick) (late closing returning : list Signal)
  : M State (option ASRResult) :=
  (emit (EvSuperDecodeStream s) ;;;
   st <- get ;;
   rid <- Recorder_enter (_timeout st) s ;;
   r <- finally (recordingBlock s ticks rid) (Recorder_exit rid) ;;
   let (m, rc) := r in
   let txt := finishStream m (loc_streamContext rc) in
   emit (EvFinishStream (loc_sid rc) txt) ;;;
   modify (deliver late) ;;;
   modify (set_triggerFlag false) ;;;
   modify (deliver closing) ;;;
   emit EvEnd ;;;
   modify (deliver returning) ;;;
   ret (if truthy_text (loc_result rc)
        then Some (mkASRResult txt s 1 elapsed)
        else None))%py.

End CoquiAsr.

(** *** Reading the log *)

Module Trace.
Import CoquiAsr.

Definition partialCalls (evs : list Event)
  : list (DialogSession * string * Q * Q) :=
  omap (fun e => match e with
                 | EvPartialTextCaptured s t l sec => Some (s, t, l, sec)
                 | _ => None
                 end) evs.

(** The texts the intermediate decodes of the session returned. *)
Definition intermediateTexts (evs : list Event) : list string :=
  omap (fun e => match e with
                 | EvIntermediateDecode _ t => Some t
                 | _ => None
                 end) evs.

(** The chunks the loop body has worked on: the sentinel is left out. *)
Definition pulled (evs : list Event) : list (list Byte.byte) :=
  omap (fun e => match e with
                 | EvRecorderYield _ (b :: c) => Some (b :: c)
                 | _ => None
                 end) evs.

Definition createdStreams (evs : list Event) : list nat :=
  omap (fun e => match e with
                 | EvCreateStream sid => Some sid
                 | _ => None
                 end) evs.

Definition finishedStreams (evs : list Event) : list nat :=
  omap (fun e => match e with
                 | EvFinishStream sid _ => Some sid
                 | _ => None
                 end) evs.

(** The calls of [finishStream()]: on which stream, returning what. *)
Definition finishes (evs : list Event) : list (nat * string) :=
  omap (fun e => match e with
                 | EvFinishStream sid t => Some (sid, t)
                 | _ => None
                 end) evs.

Definition stopRequests (evs : list Event) : list nat :=
  omap (fun e => match e with
                 | EvStopRecording rid => Some rid
                 | _ => None
                 end) evs.

(** Every chunk can be read as 16-bit samples. *)
Definition wellFormed (ticks : list Tick) : Prop :=
  Forall (fun t => is_Some (frombuffer_int16 (chunk t))) ticks.

(** What one run of the loop may append to the log, from the stream
    context and the [result] it starts with to those it ends with. *)
Inductive LoopTrace (m : SttModel) (s : DialogSession) (rid sid : nat)
  : Stream m -> option string -> list Event -> Stream m -> option string -> Prop :=
| lt_ended ctx res :
    LoopTrace m s rid sid ctx res [] ctx res
| lt_sentinel ctx res :
    LoopTrace m s rid sid ctx res [EvRecorderYield rid []] ctx res
| lt_stop ctx res evs ctx' res' :
    LoopTrace m s rid sid ctx res evs ctx' res' ->
    LoopTrace m s rid sid ctx res (EvStopRecording rid :: evs) ctx' res'
| lt_chunk ctx res b c samples evs ctx' res' :
    frombuffer_int16 (b :: c) = Some samples ->
    LoopTrace m s rid sid
      (feedAudioContent m ctx samples)
      (Some (intermediateDecode m (feedAudioContent m ctx samples)))
      evs ctx' res' ->
    LoopTrace m s rid sid ctx res
      (EvRecorderYield rid (b :: c)
         :: EvFeedAudioContent sid samples
         :: EvIntermediateDecode sid
              (intermediateDecode m (feedAudioContent m ctx samples))
         :: EvPartialTextCaptured s
              (intermediateDecode m (feedAudioContent m ctx samples)) 1 0
         :: evs)
      ctx' res'.

(** From [st] to [st'] the events [evs] were logged, and the model, the
    bound recorder and the stream counter were left alone. *)
Definition extends (st st' : State) (evs : list Event) : Prop :=
  log st' = log st ++ evs /\
  _model st' = _model st /\
  _recorder st' = _recorder st /\
  nextStream st' = nextStream st.

Definition stopOf (bound : option nat) (e : Event) : Prop :=
  exists rid, bound = Some rid /\ e = EvStopRecording rid.

(** The log of one invocation that returns. *)
Definition sessionLog (s : DialogSession) (rid sid : nat)
    (loopEvs : list Event) (txt : string) (lateEvs : list Event)
  : list Event :=
  [EvSuperDecodeStream s; EvRecorderEnter rid;
   EvAddRecorder (deviceUid s) rid; EvCreateStream sid]
    ++ loopEvs
    ++ [EvRecorderExit rid; EvFinishStream sid txt]
    ++ lateEvs ++ [EvEnd].

(** Stream identifiers in the log are below the next one to hand out. *)
Definition streamsFresh (st : State) : Prop :=
  Forall (fun sid => (sid < nextStream st)%nat)
         (createdStreams (log st) ++ finishedStreams (log st)).

(** Stream identifiers are fresh, and in the log no stream context is
    created twice or finished twice. *)
Definition streamsOnce (st : State) : Prop :=
  streamsFresh st /\
  NoDup (createdStreams (log st)) /\
  NoDup (finishedStreams (log st)).

(** One invocation, as the sessions of an instance follow each other. *)
Record Invocation := mkInvocation {
  inv_before : list Signal;
  inv_elapsed : Q;
  inv_session : DialogSession;
  inv_ticks : list Tick;
  inv_late : list Signal
}.

Fixpoint runSessions (invs : list Invocation) (st : State) : State :=
  match invs with
  | [] => st
  | i :: rest =>
      runSessions rest
        (snd (decodeStream (inv_elapsed i) (inv_session i)
                           (inv_ticks i) (inv_late i)
                           (deliver (inv_before i) st)))
  end.

End Trace.

(** ** The delegated engine, [SnipsAsr] *)

Module SnipsAsr.

(** What the methods read of the rest of the application: the active
    language, the root directory and the configuration. *)
Record Alice := mkAlice {
  activeLanguage : string;
  rootDir : string;
  getAliceConfigByName : string -> PyVal
}.

Inductive Event :=
| EvSuperOnStart
| EvRunSubprocess (name cmd : string) (autoRestart : bool)
| EvSleep (seconds : Q).

Record State := mkState {
  _listening : bool;
  log : list Event
}.

Definition emit (e : Event) : M State unit :=
  modify (fun st => mkState (_listening st) (log st ++ [e])).

Definition onStartListening (s : DialogSession) : M State unit :=
  modify (fun st => mkState true (log st)).

Definition onAsrToggleOff (deviceUid : string) : M State unit :=
  modify (fun st => mkState false (log st)).

(** The callbacks that other threads run while [decodeStream] sleeps. *)
Inductive Toggle :=
| StartListening (s : DialogSession)
| ToggleOff (deviceUid : string).

Definition toggle (t : Toggle) : M State unit :=
  match t with
  | StartListening s => onStartListening s
  | ToggleOff d => onAsrToggleOff d
  end.

Fixpoint deliver (ts : list Toggle) (st : State) : State :=
  match ts with
  | [] => st
  | t :: rest => deliver rest (snd (toggle t st))
  end.

(** [while self._listening: time.sleep(0.1)].  [env k] is what arrives
    during the sleep number [k]; [None] when the fuel is used up before
    the loop is left. *)
Fixpoint pollLoop (fuel : nat) (env : nat -> list Toggle) (k : nat)
    (st : State) : option State :=
  if _listening st then
    match fuel with
    | O => None
    | S fuel' =>
        pollLoop fuel' env (S k)
                 (deliver (env k) (snd (emit (EvSleep (1 # 10)) st)))
    end
  else Some st.

Definition decodeStream (fuel : nat) (env : nat -> list Toggle)
    (s : DialogSession) (st : State)
  : option (Outcome (option ASRResult) * State) :=
  match pollLoop fuel env 0 st with
  | Some st' => Some (Returned None, st')
  | None => None
  end.

(** The state [n] sleeps later, were the loop to sleep that often, the
    next sleep being number [k]. *)
Fixpoint stateFrom (env : nat -> list Toggle) (k : nat) (st : State)
    (n : nat) : State :=
  match n with
  | O => st
  | S n' =>
      stateFrom env (S k)
                (deliver (env k) (snd (emit (EvSleep (1 # 10)) st))) n'
  end.

Definition sleeps (evs : list Event) : list Q :=
  omap (fun e => match e with EvSleep q => Some q | _ => None end) evs.

Definition launches (evs : list Event) : list (string * string * bool) :=
  omap (fun e => match e with
                 | EvRunSubprocess n c a => Some (n, c, a)
                 | _ => None
                 end) evs.

(** Lines 80 to 89 of [onStart]: the command line. *)
Definition commandLine (a : Alice) : string :=
  let cfg := getAliceConfigByName a in
  let cmd := "snips-asr --assistant " +:+ rootDir a +:+ "/assistant --mqtt "
             +:+ format (cfg "mqttHost") +:+ ":" +:+ format (cfg "mqttPort") in
  let cmd := if truthy (cfg "mqttUser")
             then cmd +:+ " --mqtt-username " +:+ format (cfg "mqttUser")
                      +:+ " --mqtt-password " +:+ format (cfg "mqttPassword")
             else cmd in
  let cmd := if truthy (cfg "mqttTLSFile")
             then cmd +:+ " --mqtt-tls-cafile " +:+ format (cfg "mqttTLSFile")
             else cmd in
  let cmd := cmd +:+ " --model /usr/share/snips/snips-asr-model-en-500MB" in
  let cmd := cmd +:+ " --partial" in
  cmd.

Definition onStart (a : Alice) : M State unit :=
  (emit EvSuperOnStart ;;;
   if negb (String.eqb (activeLanguage a) "en")
   then raise (Exception "Snips generic ASR only for english")
   else emit (EvRunSubprocess "SnipsASR" (commandLine a) true))%py.

(** [s] occurs in [t]. *)
Definition occursIn (s t : string) : Prop :=
  exists pre post, t = pre +:+ s +:+ post.

End SnipsAsr.

(** ** Concrete engines, sessions and configurations *)

Module Fixtures.
Import CoquiAsr Trace.

Definition loud (samples : list Z) : bool :=
  existsb (fun z => negb (z =? 0)) samples.

(** A toy engine: the stream context is the audio fed so far; the
    intermediate hypothesis follows the last window fed, the final text
    the whole stream. *)
Definition toyModel : SttModel :=
  mkModel (list (list Z))
          []
          (fun ctx samples => ctx ++ [samples])
          (fun ctx => match last ctx with
                      | Some samples => if loud samples then "hello" else ""
                      | None => ""
                      end)
          (fun ctx => if existsb loud ctx then "hello" else "").

Definition silence : list Byte.byte := [Byte.x00; Byte.x00; Byte.x00; Byte.x00].
Definition tone : list Byte.byte := [Byte.x10; Byte.x27; Byte.xf0; Byte.xd8].

Definition kitchen : DialogSession := mkSession "alice" "kitchen".

Definition started : State :=
  mkState (Some toyModel) false None 10 [] 0 [].

(** In the middle of a capture, the detector having signalled speech. *)
Definition capturing : State :=
  mkState (Some toyModel) true (Some 0%nat) 10
          [mkRecorder 10 "alice" "kitchen" true] 1
          [EvSuperDecodeStream kitchen; EvRecorderEnter 0;
           EvAddRecorder "kitchen" 0; EvCreateStream 0].

Definition quiet (c : list Byte.byte) : Tick := mkTick [] c.

Definition toneThenSilence : list Tick := [quiet tone; quiet silence].
Definition silenceToneTone : list Tick :=
  [quiet silence; mkTick [VadUp] tone; quiet tone].

(** Speech is signalled during the second wait, its end during the
    fourth: the recorder is asked to stop with two chunks still to come. *)
Definition interrupted : list Tick :=
  [quiet silence; mkTick [VadDown; VadUp] tone; quiet tone;
   mkTick [VadDown] tone; quiet tone].

Definition twoSessions : list Trace.Invocation :=
  [Trace.mkInvocation [] (3 # 2) kitchen silenceToneTone [];
   Trace.mkInvocation [VadUp] (1 # 2) kitchen toneThenSilence [VadDown]].

End Fixtures.

Module SnipsFixtures.
Import SnipsAsr.

Definition localBroker (name : string) : PyVal :=
  if String.eqb name "mqttHost" then PyStr "localhost"
  else if String.eqb name "mqttPort" then PyInt 1883
  else PyStr "".

Definition securedBroker (name : string) : PyVal :=
  if String.eqb name "mqttHost" then PyStr "broker.lan"
  else if String.eqb name "mqttPort" then PyInt 8883
  else if String.eqb name "mqttUser" then PyStr "alice"
  else if String.eqb name "mqttPassword" then PyStr "secret"
  else if String.eqb name "mqttTLSFile" then PyStr "/etc/ssl/ca.pem"
  else PyStr "".

Definition english : Alice := mkAlice "en" "/home/pi/ProjectAlice" localBroker.
Definition englishSecured : Alice :=
  mkAlice "en" "/home/pi/ProjectAlice" securedBroker.
Definition french : Alice := mkAlice "fr" "/home/pi/ProjectAlice" localBroker.

Definition idle : State := mkState false [].
Definition listening : State := mkState true [].

(** Nothing arrives but a toggle-off for [device] during sleep [k]. *)
Definition toggleOffDuring (k : nat) (device : string) (i : nat)
  : list Toggle :=
  if Nat.eqb i k then [ToggleOff device] else [].

End SnipsFixtures.

(** ** Statements of the specification that the code does not satisfy *)

Module Claimed.
Import CoquiAsr Trace.

(** "The session yields no result if and only if every partial decode
    produced empty text." *)
Definition noResult_iff_allPartialsEmpty (elapsed : Q) (s : DialogSession)
    (ticks : list Tick) (late : list Signal) (st : State) : Prop :=
  forall r st' evs,
    decodeStream elapsed s ticks late st = (Returned r, st') ->
    log st' = log st ++ evs ->
    (r = None <-> Forall (fun t => t = "") (intermediateTexts evs)).

(** "If the flag is currently set, [signalVoiceDown()] clears the flag and
    requests the recorder bound to the current session to stop." *)
Definition vadDown_clears_and_stops (st : State) : Prop :=
  _triggerFlag st = true ->
  forall rid, _recorder st = Some rid ->
    exists st', onVadDown st = (Returned tt, st') /\
                _triggerFlag st' = false /\
                log st' = log st ++ [EvStopRecording rid].

(** "After every normally completed invocation of decodeStream the
    trigger flag is clear, regardless of how many [onVadUp] signals
    occurred during the session; so an [onVadDown] arriving after
    completion requests no stop." *)
Definition flagClearOnReturn (elapsed : Q) (s : DialogSession)
    (ticks : list Tick) (late closing returning : list Signal) (st : State)
  : Prop :=
  forall r st',
    decodeStreamToReturn elapsed s ticks late closing returning st
      = (Returned r, st') ->
    _triggerFlag st' = false /\
    stopRequests (log (snd (onVadDown st'))) = stopRequests (log st').

End Claimed.

(** ** Further notions for the sessions of the embedded engine *)

Module Capture.
Import CoquiAsr Trace.

(** A chunk the loop body works on without raising: not the sentinel, and
    of even length. *)
Definition goodChunk (c : list Byte.byte) : Prop :=
  c <> [] /\ is_Some (frombuffer_int16 c).

(** The stream context, the [result] and the events after the loop body
    has worked on the chunks [cs], one after the other. *)
Fixpoint fed (m : SttModel) (s : DialogSession) (rid sid : nat)
    (cs : list (list Byte.byte)) (ctx : Stream m) (res : option string)
  : Stream m * option string * list Event :=
  match cs with
  | [] => (ctx, res, [])
  | c :: rest =>
      match frombuffer_int16 c with
      | None => (ctx, res, [])
      | Some samples =>
          let ctx1 := feedAudioContent m ctx samples in
          let txt := intermediateDecode m ctx1 in
          let '(ctx2, res2, evs) := fed m s rid sid rest ctx1 (Some txt) in
          (ctx2, res2,
           EvRecorderYield rid c :: EvFeedAudioContent sid samples
             :: EvIntermediateDecode sid txt
             :: EvPartialTextCaptured s txt 1 0 :: evs)
      end
  end.

Definition isVadUp (sg : Signal) : bool :=
  match sg with
  | VadUp => true
  | VadDown => false
  end.

(** Whether the signals [sgs], arriving with the flag at [flag], make
    [onVadDown] ask the recorder to stop: a voice-down among them finds
    the flag set. *)
Fixpoint armed (flag : bool) (sgs : list Signal) : bool :=
  match sgs with
  | [] => false
  | VadUp :: rest => armed true rest
  | VadDown :: rest => flag || armed flag rest
  end.

(** The chunks the loop body is to work on, given the flag at the start
    and what the source and the detector deliver: those before the first
    wait in which a stop is requested, and before the sentinel. *)
Fixpoint taken (flag : bool) (ticks : list Tick) : list (list Byte.byte) :=
  match ticks with
  | [] => []
  | t :: rest =>
      if armed flag (during t) then []
      else match chunk t with
           | [] => []
           | b :: c => (b :: c) :: taken (flag || existsb isVadUp (during t)) rest
           end
  end.

(** What the engine's intermediate decode is to return after each of the
    chunks [cs], fed one after the other from the stream context [ctx]. *)
Fixpoint hypotheses (m : SttModel) (cs : list (list Byte.byte)) (ctx : Stream m)
  : list string :=
  match cs with
  | [] => []
  | c :: rest =>
      match frombuffer_int16 c with
      | None => []
      | Some samples =>
          let ctx1 := feedAudioContent m ctx samples in
          intermediateDecode m ctx1 :: hypotheses m rest ctx1
      end
  end.

(** The same chunks with no signal arriving. *)
Definition withoutSignals (ticks : list Tick) : list Tick :=
  map (fun t => mkTick [] (chunk t)) ticks.

Definition onlyVadDown (sgs : list Signal) : Prop :=
  Forall (fun sg => sg = VadDown) sgs.

(** What the loop may log for the recorder [rid], the stream [sid] and
    the session [s], whether it ends normally or raises. *)
Definition loopEvent (s : DialogSession) (rid sid : nat) (e : Event) : Prop :=
  match e with
  | EvRecorderYield r _ => r = rid
  | EvFeedAudioContent i samples =>
      i = sid /\ exists c, frombuffer_int16 c = Some samples
  | EvIntermediateDecode i _ => i = sid
  | EvPartialTextCaptured s' _ l sec => s' = s /\ l = 1%Q /\ sec = 0%Q
  | EvStopRecording r => r = rid
  | _ => False
  end.

Definition int16 (z : Z) : Prop := -32768 <= z <= 32767.

(** The samples of the [feedAudioContent] calls in a log. *)
Definition fedSamples (evs : list Event) : list (list Z) :=
  omap (fun e => match e with
                 | EvFeedAudioContent _ samples => Some samples
                 | _ => None
                 end) evs.

(** An instance on which [onStart] has not run. *)
Definition notStarted : State :=
  mkState None false None 10 [] 0 [].

Definition torn : list Byte.byte := [Byte.x10; Byte.x27; Byte.xf0].

End Capture.

(** ** [CoquiAsr._checkResponses] *)

Module Responses.
Import CoquiAsr.

(** What the method reads of a streaming response: its results, of a
    result its alternatives and whether it is final, of an alternative
    its transcript and its confidence. *)
Record Alternative := mkAlternative {
  transcript : string;
  confidence : Q
}.

Record Result := mkResult {
  alternatives : list Alternative;
  is_final : bool
}.

Record Response := mkResponse {
  results : list Result
}.

(** [for response in responses: ...] *)
Fixpoint checkLoop (s : DialogSession) (responses : list Response)
  : M State (option (string * Q)) :=
  match responses with
  | [] => ret None
  | response :: rest =>
      match results response with
      | [] => checkLoop s rest
      | result :: _ =>
          match alternatives result with
          | [] => checkLoop s rest
          | alt :: _ =>
              if is_final result
              then ret (Some (transcript alt, confidence alt))
              else
                (emit (EvPartialTextCaptured s (transcript alt)
                                             (confidence alt) 0) ;;;
                 checkLoop s rest)%py
          end
      end
  end.

(** [_checkResponses(session, responses)]; [responses] is [None] or a
    generator, here the list of what it yields. *)
Definition _checkResponses (s : DialogSession)
    (responses : option (list Response)) : M State (option (string * Q)) :=
  match responses with
  | None => ret None
  | Some rs => checkLoop s rs
  end.

(** The first alternative of the first result of a response, and whether
    that result is final. *)
Definition leading (r : Response) : option (Alternative * bool) :=
  match results r with
  | [] => None
  | result :: _ =>
      match alternatives result with
      | [] => None
      | alt :: _ => Some (alt, is_final result)
      end
  end.

Definition isFinal (r : Response) : bool :=
  match leading r with
  | Some (_, true) => true
  | _ => false
  end.

(** The partial event a response that is not final gives rise to. *)
Definition partialOf (s : DialogSession) (r : Response) : option Event :=
  match leading r with
  | Some (alt, false) =>
      Some (EvPartialTextCaptured s (transcript alt) (confidence alt) 0)
  | _ => None
  end.

Definition answerOf (r : Response) : option (string * Q) :=
  match leading r with
  | Some (alt, true) => Some (transcript alt, confidence alt)
  | _ => None
  end.

(** The responses before the first one that leads with a final result,
    and that one. *)
Fixpoint beforeFinal (rs : list Response) : list Response :=
  match rs with
  | [] => []
  | r :: rest => if isFinal r then [] else r :: beforeFinal rest
  end.

Fixpoint firstFinal (rs : list Response) : option Response :=
  match rs with
  | [] => None
  | r :: rest => if isFinal r then Some r else firstFinal rest
  end.

Definition interim (txt : string) (c : Q) : Response :=
  mkResponse [mkResult [mkAlternative txt c] false].

Definition final (txt : string) (c : Q) : Response :=
  mkResponse [mkResult [mkAlternative txt c; mkAlternative "other" 0] true;
              mkResult [] true].

Definition heard : list Response :=
  [interim "hel" (1 # 2); mkResponse []; final "hello" (9 # 10);
   interim "later" (1 # 3)].

End Responses.

(** ** Starting the embedded engine *)

Module Startup.

(** What the methods read of the application and of the world around it:
    the active language, whether [Commons.downloadFile] manages to fetch a
    URL, what [stt.Model] makes of a path, and what
    [model.enableExternalScorer] makes of a model and the path of a
    scorer: the model with the scorer attached.  Both are [None] when the
    call raises.  Neither [Commons] nor [stt] is among the sources. *)
Record Host := mkHost {
  activeLanguage : string;
  reachable : string -> bool;
  stt_Model : string -> option CoquiAsr.SttModel;
  enableExternalScorer : CoquiAsr.SttModel -> string -> option CoquiAsr.SttModel
}.

Inductive Event :=
| EvSuperOnStart
| EvRunSystemCommand (argv : list string)
| EvLogInfo (msg : string)
| EvLogError (msg : string)
| EvDownloadFile (url dest : string)
| EvLoadModel (path : string)
| EvEnableExternalScorer (path : string).

(** The instance, the directory [__init__] has computed for its language
    (as [str] gives it), the paths that exist, and the calls made so far. *)
Record State := mkState {
  asr : CoquiAsr.State;
  _langPath : string;
  files : gset string;
  log : list Event
}.

Definition emit (e : Event) : M State unit :=
  modify (fun st => mkState (asr st) (_langPath st) (files st) (log st ++ [e])).

Definition set_files (fs : gset string) (st : State) : State :=
  mkState (asr st) (_langPath st) fs (log st).

Definition set_model (m : CoquiAsr.SttModel) (st : State) : State :=
  mkState (CoquiAsr.mkState (Some m)
             (CoquiAsr._triggerFlag (asr st)) (CoquiAsr._recorder (asr st))
             (CoquiAsr._timeout (asr st)) (CoquiAsr.recorders (asr st))
             (CoquiAsr.nextStream (asr st)) (CoquiAsr.log (asr st)))
          (_langPath st) (files st) (log st).

(** *** Paths, as [pathlib] reads and writes them on POSIX *)

Definition isSep (c : Ascii.ascii) : bool :=
  Ascii.eqb c (Ascii.ascii_of_nat 47).

(** What stands between the separators of [p], [cur] being what was read
    since the last one. *)
Fixpoint segments (cur : string) (p : string) : list string :=
  match p with
  | EmptyString => [cur]
  | String c rest =>
      if isSep c then cur :: segments "" rest
      else segments (cur +:+ String c "") rest
  end.

Definition named (x : string) : bool :=
  negb (String.eqb x "") && negb (String.eqb x ".").

(** The components of a path: empty segments and dots are dropped. *)
Definition parts (p : string) : list string :=
  List.filter named (segments "" p).

(** The root of a path: one leading separator, or exactly two. *)
Definition anchor (p : string) : string :=
  match p with
  | String c1 (String c2 (String c3 _)) =>
      if isSep c1
      then (if isSep c2 && negb (isSep c3) then "//" else "/")
      else ""
  | String c1 (String c2 EmptyString) =>
      if isSep c1 then (if isSep c2 then "//" else "/") else ""
  | String c1 EmptyString => if isSep c1 then "/" else ""
  | EmptyString => ""
  end.

(** [str(path)]. *)
Definition render (root : string) (ps : list string) : string :=
  match root, ps with
  | EmptyString, [] => "."
  | _, _ => root +:+ String.concat "/" ps
  end.

(** The length of the components written with separators between them. *)
Fixpoint joined (l : list string) : nat :=
  match l with
  | [] => 0
  | [x] => String.length x
  | x :: rest => String.length x + 1 + joined rest
  end.

(** [str(Path(first, second))]: an absolute [second] replaces [first]. *)
Definition joinpath (first second : string) : string :=
  if String.eqb (anchor second) ""
  then render (anchor first) (parts first ++ parts second)
  else render (anchor second) (parts second).

(** [Path(p).parents], outermost first. *)
Definition parents (p : string) : list string :=
  map (fun k => render (anchor p) (take k (parts p)))
      (seq 0 (length (parts p))).

(** [__init__]: the directory is that of the language active then,
    [Path(rootDir, f'trained/asr/coqui/{language}')]. *)
Definition init (rootDir language : string) (timeout : Z)
    (existing : gset string) : State :=
  mkState (CoquiAsr.mkState None false None timeout [] 0 [])
          (joinpath rootDir ("trained/asr/coqui/" +:+ language))
          existing [].

(** The property [tFlite], [self._langPath / 'output_graph.tflite'],
    for a directory that is neither the root nor the current one. *)
Definition tFlite (st : State) : string :=
  _langPath st +:+ "/output_graph.tflite".

Definition scorer (st : State) : string :=
  _langPath st +:+ "/lm.scorer".

(** What [self._langPath.mkdir(parents=True)] leaves in existence: the
    directory and every directory above it. *)
Definition mkdir_parents (p : string) (fs : gset string) : gset string :=
  union fs (list_to_set (p :: parents p)).

Definition checkLanguage : M State bool :=
  (st <- get ;;
   if bool_decide (elem_of (_langPath st) (files st))
   then ret (bool_decide (elem_of (tFlite st) (files st)))
   else
     modify (fun st => set_files (mkdir_parents (_langPath st) (files st)) st) ;;;
     ret false)%py.

(** [Commons.downloadFile(url, dest)]: the file is there afterwards when
    the URL could be fetched; what it returns is not looked at. *)
Definition downloadFile (h : Host) (url dest : string) : M State unit :=
  (emit (EvDownloadFile url dest) ;;;
   if reachable h url
   then modify (fun st => set_files (union (files st) (singleton dest)) st)
   else ret tt)%py.

Definition quote : string := String (Ascii.ascii_of_nat 34) EmptyString.

Definition fetch (h : Host) (model lm : string) : M State bool :=
  (st <- get ;;
   downloadFile h model (tFlite st) ;;;
   downloadFile h lm (scorer st) ;;;
   ret true)%py.

Definition downloadLanguage (h : Host) : M State bool :=
  (emit (EvLogInfo ("Downloading language model for " +:+ quote
                      +:+ activeLanguage h +:+ quote
                      +:+ ", hold on, this is going to take some time!")) ;;;
   if String.eqb (activeLanguage h) "de" then
     fetch h "https://github.com/coqui-ai/STT-models/releases/download/german/AASHISHAG/v0.9.0/model.tflite"
             "https://github.com/philipp2310/Coqui-models/releases/download/de_v093/lm.scorer"
   else if String.eqb (activeLanguage h) "en" then
     fetch h "https://github.com/coqui-ai/STT-models/releases/download/english%2Fcoqui%2Fv1.0.0-large-vocab/model.tflite"
             "https://github.com/coqui-ai/STT-models/releases/download/english%2Fcoqui%2Fv1.0.0-large-vocab/large_vocabulary.scorer"
   else if String.eqb (activeLanguage h) "fr" then
     fetch h "https://github.com/coqui-ai/STT-models/releases/download/french/commonvoice-fr/v0.6/model.tflite"
             "https://github.com/coqui-ai/STT-models/releases/download/french/commonvoice-fr/v0.6/fr-cvfr-2-prune-kenlm.scorer"
   else if String.eqb (activeLanguage h) "it" then
     fetch h "https://github.com/coqui-ai/STT-models/releases/download/italian/mozillaitalia/2020.8.7/model.tflite"
             "https://github.com/coqui-ai/STT-models/releases/download/italian/mozillaitalia/2020.8.7/it-mzit-1-prune-kenlm.scorer"
   else if String.eqb (activeLanguage h) "pl" then
     fetch h "https://github.com/coqui-ai/STT-models/releases/download/polish/jaco-assistant/v0.0.1/model.tflite"
             "https://github.com/coqui-ai/STT-models/releases/download/polish/jaco-assistant/v0.0.1/kenlm_pl.scorer"
   else if String.eqb (activeLanguage h) "pt" then
     fetch h "https://github.com/coqui-ai/STT-models/releases/download/portuguese/itml/v0.1.0/model.tflite"
             "https://github.com/coqui-ai/STT-models/releases/download/portuguese/itml/v0.1.0/pt-itml-0-prune-kenlm.scorer"
   else
     emit (EvLogError "WIP! Only de/en supported for now - Please install language manually into PA/trained/asr/Coqui/<language>/!") ;;;
     ret false)%py.

Definition wheel : string := "stt_tflite-0.10.0a6-cp37-cp37m-linux_armv7l.whl".

(** The three commands [installDependencies] runs. *)
Definition wheelCommands : list (list string) :=
  [["wget";
    "https://github.com/coqui-ai/STT/releases/download/v0.10.0-alpha.6/stt_tflite-0.10.0a6-cp37-cp37m-linux_armv7l.whl"];
   ["./venv/bin/pip"; "install"; wheel];
   ["rm"; wheel]].

Definition installDependencies (h : Host) : M State bool :=
  (emit (EvRunSystemCommand
           ["wget";
            "https://github.com/coqui-ai/STT/releases/download/v0.10.0-alpha.6/stt_tflite-0.10.0a6-cp37-cp37m-linux_armv7l.whl"]) ;;;
   emit (EvRunSystemCommand ["./venv/bin/pip"; "install"; wheel]) ;;;
   emit (EvRunSystemCommand ["rm"; wheel]) ;;;
   present <- checkLanguage ;;
   if negb present then downloadLanguage h else ret true)%py.

(** The last lines of [onStart]: load the model and bind it to the
    instance, then attach the scorer to it; either call may raise, the
    second one with the model bound already. *)
Definition loadModel (h : Host) : M State unit :=
  (emit (EvLogInfo "Loading Model") ;;;
   st <- get ;;
   emit (EvLoadModel (tFlite st)) ;;;
   match stt_Model h (tFlite st) with
   | None => raise (Exception "stt.Model failed")
   | Some m =>
       modify (set_model m) ;;;
       emit (EvLogInfo "Model Loaded") ;;;
       emit (EvEnableExternalScorer (_langPath st +:+ "/lm.scorer")) ;;;
       match enableExternalScorer h m (_langPath st +:+ "/lm.scorer") with
       | None => raise (Exception "enableExternalScorer failed")
       | Some m' =>
           modify (set_model m') ;;;
           emit (EvLogInfo "Scorer Loaded")
       end
   end)%py.

(** The first lines of [onStart]: the dependencies, then the language
    model once more when it is still missing. *)
Definition provision (h : Host) : M State unit :=
  (emit EvSuperOnStart ;;;
   _ <- installDependencies h ;;
   present <- checkLanguage ;;
   if negb present then (_ <- downloadLanguage h ;; ret tt) else ret tt)%py.

Definition onStart (h : Host) : M State unit :=
  (provision h ;;; loadModel h)%py.

(** The languages [downloadLanguage] has a model for. *)
Definition supported : list string := ["de"; "en"; "fr"; "it"; "pl"; "pt"].

Definition downloads (evs : list Event) : list (string * string) :=
  omap (fun e => match e with
                 | EvDownloadFile u d => Some (u, d)
                 | _ => None
                 end) evs.

Definition errors (evs : list Event) : list string :=
  omap (fun e => match e with EvLogError m => Some m | _ => None end) evs.

Definition commands (evs : list Event) : list (list string) :=
  omap (fun e => match e with
                 | EvRunSystemCommand a => Some a
                 | _ => None
                 end) evs.

Definition loads (evs : list Event) : list string :=
  omap (fun e => match e with EvLoadModel p => Some p | _ => None end) evs.

(** The files after [Commons.downloadFile(url, dest)]. *)
Definition fetched (h : Host) (url dest : string) (fs : gset string)
  : gset string :=
  if reachable h url then union fs (singleton dest) else fs.

Definition downloading (h : Host) : Event :=
  EvLogInfo ("Downloading language model for " +:+ quote
               +:+ activeLanguage h +:+ quote
               +:+ ", hold on, this is going to take some time!").

(** What [loadModel] logs when the model loads and the scorer is
    attached, when the model does not load, and when the model loads and
    the scorer cannot be attached. *)
Definition loaded (st : State) : list Event :=
  [EvLogInfo "Loading Model"; EvLoadModel (tFlite st);
   EvLogInfo "Model Loaded"; EvEnableExternalScorer (scorer st);
   EvLogInfo "Scorer Loaded"].

Definition notLoaded (st : State) : list Event :=
  [EvLogInfo "Loading Model"; EvLoadModel (tFlite st)].

Definition noScorer (st : State) : list Event :=
  [EvLogInfo "Loading Model"; EvLoadModel (tFlite st);
   EvLogInfo "Model Loaded"; EvEnableExternalScorer (scorer st)].

(** What [onStart] logs before anything depends on the files. *)
Definition preamble : list Event :=
  EvSuperOnStart :: map EvRunSystemCommand wheelCommands.

(** A host where everything can be fetched, every file loads and every
    scorer can be attached. *)
Definition online (language : string) : Host :=
  mkHost language (fun _ => true) (fun _ => Some Fixtures.toyModel)
         (fun m _ => Some m).

Definition offline (language : string) : Host :=
  mkHost language (fun _ => false) (fun _ => None) (fun _ _ => None).

(** A host where every file loads as a model and none as a scorer. *)
Definition scorerless (language : string) : Host :=
  mkHost language (fun _ => true) (fun _ => Some Fixtures.toyModel)
         (fun _ _ => None).

Definition fresh (language : string) : State :=
  init "/home/pi/ProjectAlice" language 10 empty.

(** A host that has the model and the scorer of the language. *)
Definition installed (language : string) : State :=
  set_files (list_to_set [_langPath (fresh language);
                          tFlite (fresh language);
                          scorer (fresh language)])
            (fresh language).

End Startup.

(** ** The toggles of the delegated engine *)

Module Toggles.
Import SnipsAsr.

(** What the last of the toggles asks for, if there is one. *)
Definition lastToggle (ts : list Toggle) : option bool :=
  match last ts with
  | Some (StartListening _) => Some true
  | Some (ToggleOff _) => Some false
  | None => None
  end.

(** During every sleep a toggle-off for [device] arrives, and right after
    it a new request to listen. *)
Definition offThenOn (device : string) (s : DialogSession) (k : nat)
  : list Toggle :=
  [ToggleOff device; StartListening s].

End Toggles.

(** * Properties of the embedded engine *)

Section CoquiFacts.
Import CoquiAsr Trace.

Lemma extends_refl st : extends st st [].
Proof. unfold extends. rewrite app_nil_r. auto. Qed.

Lemma extends_trans st1 st2 st3 evs1 evs2 :
  extends st1 st2 evs1 -> extends st2 st3 evs2 ->
  extends st1 st3 (evs1 ++ evs2).
Proof.
  unfold extends. intros (L1 & M1 & R1 & N1) (L2 & M2 & R2 & N2).
  rewrite L2, L1, M2, M1, R2, R1, N2, N1, app_assoc. auto.
Qed.

Lemma emit_extends e st : extends st (snd (emit e st)) [e].
Proof. unfold extends. cbn. auto. Qed.

Lemma signal_extends sg st :
  exists evs, extends st (snd (signal sg st)) evs /\
              Forall (stopOf (_recorder st)) evs.
Proof.
  destruct sg; cbn.
  - exists []. split; [|constructor]. unfold extends; cbn.
    rewrite app_nil_r. auto.
  - unfold onVadDown, bind, get. destruct (_triggerFlag st); cbn.
    + destruct (_recorder st) as [rid|] eqn:E; cbn.
      * exists [EvStopRecording rid]. split.
        -- unfold extends; cbn. auto.
        -- repeat constructor. exists rid. auto.
      * exists []. split; [apply extends_refl | constructor].
    + exists []. split; [apply extends_refl | constructor].
Qed.

Lemma deliver_extends sgs : forall st,
  exists evs, extends st (deliver sgs st) evs /\
              Forall (stopOf (_recorder st)) evs.
Proof.
  induction sgs as [|sg rest IH]; intros st; cbn [deliver].
  - exists []. split; [apply extends_refl | constructor].
  - destruct (signal_extends sg st) as (e1 & X1 & F1).
    destruct (IH (snd (signal sg st))) as (e2 & X2 & F2).
    exists (e1 ++ e2). split; [eapply extends_trans; eauto|].
    apply Forall_app. split; [exact F1|].
    destruct X1 as (_ & _ & R & _). rewrite R in F2. exact F2.
Qed.

Lemma LoopTrace_stops m s rid sid evs0 ctx res evs ctx' res' :
  Forall (stopOf (Some rid)) evs0 ->
  LoopTrace m s rid sid ctx res evs ctx' res' ->
  LoopTrace m s rid sid ctx res (evs0 ++ evs) ctx' res'.
Proof.
  induction 1 as [|e evs0 (r & Hr & ->) _ IH]; intros HT; cbn; [exact HT|].
  injection Hr as <-. apply lt_stop. auto.
Qed.

(** One turn of the loop, unfolded. *)
Lemma decodeLoop_cons m s rid sid t rest ctx res st :
  decodeLoop m s rid sid (t :: rest) ctx res st =
  let st1 := deliver (during t) st in
  if negb (recording rid st1) then (Returned (ctx, res), st1)
  else
    let st2 := snd (emit (EvRecorderYield rid (chunk t)) st1) in
    match chunk t with
    | [] => (Returned (ctx, res), st2)
    | _ :: _ =>
        match frombuffer_int16 (chunk t) with
        | None =>
            (Raised (ValueError "buffer size must be a multiple of element size"), st2)
        | Some samples =>
            let ctx1 := feedAudioContent m ctx samples in
            let txt := intermediateDecode m ctx1 in
            decodeLoop m s rid sid rest ctx1 (Some txt)
              (snd (emit (EvPartialTextCaptured s txt 1 0)
                 (snd (emit (EvIntermediateDecode sid txt)
                    (snd (emit (EvFeedAudioContent sid samples) st2))))))
        end
    end.
Proof.
  cbn [decodeLoop]. unfold bind, modify, get. cbn zeta.
  destruct (negb (recording rid (deliver (during t) st))); [reflexivity|].
  cbn [emit modify snd]. destruct (chunk t) as [|b c]; [reflexivity|].
  destruct (frombuffer_int16 (b :: c)); reflexivity.
Qed.

Lemma decodeLoop_trace m s rid sid ticks :
  forall ctx res st ctx' res' st',
    _recorder st = Some rid ->
    decodeLoop m s rid sid ticks ctx res st = (Returned (ctx', res'), st') ->
    exists evs, extends st st' evs /\
                LoopTrace m s rid sid ctx res evs ctx' res'.
Proof.
  induction ticks as [|t rest IH]; intros ctx res st ctx' res' st' Hrec Hrun.
  - cbn in Hrun. injection Hrun as <- <- <-.
    exists []. split; [apply extends_refl | constructor].
  - rewrite decodeLoop_cons in Hrun. cbn zeta in Hrun.
    destruct (deliver_extends (during t) st) as (evs0 & X0 & F0).
    rewrite Hrec in F0.
    set (st1 := deliver (during t) st) in *.
    assert (Hrec1 : _recorder st1 = Some rid)
      by (destruct X0 as (_ & _ & R & _); congruence).
    destruct (negb (recording rid st1)).
    + injection Hrun as <- <- <-. exists (evs0 ++ []). split.
      * rewrite app_nil_r. exact X0.
      * apply LoopTrace_stops; [exact F0 | constructor].
    + pose proof (emit_extends (EvRecorderYield rid (chunk t)) st1) as X1.
      set (st2 := snd (emit (EvRecorderYield rid (chunk t)) st1)) in *.
      destruct (chunk t) as [|b c] eqn:Hc.
      * injection Hrun as <- <- <-. exists (evs0 ++ [EvRecorderYield rid []]).
        split; [eapply extends_trans; eauto|].
        apply LoopTrace_stops; [exact F0 | constructor].
      * destruct (frombuffer_int16 (b :: c)) as [samples|] eqn:Hb;
          [|discriminate].
        apply IH in Hrun; [|cbn; exact Hrec1].
        destruct Hrun as (evs & X & HT).
        exists (evs0 ++ EvRecorderYield rid (b :: c)
                  :: EvFeedAudioContent sid samples
                  :: EvIntermediateDecode sid
                       (intermediateDecode m (feedAudioContent m ctx samples))
                  :: EvPartialTextCaptured s
                       (intermediateDecode m (feedAudioContent m ctx samples)) 1 0
                  :: evs).
        split.
        -- destruct X0 as (L0 & M0 & R0 & N0). destruct X as (L & M' & R & N).
           unfold extends. cbn in L, M', R, N.
           rewrite L, L0, M', M0, R, R0, N, N0.
           rewrite <- !app_assoc. cbn. auto.
        -- apply LoopTrace_stops; [exact F0|].
           apply lt_chunk; assumption.
Qed.

Lemma createdStreams_app a b :
  createdStreams (a ++ b) = createdStreams a ++ createdStreams b.
Proof. apply omap_app. Qed.

Lemma finishedStreams_app a b :
  finishedStreams (a ++ b) = finishedStreams a ++ finishedStreams b.
Proof. apply omap_app. Qed.

Lemma stops_no_streams bound evs :
  Forall (stopOf bound) evs ->
  createdStreams evs = [] /\ finishedStreams evs = [].
Proof. induction 1 as [|e l (r & _ & ->) _ IHl]; cbn; auto. Qed.

Lemma decodeLoop_extends m s rid sid ticks :
  forall ctx res st,
    exists evs,
      extends st (snd (decodeLoop m s rid sid ticks ctx res st)) evs /\
      createdStreams evs = [] /\ finishedStreams evs = [].
Proof.
  induction ticks as [|t rest IH]; intros ctx res st.
  - exists []. split; [apply extends_refl | auto].
  - rewrite decodeLoop_cons. cbn zeta.
    destruct (deliver_extends (during t) st) as (evs0 & X0 & F0).
    destruct (stops_no_streams _ _ F0) as (C0 & D0).
    set (st1 := deliver (during t) st) in *.
    destruct (negb (recording rid st1)); [exists evs0; auto|].
    pose proof (emit_extends (EvRecorderYield rid (chunk t)) st1) as X1.
    set (st2 := snd (emit (EvRecorderYield rid (chunk t)) st1)) in *.
    assert (X2 : extends st st2 (evs0 ++ [EvRecorderYield rid (chunk t)]))
      by (eapply extends_trans; eauto).
    assert (Q2 : createdStreams (evs0 ++ [EvRecorderYield rid (chunk t)]) = [] /\
                 finishedStreams (evs0 ++ [EvRecorderYield rid (chunk t)]) = []).
    { rewrite createdStreams_app, finishedStreams_app, C0, D0. cbn. auto. }
    destruct (chunk t) as [|b c] eqn:Hc; [eexists; split; [exact X2 | exact Q2]|].
    destruct (frombuffer_int16 (b :: c)) as [samples|];
      [|eexists; split; [exact X2 | exact Q2]].
    match goal with
    | |- context [decodeLoop m s rid sid rest ?c ?r ?st3] =>
        destruct (IH c r st3) as (evs & X & C & D);
        assert (X3 : extends st2 st3
                  [EvFeedAudioContent sid samples;
                   EvIntermediateDecode sid
                     (intermediateDecode m (feedAudioContent m ctx samples));
                   EvPartialTextCaptured s
                     (intermediateDecode m (feedAudioContent m ctx samples)) 1 0])
          by (unfold extends; cbn; rewrite <- !app_assoc; auto)
    end.
    eexists. split.
    + eapply extends_trans; [eapply extends_trans; [exact X2 | exact X3]|exact X].
    + rewrite !createdStreams_app, !finishedStreams_app, C0, D0, C, D.
      cbn. auto.
Qed.

Lemma decodeLoop_total m s rid sid ticks :
  wellFormed ticks ->
  forall ctx res st,
    exists r st', decodeLoop m s rid sid ticks ctx res st = (Returned r, st').
Proof.
  induction 1 as [|t rest [samples Ht] _ IH]; intros ctx res st.
  - cbn. eauto.
  - rewrite decodeLoop_cons. cbn zeta.
    destruct (negb (recording rid (deliver (during t) st))); [eauto|].
    destruct (chunk t) as [|b c]; [eauto|].
    rewrite Ht. apply IH.
Qed.

(** [decodeStream] once the model is loaded. *)
Lemma decodeStream_loaded m elapsed s ticks late st :
  _model st = Some m ->
  decodeStream elapsed s ticks late st =
  let rid := length (recorders st) in
  let sid := nextStream st in
  let st1 :=
    mkState (Some m) (_triggerFlag st) (Some rid) (_timeout st)
            (recorders st ++ [mkRecorder (_timeout st) (user s) (deviceUid s) true])
            (S sid)
            (log st ++ [EvSuperDecodeStream s; EvRecorderEnter rid;
                        EvAddRecorder (deviceUid s) rid; EvCreateStream sid]) in
  match decodeLoop m s rid sid ticks (createStream m) None st1 with
  | (Returned (ctx, res), st2) =>
      let txt := finishStream m ctx in
      (Returned (if truthy_text res
                 then Some (mkASRResult txt s 1 elapsed) else None),
       snd (emit EvEnd
         (set_triggerFlag false
            (deliver late
               (snd (emit (EvFinishStream sid txt)
                  (snd (Recorder_exit rid st2))))))))
  | (Raised e, st2) => (Raised e, snd (Recorder_exit rid st2))
  end.
Proof.
  destruct st as [mo flag rc tmo rs ns lg]. cbn [_model]. intros ->.
  unfold decodeStream, finally, recordingBlock, Recorder_enter, bind, get,
    modify, ret, emit. cbn -[decodeLoop deliver Recorder_exit].
  rewrite <- !app_assoc. cbn [app].
  destruct (decodeLoop m s (length rs) ns ticks (createStream m) None _)
    as [[[ctx res]|e] st2]; reflexivity.
Qed.

Lemma decodeStream_returned elapsed s ticks late st r st' :
  decodeStream elapsed s ticks late st = (Returned r, st') ->
  exists m loopEvs lateEvs ctx res,
    _model st = Some m /\
    LoopTrace m s (length (recorders st)) (nextStream st)
              (createStream m) None loopEvs ctx res /\
    Forall (stopOf (Some (length (recorders st)))) lateEvs /\
    log st' = log st ++ sessionLog s (length (recorders st)) (nextStream st)
                          loopEvs (finishStream m ctx) lateEvs /\
    r = (if truthy_text res
         then Some (mkASRResult (finishStream m ctx) s 1 elapsed)
         else None) /\
    _triggerFlag st' = false /\
    _recorder st' = Some (length (recorders st)) /\
    nextStream st' = S (nextStream st) /\
    _model st' = Some m.
Proof.
  intros Hrun. destruct (_model st) as [m|] eqn:Hm.
  2:{ exfalso. destruct st as [mo flag rc tmo rs ns lg]. cbn in Hm. subst mo.
      unfold decodeStream, finally, recordingBlock, Recorder_enter, bind,
        get, modify, ret, emit, raise in Hrun. cbn in Hrun. discriminate. }
  rewrite (decodeStream_loaded m) in Hrun by exact Hm. cbn zeta in Hrun.
  set (rid := length (recorders st)) in *. set (sid := nextStream st) in *.
  match type of Hrun with
  | context [decodeLoop m s rid sid ticks _ None ?x] =>
      set (st1 := x) in *
  end.
  destruct (decodeLoop m s rid sid ticks (createStream m) None st1)
    as [[[ctx res]|e] st2] eqn:Hloop; [|discriminate].
  apply decodeLoop_trace in Hloop; [|reflexivity].
  destruct Hloop as (loopEvs & (L2 & M2 & R2 & N2) & HT).
  injection Hrun as <- <-.
  match goal with
  | |- context [deliver late ?x] =>
      destruct (deliver_extends late x) as (lateEvs & (L4 & M4 & R4 & N4) & F4);
      set (st4 := deliver late x) in *
  end.
  cbn in R4, F4, L4, M4, N4. rewrite R2 in F4. cbn in F4.
  exists m, loopEvs, lateEvs, ctx, res. split; [reflexivity|].
  split; [exact HT|]. split; [exact F4|].
  cbn. rewrite L4, M4, R4, N4, L2, M2, R2, N2. cbn.
  unfold sessionLog. rewrite <- !app_assoc. cbn. auto 10.
Qed.

Lemma decodeStream_total m elapsed s ticks late st :
  _model st = Some m -> wellFormed ticks ->
  exists r st', decodeStream elapsed s ticks late st = (Returned r, st').
Proof.
  intros Hm Hw. rewrite (decodeStream_loaded m) by exact Hm. cbn zeta.
  match goal with
  | |- context [decodeLoop m s ?rid ?sid ticks ?c ?r0 ?x] =>
      destruct (decodeLoop_total m s rid sid ticks Hw c r0 x)
        as ([ctx res] & st2 & ->)
  end.
  eauto.
Qed.

(** *** What a loop trace contains *)

Ltac projections :=
  unfold partialCalls, intermediateTexts, pulled, createdStreams,
    finishedStreams, finishes, stopRequests in *;
  cbn.

Lemma LoopTrace_partialCalls m s rid sid ctx res evs ctx' res' :
  LoopTrace m s rid sid ctx res evs ctx' res' ->
  partialCalls evs = map (fun t => (s, t, 1%Q, 0%Q)) (intermediateTexts evs).
Proof. induction 1; projections; congruence. Qed.

Lemma LoopTrace_pulled m s rid sid ctx res evs ctx' res' :
  LoopTrace m s rid sid ctx res evs ctx' res' ->
  length (intermediateTexts evs) = length (pulled evs).
Proof. induction 1; projections; congruence. Qed.

Lemma LoopTrace_result m s rid sid ctx res evs ctx' res' :
  LoopTrace m s rid sid ctx res evs ctx' res' ->
  res' = match last (intermediateTexts evs) with
         | Some t => Some t
         | None => res
         end.
Proof.
  induction 1 as [| | |ctx res b c samples evs ctx' res' Hb HT IH];
    projections; auto.
  rewrite IH. clear IH.
  match goal with |- context [last (_ :: ?x)] => destruct x as [|t l] end;
    cbn; [reflexivity|].
  destruct (last (t :: l)) eqn:El; [reflexivity|].
  apply last_None in El. discriminate.
Qed.

Lemma LoopTrace_streams m s rid sid ctx res evs ctx' res' :
  LoopTrace m s rid sid ctx res evs ctx' res' ->
  createdStreams evs = [] /\ finishedStreams evs = [] /\ finishes evs = [].
Proof. induction 1; projections; auto. Qed.

Lemma sessionLog_omap {A} (f : Event -> option A) bound s rid sid
    loopEvs txt lateEvs :
  (forall r, f (EvStopRecording r) = None) ->
  Forall (stopOf bound) lateEvs ->
  omap f (sessionLog s rid sid loopEvs txt lateEvs) =
  omap f [EvSuperDecodeStream s; EvRecorderEnter rid;
          EvAddRecorder (deviceUid s) rid; EvCreateStream sid]
    ++ omap f loopEvs
    ++ omap f [EvRecorderExit rid; EvFinishStream sid txt]
    ++ omap f [EvEnd].
Proof.
  intros Hf HF. unfold sessionLog. rewrite !omap_app.
  replace (omap f lateEvs) with (@nil A); [reflexivity|].
  induction HF as [|e l (r & _ & ->) _ IH]; cbn; [reflexivity|].
  rewrite Hf. exact IH.
Qed.

Lemma truthy_text_false res :
  truthy_text res = false <-> res = None \/ res = Some "".
Proof.
  destruct res as [t|]; cbn.
  - rewrite negb_false_iff, String.eqb_eq. split.
    + intros ->. auto.
    + intros [H|H]; congruence.
  - split; auto.
Qed.

Lemma wellFormed_quiet_chunks :
  wellFormed Fixtures.silenceToneTone /\ wellFormed Fixtures.toneThenSilence.
Proof.
  split; repeat (constructor; [eexists; reflexivity|]); constructor.
Qed.

(** *** The result and the partial decodes *)

(** C1, as the code has it: a session that runs to its end yields no
    ASRResult if and only if it decoded no chunk or its last intermediate
    decode returned empty text; in particular it yields none when every
    intermediate decode returned empty text, and when it yields one, some
    intermediate decode returned text. *)
Theorem decodeStream_result_iff_last_partial
    m elapsed s ticks late st :
  _model st = Some m ->
  wellFormed ticks ->
  exists r st' evs,
    decodeStream elapsed s ticks late st = (Returned r, st') /\
    log st' = log st ++ evs /\
    (r = None <-> last (intermediateTexts evs) = None \/
                  last (intermediateTexts evs) = Some "") /\
    (Forall (fun t => t = "") (intermediateTexts evs) -> r = None) /\
    (r <> None -> Exists (fun t => t <> "") (intermediateTexts evs)).
Proof.
  intros Hm Hw.
  destruct (decodeStream_total m elapsed s ticks late st Hm Hw)
    as (r & st' & Hrun).
  exists r, st'.
  destruct (decodeStream_returned _ _ _ _ _ _ _ Hrun)
    as (m' & loopEvs & lateEvs & ctx & res & Hm' & HT & HF & Hlog & Hr & _).
  eexists. split; [exact Hrun|]. split; [exact Hlog|].
  assert (Hi : intermediateTexts
                 (sessionLog s (length (recorders st)) (nextStream st)
                    loopEvs (finishStream m' ctx) lateEvs)
               = intermediateTexts loopEvs).
  { unfold intermediateTexts. erewrite sessionLog_omap; [|reflexivity|exact HF].
    cbn. rewrite app_nil_r. reflexivity. }
  rewrite Hi. apply LoopTrace_result in HT.
  assert (Hiff : r = None <-> last (intermediateTexts loopEvs) = None \/
                              last (intermediateTexts loopEvs) = Some "").
  { rewrite Hr. destruct (truthy_text res) eqn:Et.
    - split; [discriminate|]. intros Hl.
      assert (truthy_text res = false); [|congruence].
      apply truthy_text_false. rewrite HT.
      destruct (last (intermediateTexts loopEvs)); destruct Hl; auto; discriminate.
    - split; [|reflexivity]. intros _. apply truthy_text_false in Et.
      rewrite HT in Et.
      destruct (last (intermediateTexts loopEvs)); destruct Et; auto; discriminate. }
  split; [exact Hiff|]. split.
  - intros Hall. apply Hiff.
    destruct (last (intermediateTexts loopEvs)) as [t|] eqn:El; [right|auto].
    apply last_Some in El. destruct El as (l' & El). rewrite El in Hall.
    apply Forall_app in Hall. destruct Hall as (_ & Hall).
    inversion Hall; subst. reflexivity.
  - intros Hr'.
    destruct (last (intermediateTexts loopEvs)) as [t|] eqn:El;
      [|exfalso; apply Hr', Hiff; auto].
    apply last_Some in El. destruct El as (l' & ->).
    apply Exists_app. right. constructor.
    intros ->. apply Hr', Hiff. auto.
Qed.

Lemma decodeStream_result_iff_last_partial_witness :
  _model Fixtures.started = Some Fixtures.toyModel /\
  wellFormed Fixtures.silenceToneTone /\
  exists r st' evs,
    decodeStream (3 # 2) Fixtures.kitchen Fixtures.silenceToneTone [VadUp]
                 Fixtures.started = (Returned r, st') /\
    log st' = log Fixtures.started ++ evs /\
    (r = None <-> last (intermediateTexts evs) = None \/
                  last (intermediateTexts evs) = Some "") /\
    (Forall (fun t => t = "") (intermediateTexts evs) -> r = None) /\
    (r <> None -> Exists (fun t => t <> "") (intermediateTexts evs)).
Proof.
  split; [reflexivity|]. split; [apply wellFormed_quiet_chunks|].
  apply (decodeStream_result_iff_last_partial Fixtures.toyModel);
    [reflexivity | apply wellFormed_quiet_chunks].
Defined.

(** C1, as the specification states it, fails: a tone followed by silence
    makes the first intermediate decode return text and the last one
    return none, and the session yields no result. *)
Lemma noResult_iff_allPartialsEmpty_fails :
  ~ Claimed.noResult_iff_allPartialsEmpty
      (3 # 2) Fixtures.kitchen Fixtures.toneThenSilence [] Fixtures.started.
Proof.
  intros H.
  edestruct (H None) as [H1 _];
    [vm_compute; reflexivity | cbn [log Fixtures.started app]; reflexivity |].
  specialize (H1 eq_refl). vm_compute in H1.
  inversion H1 as [|? ? Ht _]. discriminate Ht.
Qed.

(** C3: whenever [decodeStream] returns an ASRResult, the session has
    created one stream context, [finishStream()] was called on that
    context and on no other, the text of the result is what that call
    returned, which is also the last value any [finishStream()] returned,
    and the likelihood is 1.0. *)
Theorem decodeStream_result_is_final_text
    elapsed s ticks late st res st' :
  decodeStream elapsed s ticks late st = (Returned (Some res), st') ->
  exists evs,
    log st' = log st ++ evs /\
    createdStreams evs = [nextStream st] /\
    finishes evs = [(nextStream st, text res)] /\
    last (finishes (log st')) = Some (nextStream st, text res) /\
    likelihood res = 1%Q /\
    session res = s /\
    processingTime res = elapsed.
Proof.
  intros Hrun.
  destruct (decodeStream_returned _ _ _ _ _ _ _ Hrun)
    as (m & loopEvs & lateEvs & ctx & r0 & Hm & HT & HF & Hlog & Hr & _).
  destruct (LoopTrace_streams _ _ _ _ _ _ _ _ _ HT) as (Hc & _ & Hf).
  destruct (truthy_text r0); [|discriminate].
  injection Hr as ->. cbn [text likelihood session processingTime].
  eexists. split; [exact Hlog|].
  assert (Hfin : finishes (sessionLog s (length (recorders st)) (nextStream st)
                             loopEvs (finishStream m ctx) lateEvs)
                 = [(nextStream st, finishStream m ctx)]).
  { unfold finishes. erewrite sessionLog_omap; [|reflexivity|exact HF].
    fold (finishes loopEvs). rewrite Hf. reflexivity. }
  split.
  { unfold createdStreams. erewrite sessionLog_omap; [|reflexivity|exact HF].
    fold (createdStreams loopEvs). rewrite Hc. reflexivity. }
  split; [exact Hfin|]. split; [|auto].
  rewrite Hlog. unfold finishes in *. rewrite omap_app, Hfin.
  apply last_snoc.
Qed.

Lemma decodeStream_result_is_final_text_witness :
  let run := decodeStream (3 # 2) Fixtures.kitchen Fixtures.silenceToneTone
                          [VadUp] Fixtures.started in
  let res := mkASRResult "hello" Fixtures.kitchen 1 (3 # 2) in
  run = (Returned (Some res), snd run) /\
  exists evs,
    log (snd run) = log Fixtures.started ++ evs /\
    createdStreams evs = [nextStream Fixtures.started] /\
    finishes evs = [(nextStream Fixtures.started, text res)] /\
    last (finishes (log (snd run)))
      = Some (nextStream Fixtures.started, text res) /\
    likelihood res = 1%Q /\
    session res = Fixtures.kitchen /\
    processingTime res = 3 # 2.
Proof.
  intros run res.
  assert (E : run = (Returned (Some res), snd run))
    by (vm_compute; reflexivity).
  split; [exact E|].
  exact (decodeStream_result_is_final_text
           (3 # 2) Fixtures.kitchen Fixtures.silenceToneTone [VadUp]
           Fixtures.started res (snd run) E).
Defined.

(** *** The trigger flag *)

(** C2, as the code has it: [onVadUp] sets the flag whatever it was;
    [onVadDown] with the flag clear changes nothing and requests no stop;
    with the flag set it asks the recorder bound to the instance to stop,
    once, and leaves the flag set. *)
Theorem onVadDown_stops_when_flag_set st :
  _triggerFlag (snd (onVadUp st)) = true /\
  (_triggerFlag st = false -> onVadDown st = (Returned tt, st)) /\
  (_triggerFlag st = true ->
   forall rid, _recorder st = Some rid ->
     exists st',
       onVadDown st = (Returned tt, st') /\
       log st' = log st ++ [EvStopRecording rid] /\
       recording rid st' = false /\
       _triggerFlag st' = true /\
       _recorder st' = Some rid).
Proof.
  split; [reflexivity|]. split.
  - intros Hf. unfold onVadDown, bind, get. rewrite Hf. reflexivity.
  - intros Hf rid Hr. unfold onVadDown, bind, get. rewrite Hf, Hr. cbn.
    eexists. split; [reflexivity|]. cbn. repeat split; auto.
    unfold recording. cbn. rewrite list_lookup_alter_eq.
    destruct (recorders st !! rid); reflexivity.
Qed.

Lemma onVadDown_stops_when_flag_set_witness :
  _triggerFlag (snd (onVadUp Fixtures.started)) = true /\
  (_triggerFlag Fixtures.started = false /\
   onVadDown Fixtures.started = (Returned tt, Fixtures.started)) /\
  (_triggerFlag Fixtures.capturing = true /\
   _recorder Fixtures.capturing = Some 0%nat /\
   exists st',
     onVadDown Fixtures.capturing = (Returned tt, st') /\
     log st' = log Fixtures.capturing ++ [EvStopRecording 0] /\
     recording 0 st' = false /\
     _triggerFlag st' = true /\
     _recorder st' = Some 0%nat).
Proof.
  split; [apply (onVadDown_stops_when_flag_set Fixtures.started)|].
  split.
  - split; [reflexivity|].
    apply (onVadDown_stops_when_flag_set Fixtures.started). reflexivity.
  - split; [reflexivity|]. split; [reflexivity|].
    apply (onVadDown_stops_when_flag_set Fixtures.capturing); reflexivity.
Defined.

(** C2, as the specification states it, fails: in the middle of a capture
    with the flag set, [onVadDown] requests the stop and the flag is
    still set afterwards. *)
Lemma vadDown_clears_and_stops_fails :
  ~ Claimed.vadDown_clears_and_stops Fixtures.capturing.
Proof.
  intros H. destruct (H eq_refl 0%nat eq_refl) as (st' & Hrun & Hflag & _).
  vm_compute in Hrun. injection Hrun as <-. discriminate Hflag.
Qed.

(** *** Stream contexts *)

Lemma decodeStream_unloaded elapsed s ticks late st :
  _model st = None ->
  exists e st',
    decodeStream elapsed s ticks late st = (Raised e, st') /\
    log st' = log st ++ [EvSuperDecodeStream s;
                         EvRecorderEnter (length (recorders st));
                         EvAddRecorder (deviceUid s) (length (recorders st));
                         EvRecorderExit (length (recorders st))] /\
    nextStream st' = nextStream st.
Proof.
  destruct st as [mo flag rc tmo rs ns lg]. cbn [_model]. intros ->.
  unfold decodeStream, finally, recordingBlock, Recorder_enter, bind, get,
    modify, ret, emit, raise. cbn. rewrite <- !app_assoc. cbn. eauto.
Qed.

(** What any invocation, returning or raising, does with streams. *)
Lemma decodeStream_streams elapsed s ticks late st :
  exists evs,
    log (snd (decodeStream elapsed s ticks late st)) = log st ++ evs /\
    ((createdStreams evs = [] /\ finishedStreams evs = [] /\
      nextStream (snd (decodeStream elapsed s ticks late st)) = nextStream st)
     \/
     (createdStreams evs = [nextStream st] /\
      (finishedStreams evs = [] \/ finishedStreams evs = [nextStream st]) /\
      nextStream (snd (decodeStream elapsed s ticks late st))
        = S (nextStream st))).
Proof.
  destruct (_model st) as [m|] eqn:Hm.
  2:{ destruct (decodeStream_unloaded elapsed s ticks late st Hm)
        as (e & st' & -> & Hlog & Hn).
      eexists. split; [exact Hlog|]. left. cbn. auto. }
  rewrite (decodeStream_loaded m) by exact Hm. cbn zeta.
  match goal with
  | |- context [decodeLoop m s ?rid ?sid ticks ?c ?r0 ?x] =>
      destruct (decodeLoop_extends m s rid sid ticks c r0 x)
        as (loopEvs & (L & _ & _ & N) & C & F);
      destruct (decodeLoop m s rid sid ticks c r0 x) as [[[ctx res]|e] st2]
  end; cbn [snd] in L, N; cbn [log nextStream] in L, N.
  - match goal with
    | |- context [deliver late ?x] =>
        destruct (deliver_extends late x) as (lateEvs & (L4 & _ & _ & N4) & F4)
    end.
    destruct (stops_no_streams _ _ F4) as (C4 & D4).
    cbn in L4, N4. cbn. rewrite L4, N4, L, N. rewrite <- !app_assoc.
    eexists. split; [reflexivity|]. right.
    rewrite !createdStreams_app, !finishedStreams_app, C, F, C4, D4.
    cbn. auto.
  - cbn. rewrite L, N. rewrite <- !app_assoc.
    eexists. split; [reflexivity|]. right.
    rewrite !createdStreams_app, !finishedStreams_app, C, F.
    cbn. auto.
Qed.

Lemma streamsOnce_deliver sgs st :
  streamsOnce st -> streamsOnce (deliver sgs st).
Proof.
  destruct (deliver_extends sgs st) as (evs & (L & _ & _ & N) & F).
  destruct (stops_no_streams _ _ F) as (C & D).
  unfold streamsOnce, streamsFresh.
  rewrite L, N, createdStreams_app, finishedStreams_app, C, D, !app_nil_r.
  auto.
Qed.

Lemma streamsOnce_decodeStream elapsed s ticks late st :
  streamsOnce st -> streamsOnce (snd (decodeStream elapsed s ticks late st)).
Proof.
  destruct (decodeStream_streams elapsed s ticks late st) as (evs & L & H).
  unfold streamsOnce, streamsFresh.
  rewrite L, createdStreams_app, finishedStreams_app.
  intros (Hfresh & Hc & Hf). apply Forall_app in Hfresh.
  destruct Hfresh as (Fc & Ff).
  destruct H as [(C & D & N)|(C & D & N)]; rewrite C, N.
  - rewrite D, !app_nil_r. split; [apply Forall_app|]; auto.
  - assert (Hnew : forall l, Forall (fun sid => (sid < nextStream st)%nat) l ->
              NoDup l -> NoDup (l ++ [nextStream st])).
    { intros l Hl Hnd. apply NoDup_app. split; [exact Hnd|].
      split; [|apply NoDup_singleton].
      intros x Hx Hx'. apply list_elem_of_singleton in Hx'. subst x.
      rewrite Forall_forall in Hl. specialize (Hl _ Hx). lia. }
    assert (Hup : forall l, Forall (fun sid => (sid < nextStream st)%nat) l ->
              Forall (fun sid => (sid < S (nextStream st))%nat) l).
    { intros l Hl. eapply Forall_impl; [exact Hl|]. cbn. intros; lia. }
    destruct D as [D|D]; rewrite D, ?app_nil_r.
    + split; [|auto]. rewrite !Forall_app. repeat split; auto.
    + split; [|auto]. rewrite !Forall_app. repeat split; auto.
Qed.

Lemma streamsOnce_runSessions invs :
  forall st, streamsOnce st -> streamsOnce (runSessions invs st).
Proof.
  induction invs as [|i rest IH]; intros st H; cbn [runSessions]; [exact H|].
  apply IH, streamsOnce_decodeStream, streamsOnce_deliver, H.
Qed.

Lemma streamsOnce_started : streamsOnce Fixtures.started.
Proof.
  unfold streamsOnce, streamsFresh. cbn.
  split; [constructor|]. split; apply NoDup_nil_2.
Qed.

(** C5: an invocation with the model loaded creates one stream context,
    one that no earlier event of the log mentions; when it runs to its
    end it calls [finishStream()] on that context once, after the loop
    and the release of the recorder, and on no other context; it runs to
    its end when every chunk can be read.  Over any sequence of sessions
    of one instance, no stream context is created twice and none is
    finished twice. *)
Theorem decodeStream_stream_lifecycle :
  (forall m elapsed s ticks late st,
      _model st = Some m ->
      streamsOnce st ->
      exists out st' evs,
        decodeStream elapsed s ticks late st = (out, st') /\
        log st' = log st ++ evs /\
        createdStreams evs = [nextStream st] /\
        ~ elem_of (nextStream st)
                  (createdStreams (log st) ++ finishedStreams (log st)) /\
        (forall r, out = Returned r ->
           finishedStreams evs = [nextStream st] /\
           exists loopEvs lateEvs txt,
             evs = sessionLog s (length (recorders st)) (nextStream st)
                              loopEvs txt lateEvs /\
             finishedStreams loopEvs = [] /\
             finishedStreams lateEvs = []) /\
        (wellFormed ticks -> exists r, out = Returned r)) /\
  (forall invs st,
      streamsOnce st ->
      NoDup (createdStreams (log (runSessions invs st))) /\
      NoDup (finishedStreams (log (runSessions invs st)))).
Proof.
  split.
  - intros m elapsed s ticks late st Hm (Hfresh & _ & _).
    destruct (decodeStream elapsed s ticks late st) as [out st'] eqn:Hrun.
    destruct (decodeStream_streams elapsed s ticks late st) as (evs & L & H).
    rewrite Hrun in L, H. cbn [snd] in L, H.
    exists out, st', evs. split; [reflexivity|]. split; [exact L|].
    assert (Hc : createdStreams evs = [nextStream st]).
    { destruct H as [(C & D & N)|(C & D & N)]; [|exact C].
      exfalso. rewrite (decodeStream_loaded m) in Hrun by exact Hm.
      cbn zeta in Hrun.
      match type of Hrun with
      | context [decodeLoop m s ?rid ?sid ticks ?c ?r0 ?x] =>
          destruct (decodeLoop_extends m s rid sid ticks c r0 x)
            as (loopEvs & (L2 & _ & _ & N2) & _);
          destruct (decodeLoop m s rid sid ticks c r0 x)
            as [[[ctx res]|e] st2]
      end; cbn [snd] in L2, N2; cbn [log nextStream] in N2;
        injection Hrun as <- <-.
      - match type of N with
        | context [deliver late ?x] =>
            destruct (deliver_extends late x) as (? & (_ & _ & _ & N4) & _)
        end.
        cbn in N, N4. rewrite N4, N2 in N. lia.
      - cbn in N. rewrite N2 in N. lia. }
    split; [exact Hc|]. split.
    { intros Hin. unfold streamsFresh in Hfresh.
      rewrite Forall_forall in Hfresh. specialize (Hfresh _ Hin). lia. }
    split.
    + intros r ->.
      destruct (decodeStream_returned _ _ _ _ _ _ _ Hrun)
        as (m' & loopEvs & lateEvs & ctx & res & _ & HT & HF & Hlog & _).
      rewrite L in Hlog. apply app_inv_head in Hlog. subst evs.
      destruct (LoopTrace_streams _ _ _ _ _ _ _ _ _ HT) as (_ & Hf & _).
      destruct (stops_no_streams _ _ HF) as (_ & Hf').
      split.
      * unfold finishedStreams.
        erewrite sessionLog_omap; [|reflexivity|exact HF].
        fold (finishedStreams loopEvs). rewrite Hf. reflexivity.
      * exists loopEvs, lateEvs, (finishStream m' ctx). auto.
    + intros Hw.
      destruct (decodeStream_total m elapsed s ticks late st Hm Hw)
        as (r & st'' & Hrun').
      exists r. congruence.
  - intros invs st H.
    destruct (streamsOnce_runSessions invs st H) as (_ & Hc & Hf). auto.
Qed.

Lemma decodeStream_stream_lifecycle_witness :
  _model Fixtures.started = Some Fixtures.toyModel /\
  streamsOnce Fixtures.started /\
  wellFormed Fixtures.silenceToneTone /\
  (exists out st' evs,
      decodeStream (3 # 2) Fixtures.kitchen Fixtures.silenceToneTone []
                   Fixtures.started = (out, st') /\
      log st' = log Fixtures.started ++ evs /\
      createdStreams evs = [nextStream Fixtures.started] /\
      ~ elem_of (nextStream Fixtures.started)
                (createdStreams (log Fixtures.started)
                   ++ finishedStreams (log Fixtures.started)) /\
      (forall r, out = Returned r ->
         finishedStreams evs = [nextStream Fixtures.started] /\
         exists loopEvs lateEvs txt,
           evs = sessionLog Fixtures.kitchen
                            (length (recorders Fixtures.started))
                            (nextStream Fixtures.started)
                            loopEvs txt lateEvs /\
           finishedStreams loopEvs = [] /\
           finishedStreams lateEvs = []) /\
      (wellFormed Fixtures.silenceToneTone -> exists r, out = Returned r)) /\
  NoDup (createdStreams (log (runSessions Fixtures.twoSessions Fixtures.started))) /\
  NoDup (finishedStreams (log (runSessions Fixtures.twoSessions Fixtures.started))).
Proof.
  split; [reflexivity|]. split; [apply streamsOnce_started|].
  split; [apply wellFormed_quiet_chunks|]. split.
  - apply (proj1 decodeStream_stream_lifecycle Fixtures.toyModel);
      [reflexivity | apply streamsOnce_started].
  - apply (proj2 decodeStream_stream_lifecycle), streamsOnce_started.
Defined.

Example twoSessions_streams :
  createdStreams (log (runSessions Fixtures.twoSessions Fixtures.started))
    = [0%nat; 1%nat] /\
  finishes (log (runSessions Fixtures.twoSessions Fixtures.started))
    = [(0%nat, "hello"); (1%nat, "hello")].
Proof. split; vm_compute; reflexivity. Qed.

End CoquiFacts.

(** * Properties of the delegated engine *)

Section SnipsFacts.
Import SnipsAsr.

Lemma deliver_log ts : forall st, log (deliver ts st) = log st.
Proof.
  induction ts as [|t rest IH]; intros st; cbn [deliver]; [reflexivity|].
  rewrite IH. destruct t; reflexivity.
Qed.

Lemma stateFrom_log env n : forall k st,
  log (stateFrom env k st n) = log st ++ replicate n (EvSleep (1 # 10)).
Proof.
  induction n as [|n IH]; intros k st; cbn [stateFrom replicate].
  - rewrite app_nil_r. reflexivity.
  - rewrite IH, deliver_log. cbn. rewrite <- app_assoc. reflexivity.
Qed.

(** While the flag stays set the loop keeps sleeping. *)
Lemma pollLoop_sleeps env n : forall fuel k st,
  (forall j, (j < n)%nat -> _listening (stateFrom env k st j) = true) ->
  pollLoop (n + fuel) env k st
  = pollLoop fuel env (k + n) (stateFrom env k st n).
Proof.
  induction n as [|n IH]; intros fuel k st H.
  - rewrite Nat.add_0_r. reflexivity.
  - cbn [Nat.add pollLoop stateFrom].
    assert (H0 : _listening st = true) by (apply (H 0%nat); lia).
    rewrite H0, IH.
    + f_equal. lia.
    + intros j Hj. apply (H (S j)). lia.
Qed.

Lemma pollLoop_left fuel env : forall k st st',
  pollLoop fuel env k st = Some st' -> _listening st' = false.
Proof.
  induction fuel as [|fuel IH]; intros k st st'; cbn [pollLoop];
    destruct (_listening st) eqn:E; try discriminate.
  - intros [= <-]. exact E.
  - apply IH.
  - intros [= <-]. exact E.
Qed.

Lemma pollLoop_idle fuel env k st :
  _listening st = false -> pollLoop fuel env k st = Some st.
Proof. intros H. destruct fuel; cbn [pollLoop]; rewrite H; reflexivity. Qed.

Lemma sleeps_replicate l n q :
  sleeps (l ++ replicate n (EvSleep q)) = sleeps l ++ replicate n q.
Proof.
  unfold sleeps. rewrite omap_app. f_equal.
  induction n as [|n IH]; cbn; [reflexivity|]. f_equal. exact IH.
Qed.

(** *** The polling loop *)

(** C7: [decodeStream] of the delegated engine returns only with the
    listening flag false, and then without an ASRResult; as long as the
    flag is true at each test, it is still asleep after that many sleeps;
    when the flag is false at test number [n] for the first time (at the
    first test, if it was never set) the call returns after exactly [n]
    sleeps of a tenth of a second. *)
Theorem snips_decodeStream_blocks_while_listening env s st :
  (forall fuel out,
      decodeStream fuel env s st = Some out ->
      fst out = Returned None /\ _listening (snd out) = false) /\
  (forall n,
      (forall j, (j <= n)%nat -> _listening (stateFrom env 0 st j) = true) ->
      decodeStream n env s st = None) /\
  (forall n,
      (forall j, (j < n)%nat -> _listening (stateFrom env 0 st j) = true) ->
      _listening (stateFrom env 0 st n) = false ->
      forall fuel, (n <= fuel)%nat ->
        decodeStream fuel env s st
          = Some (Returned None, stateFrom env 0 st n) /\
        sleeps (log (stateFrom env 0 st n))
          = sleeps (log st) ++ replicate n (1 # 10)).
Proof.
  split; [|split].
  - intros fuel out. unfold decodeStream.
    destruct (pollLoop fuel env 0 st) as [st'|] eqn:E; [|discriminate].
    intros [= <-]. split; [reflexivity|]. cbn. eapply pollLoop_left, E.
  - intros n H. unfold decodeStream.
    replace n with (n + 0)%nat at 1 by lia.
    rewrite pollLoop_sleeps by (intros j Hj; apply H; lia).
    cbn [pollLoop]. rewrite (H n) by lia. reflexivity.
  - intros n H Hn fuel Hfuel. split.
    + unfold decodeStream.
      replace fuel with (n + (fuel - n))%nat by lia.
      rewrite pollLoop_sleeps by exact H.
      rewrite pollLoop_idle by exact Hn. reflexivity.
    + rewrite stateFrom_log. apply sleeps_replicate.
Qed.

Lemma snips_decodeStream_blocks_while_listening_witness :
  let env := SnipsFixtures.toggleOffDuring 2 "kitchen" in
  let st := SnipsFixtures.listening in
  let s := mkSession "alice" "kitchen" in
  (decodeStream 5 env s st = Some (Returned None, stateFrom env 0 st 3) /\
   fst (Returned None, stateFrom env 0 st 3)
     = Returned (@None ASRResult) /\
   _listening (snd (Returned (@None ASRResult), stateFrom env 0 st 3)) = false) /\
  ((forall j, (j <= 2)%nat -> _listening (stateFrom env 0 st j) = true) /\
   decodeStream 2 env s st = None) /\
  ((forall j, (j < 3)%nat -> _listening (stateFrom env 0 st j) = true) /\
   _listening (stateFrom env 0 st 3) = false /\
   (3 <= 5)%nat /\
   decodeStream 5 env s st = Some (Returned None, stateFrom env 0 st 3) /\
   sleeps (log (stateFrom env 0 st 3)) = sleeps (log st) ++ replicate 3 (1 # 10)).
Proof.
  intros env st s.
  assert (H2 : forall j, (j <= 2)%nat -> _listening (stateFrom env 0 st j) = true)
    by (intros [|[|[|j]]] Hj; [reflexivity..|lia]).
  assert (H3 : forall j, (j < 3)%nat -> _listening (stateFrom env 0 st j) = true)
    by (intros j Hj; apply H2; lia).
  assert (E : decodeStream 5 env s st = Some (Returned None, stateFrom env 0 st 3))
    by reflexivity.
  split; [|split].
  - split; [exact E|].
    exact (proj1 (snips_decodeStream_blocks_while_listening env s st) 5%nat _ E).
  - split; [exact H2|].
    exact (proj1 (proj2 (snips_decodeStream_blocks_while_listening env s st))
             2%nat H2).
  - split; [exact H3|]. split; [reflexivity|]. split; [lia|].
    exact (proj2 (proj2 (snips_decodeStream_blocks_while_listening env s st))
             3%nat H3 eq_refl 5%nat ltac:(lia)).
Defined.

(** C9: [onAsrToggleOff] does the same whatever device it is called for:
    the flag is false afterwards, also when listening was started for
    another device, and a [decodeStream] that tests the flag next returns
    at once. *)
Theorem onAsrToggleOff_ignores_device d1 d2 st :
  onAsrToggleOff d1 st = onAsrToggleOff d2 st /\
  _listening (snd (onAsrToggleOff d1 st)) = false /\
  (forall sess,
      _listening (snd (onAsrToggleOff d1 (snd (onStartListening sess st))))
        = false) /\
  (forall fuel env s,
      decodeStream fuel env s (snd (onAsrToggleOff d1 st))
        = Some (Returned None, snd (onAsrToggleOff d1 st))).
Proof.
  repeat split.
  intros fuel env s. unfold decodeStream.
  rewrite pollLoop_idle; reflexivity.
Qed.

(** *** Start-up *)

(** C6: [onStart] raises exactly when the active language is not "en";
    it then raises before anything is launched; under "en" it returns
    after one launch. *)
Theorem onStart_raises_iff_not_english a st :
  ((exists e, fst (onStart a st) = Raised e) <-> activeLanguage a <> "en") /\
  (activeLanguage a <> "en" ->
     fst (onStart a st) = Raised (Exception "Snips generic ASR only for english") /\
     log (snd (onStart a st)) = log st ++ [EvSuperOnStart] /\
     launches (log (snd (onStart a st))) = launches (log st)) /\
  (activeLanguage a = "en" ->
     fst (onStart a st) = Returned tt /\
     launches (log (snd (onStart a st)))
       = launches (log st) ++ [("SnipsASR", commandLine a, true)]).
Proof.
  unfold onStart, bind, emit, modify, raise. cbn.
  destruct (String.eqb_spec (activeLanguage a) "en") as [He|He]; cbn.
  - split; [|split].
    + split; [intros [e H]; discriminate | intros H; contradiction].
    + intros H; contradiction.
    + intros _. split; [reflexivity|].
      unfold launches. rewrite <- app_assoc, !omap_app. reflexivity.
  - split; [|split].
    + split; [auto | eauto].
    + intros _. split; [reflexivity|]. split; [reflexivity|].
      unfold launches. rewrite omap_app. cbn. apply app_nil_r.
    + intros H; contradiction.
Qed.

Lemma onStart_raises_iff_not_english_witness :
  (activeLanguage SnipsFixtures.french <> "en" /\
   fst (onStart SnipsFixtures.french SnipsFixtures.idle)
     = Raised (Exception "Snips generic ASR only for english") /\
   log (snd (onStart SnipsFixtures.french SnipsFixtures.idle))
     = log SnipsFixtures.idle ++ [EvSuperOnStart] /\
   launches (log (snd (onStart SnipsFixtures.french SnipsFixtures.idle)))
     = launches (log SnipsFixtures.idle)) /\
  (activeLanguage SnipsFixtures.english = "en" /\
   fst (onStart SnipsFixtures.english SnipsFixtures.idle) = Returned tt /\
   launches (log (snd (onStart SnipsFixtures.english SnipsFixtures.idle)))
     = launches (log SnipsFixtures.idle)
         ++ [("SnipsASR", commandLine SnipsFixtures.english, true)]).
Proof.
  split.
  - assert (H : activeLanguage SnipsFixtures.french <> "en") by discriminate.
    split; [exact H|].
    exact (proj1 (proj2 (onStart_raises_iff_not_english
                           SnipsFixtures.french SnipsFixtures.idle)) H).
  - split; [reflexivity|].
    exact (proj2 (proj2 (onStart_raises_iff_not_english
                           SnipsFixtures.english SnipsFixtures.idle)) eq_refl).
Defined.

(** *** The command line *)

Lemma append_assoc (s1 s2 s3 : string) :
  (s1 +:+ s2) +:+ s3 = s1 +:+ s2 +:+ s3.
Proof.
  induction s1 as [|c s1 IH]; [reflexivity|].
  change (String c ((s1 +:+ s2) +:+ s3) = String c (s1 +:+ s2 +:+ s3)).
  rewrite IH. reflexivity.
Qed.

Lemma append_nil_r (s1 : string) : s1 +:+ "" = s1.
Proof.
  induction s1 as [|c s1 IH]; [reflexivity|].
  change (String c (s1 +:+ "") = String c s1).
  rewrite IH. reflexivity.
Qed.

Lemma occursIn_prefix s q t : t = s +:+ q -> occursIn s t.
Proof. intros ->. exists "", q. reflexivity. Qed.

Lemma occursIn_app_r s p t : occursIn s t -> occursIn s (p +:+ t).
Proof.
  intros (pre & post & ->). exists (p +:+ pre), post.
  rewrite append_assoc. reflexivity.
Qed.

(** C8: the command line is a function of the application's settings;
    it is the program name, the assistant directory, the broker's host
    and port, the credentials, the certificate file, the model directory
    and the partial-results flag, in this order, where the credentials
    are the user name and the password when a user name is configured
    and nothing otherwise, and the certificate file is the configured
    one or nothing; [onStart] then launches it once, under the name
    SnipsASR, with auto-restart on. *)
Theorem commandLine_contents a st :
  let cfg := getAliceConfigByName a in
  (exists credentials tls,
      commandLine a
        = "snips-asr" +:+ " --assistant " +:+ rootDir a +:+ "/assistant"
          +:+ " --mqtt " +:+ format (cfg "mqttHost") +:+ ":"
          +:+ format (cfg "mqttPort")
          +:+ credentials +:+ tls
          +:+ " --model /usr/share/snips/snips-asr-model-en-500MB"
          +:+ " --partial" /\
      credentials
        = (if truthy (cfg "mqttUser")
           then " --mqtt-username " +:+ format (cfg "mqttUser")
                +:+ " --mqtt-password " +:+ format (cfg "mqttPassword")
           else "") /\
      tls
        = (if truthy (cfg "mqttTLSFile")
           then " --mqtt-tls-cafile " +:+ format (cfg "mqttTLSFile")
           else "")) /\
  occursIn (" --assistant " +:+ rootDir a +:+ "/assistant") (commandLine a) /\
  occursIn (" --mqtt " +:+ format (cfg "mqttHost") +:+ ":"
            +:+ format (cfg "mqttPort")) (commandLine a) /\
  occursIn " --model /usr/share/snips/snips-asr-model-en-500MB" (commandLine a) /\
  occursIn " --partial" (commandLine a) /\
  (truthy (cfg "mqttUser") = true ->
     occursIn (" --mqtt-username " +:+ format (cfg "mqttUser")
               +:+ " --mqtt-password " +:+ format (cfg "mqttPassword"))
              (commandLine a)) /\
  (truthy (cfg "mqttTLSFile") = true ->
     occursIn (" --mqtt-tls-cafile " +:+ format (cfg "mqttTLSFile"))
              (commandLine a)) /\
  (activeLanguage a = "en" ->
     onStart a st
       = (Returned tt,
          mkState (_listening st)
            (log st ++ [EvSuperOnStart;
                        EvRunSubprocess "SnipsASR" (commandLine a) true]))).
Proof.
  intros cfg.
  assert (Hshape :
    commandLine a
      = "snips-asr" +:+ " --assistant " +:+ rootDir a +:+ "/assistant"
        +:+ " --mqtt " +:+ format (cfg "mqttHost") +:+ ":"
        +:+ format (cfg "mqttPort")
        +:+ (if truthy (cfg "mqttUser")
             then " --mqtt-username " +:+ format (cfg "mqttUser")
                  +:+ " --mqtt-password " +:+ format (cfg "mqttPassword")
             else "")
        +:+ (if truthy (cfg "mqttTLSFile")
             then " --mqtt-tls-cafile " +:+ format (cfg "mqttTLSFile")
             else "")
        +:+ " --model /usr/share/snips/snips-asr-model-en-500MB"
        +:+ " --partial").
  { unfold commandLine. fold cfg. cbn zeta.
    destruct (truthy (cfg "mqttUser")), (truthy (cfg "mqttTLSFile"));
      rewrite ?append_assoc; reflexivity. }
  split; [eauto|].
  split.
  { rewrite Hshape. apply occursIn_app_r.
    eapply occursIn_prefix. rewrite !append_assoc. reflexivity. }
  split.
  { rewrite Hshape. do 4 apply occursIn_app_r.
    eapply occursIn_prefix. rewrite !append_assoc. reflexivity. }
  split.
  { rewrite Hshape. do 10 apply occursIn_app_r.
    eapply occursIn_prefix. reflexivity. }
  split.
  { rewrite Hshape. do 11 apply occursIn_app_r.
    apply (occursIn_prefix _ ""). reflexivity. }
  split.
  { intros Hu. rewrite Hshape, Hu. cbv iota. do 8 apply occursIn_app_r.
    eapply occursIn_prefix. rewrite !append_assoc. reflexivity. }
  split.
  { intros Ht. rewrite Hshape, Ht. cbv iota. do 9 apply occursIn_app_r.
    eapply occursIn_prefix. rewrite !append_assoc. reflexivity. }
  intros He. unfold onStart, bind, emit, modify. cbn.
  rewrite He. cbn. rewrite <- app_assoc. reflexivity.
Qed.

Lemma commandLine_contents_witness :
  let a := SnipsFixtures.englishSecured in
  let cfg := getAliceConfigByName a in
  (truthy (cfg "mqttUser") = true /\
   occursIn (" --mqtt-username " +:+ format (cfg "mqttUser")
             +:+ " --mqtt-password " +:+ format (cfg "mqttPassword"))
            (commandLine a)) /\
  (truthy (cfg "mqttTLSFile") = true /\
   occursIn (" --mqtt-tls-cafile " +:+ format (cfg "mqttTLSFile"))
            (commandLine a)) /\
  (activeLanguage a = "en" /\
   onStart a SnipsFixtures.idle
     = (Returned tt,
        mkState (_listening SnipsFixtures.idle)
          (log SnipsFixtures.idle
             ++ [EvSuperOnStart;
                 EvRunSubprocess "SnipsASR" (commandLine a) true]))).
Proof.
  intros a cfg.
  destruct (commandLine_contents a SnipsFixtures.idle)
    as (_ & _ & _ & _ & _ & Hu & Ht & Hs).
  split; [split; [reflexivity | exact (Hu eq_refl)]|].
  split; [split; [reflexivity | exact (Ht eq_refl)]|].
  split; [reflexivity | exact (Hs eq_refl)].
Defined.

Example commandLine_secured :
  commandLine SnipsFixtures.englishSecured
  = "snips-asr --assistant /home/pi/ProjectAlice/assistant --mqtt broker.lan:8883 --mqtt-username alice --mqtt-password secret --mqtt-tls-cafile /etc/ssl/ca.pem --model /usr/share/snips/snips-asr-model-en-500MB --partial".
Proof. reflexivity. Qed.

Example commandLine_local :
  commandLine SnipsFixtures.english
  = "snips-asr --assistant /home/pi/ProjectAlice/assistant --mqtt localhost:1883 --model /usr/share/snips/snips-asr-model-en-500MB --partial".
Proof. reflexivity. Qed.

End SnipsFacts.

(** * Further properties of the embedded engine *)

Section CaptureFacts.
Import CoquiAsr Trace Capture.

(** ** Before the model is loaded *)

Lemma decodeStream_unloaded_run elapsed s ticks late st :
  _model st = None ->
  exists st',
    decodeStream elapsed s ticks late st
      = (Raised (AttributeError
                   "'NoneType' object has no attribute 'createStream'"), st') /\
    log st' = log st ++ [EvSuperDecodeStream s;
                         EvRecorderEnter (length (recorders st));
                         EvAddRecorder (deviceUid s) (length (recorders st));
                         EvRecorderExit (length (recorders st))] /\
    _recorder st' = Some (length (recorders st)) /\
    recording (length (recorders st)) st' = false /\
    length (recorders st') = S (length (recorders st)) /\
    _triggerFlag st' = _triggerFlag st /\
    nextStream st' = nextStream st /\
    _model st' = None.
Proof.
  destruct st as [mo flag rc tmo rs ns lg]. cbn [_model]. intros ->.
  unfold decodeStream, finally, recordingBlock, Recorder_enter, Recorder_exit,
    bind, get, modify, ret, emit, raise. cbn.
  eexists. split; [reflexivity|]. cbn.
  rewrite <- !app_assoc. cbn.
  repeat split; auto.
  - unfold recording. cbn. rewrite list_lookup_alter_eq.
    rewrite lookup_app_r by lia. rewrite Nat.sub_diag. reflexivity.
  - rewrite length_alter, length_app. cbn. lia.
Qed.

(** X1: [decodeStream] on an instance whose model was never loaded raises
    AttributeError at [createStream()]: by then a recorder was entered,
    registered and bound to the instance, and it is released on the way
    out; no stream was created, the flag, the stream counter and the
    signals of the session are left alone. *)
Theorem decodeStream_without_model elapsed s ticks late st :
  _model st = None ->
  exists st',
    decodeStream elapsed s ticks late st
      = (Raised (AttributeError
                   "'NoneType' object has no attribute 'createStream'"), st') /\
    log st' = log st ++ [EvSuperDecodeStream s;
                         EvRecorderEnter (length (recorders st));
                         EvAddRecorder (deviceUid s) (length (recorders st));
                         EvRecorderExit (length (recorders st))] /\
    _recorder st' = Some (length (recorders st)) /\
    recording (length (recorders st)) st' = false /\
    length (recorders st') = S (length (recorders st)) /\
    _triggerFlag st' = _triggerFlag st /\
    nextStream st' = nextStream st /\
    _model st' = None.
Proof. apply decodeStream_unloaded_run. Qed.

Lemma decodeStream_without_model_witness :
  _model notStarted = None /\
  exists st',
    decodeStream (3 # 2) Fixtures.kitchen Fixtures.silenceToneTone [VadUp]
                 notStarted
      = (Raised (AttributeError
                   "'NoneType' object has no attribute 'createStream'"), st') /\
    log st' = log notStarted
                ++ [EvSuperDecodeStream Fixtures.kitchen;
                    EvRecorderEnter (length (recorders notStarted));
                    EvAddRecorder (deviceUid Fixtures.kitchen)
                                  (length (recorders notStarted));
                    EvRecorderExit (length (recorders notStarted))] /\
    _recorder st' = Some (length (recorders notStarted)) /\
    recording (length (recorders notStarted)) st' = false /\
    length (recorders st') = S (length (recorders notStarted)) /\
    _triggerFlag st' = _triggerFlag notStarted /\
    nextStream st' = nextStream notStarted /\
    _model st' = None.
Proof.
  split; [reflexivity|].
  apply (decodeStream_without_model (3 # 2) Fixtures.kitchen
           Fixtures.silenceToneTone [VadUp] notStarted).
  reflexivity.
Defined.

(** ** The signals and the flag *)

Lemma signal_triggerFlag sg st :
  _triggerFlag (snd (signal sg st)) = _triggerFlag st || isVadUp sg.
Proof.
  destruct sg; cbn.
  - rewrite orb_true_r. reflexivity.
  - rewrite orb_false_r. unfold onVadDown, bind, get.
    destruct (_triggerFlag st) eqn:E; cbn; [|exact E].
    destruct (_recorder st); cbn; exact E.
Qed.

Lemma signal_VadDown_armed st rid :
  _triggerFlag st = true -> _recorder st = Some rid ->
  signal VadDown st = stopRecording rid st.
Proof.
  intros Hf Hr. cbn. unfold onVadDown, bind, get. rewrite Hf, Hr. reflexivity.
Qed.

Lemma deliver_flag sgs : forall st,
  _triggerFlag (deliver sgs st) = _triggerFlag st || existsb isVadUp sgs.
Proof.
  induction sgs as [|sg rest IH]; intros st; cbn [deliver existsb].
  - rewrite orb_false_r. reflexivity.
  - rewrite IH, signal_triggerFlag, orb_assoc. reflexivity.
Qed.

Lemma deliver_stop_requests sgs : forall st rid,
  _triggerFlag st = true -> _recorder st = Some rid ->
  stopRequests (log (deliver sgs st))
  = stopRequests (log st)
      ++ replicate (length (filter (fun sg => isVadUp sg = false) sgs)) rid.
Proof.
  induction sgs as [|sg rest IH]; intros st rid Hf Hr; cbn [deliver].
  - cbn. rewrite app_nil_r. reflexivity.
  - destruct sg.
    + change (snd (signal VadUp st)) with (set_triggerFlag true st).
      rewrite (IH (set_triggerFlag true st) rid eq_refl Hr). reflexivity.
    + rewrite (signal_VadDown_armed st rid Hf Hr).
      rewrite (IH (snd (stopRecording rid st)) rid Hf Hr).
      cbn. unfold stopRequests. rewrite omap_app, <- app_assoc. reflexivity.
Qed.

Lemma deliver_inert sgs st :
  _triggerFlag st = false -> onlyVadDown sgs -> deliver sgs st = st.
Proof.
  intros Hf Hd. induction Hd as [|sg rest -> _ IH]; cbn [deliver]; [reflexivity|].
  cbn. unfold onVadDown, bind, get. rewrite Hf. cbn. exact IH.
Qed.

(** X2: The callbacks alone never clear the flag: after any signals it is set
    if and only if it was set or a voice-up was among them.  Once it is
    set, every voice-down asks the bound recorder to stop, again and
    again.  With the flag clear, voice-downs alone change nothing. *)
Theorem deliver_triggerFlag sgs st :
  _triggerFlag (deliver sgs st) = _triggerFlag st || existsb isVadUp sgs /\
  (_triggerFlag st = true ->
   forall rid, _recorder st = Some rid ->
     stopRequests (log (deliver sgs st))
       = stopRequests (log st)
           ++ replicate (length (filter (fun sg => isVadUp sg = false) sgs)) rid) /\
  (_triggerFlag st = false -> onlyVadDown sgs -> deliver sgs st = st).
Proof.
  split; [apply deliver_flag|]. split.
  - intros Hf rid Hr. apply deliver_stop_requests; assumption.
  - apply deliver_inert.
Qed.

Lemma deliver_triggerFlag_witness :
  (_triggerFlag Fixtures.capturing = true /\
   _recorder Fixtures.capturing = Some 0%nat /\
   stopRequests (log (deliver [VadDown; VadUp; VadDown] Fixtures.capturing))
     = stopRequests (log Fixtures.capturing) ++ replicate 2 0%nat) /\
  (_triggerFlag Fixtures.started = false /\
   onlyVadDown [VadDown; VadDown] /\
   deliver [VadDown; VadDown] Fixtures.started = Fixtures.started).
Proof.
  split.
  - split; [reflexivity|]. split; [reflexivity|].
    exact (proj1 (proj2 (deliver_triggerFlag [VadDown; VadUp; VadDown]
                           Fixtures.capturing)) eq_refl 0%nat eq_refl).
  - assert (H : onlyVadDown [VadDown; VadDown]) by (repeat constructor).
    split; [reflexivity|]. split; [exact H|].
    exact (proj2 (proj2 (deliver_triggerFlag [VadDown; VadDown]
                           Fixtures.started)) eq_refl H).
Defined.

(** ** What the loop logs, however it ends *)

Lemma stopOf_loopEvent s rid sid evs :
  Forall (stopOf (Some rid)) evs -> Forall (loopEvent s rid sid) evs.
Proof.
  induction 1 as [|e l (r & Hr & ->) _ IH]; constructor; [|exact IH].
  cbn. congruence.
Qed.

Lemma decodeLoop_events m s rid sid ticks :
  forall ctx res st,
    _recorder st = Some rid ->
    exists evs,
      extends st (snd (decodeLoop m s rid sid ticks ctx res st)) evs /\
      Forall (loopEvent s rid sid) evs /\
      (_triggerFlag st = true ->
       _triggerFlag (snd (decodeLoop m s rid sid ticks ctx res st)) = true).
Proof.
  induction ticks as [|t rest IH]; intros ctx res st Hrec.
  - exists []. split; [apply extends_refl|]. split; [constructor | auto].
  - rewrite decodeLoop_cons. cbn zeta.
    destruct (deliver_extends (during t) st) as (evs0 & X0 & F0).
    rewrite Hrec in F0. apply (stopOf_loopEvent s rid sid) in F0.
    pose proof (deliver_flag (during t) st) as Hflag.
    set (st1 := deliver (during t) st) in *.
    assert (Hrec1 : _recorder st1 = Some rid)
      by (destruct X0 as (_ & _ & R & _); congruence).
    assert (Hf1 : _triggerFlag st = true -> _triggerFlag st1 = true)
      by (intros H; rewrite Hflag, H; reflexivity).
    destruct (negb (recording rid st1)); [exists evs0; auto|].
    pose proof (emit_extends (EvRecorderYield rid (chunk t)) st1) as X1.
    set (st2 := snd (emit (EvRecorderYield rid (chunk t)) st1)) in *.
    assert (X2 : extends st st2 (evs0 ++ [EvRecorderYield rid (chunk t)]))
      by (eapply extends_trans; eauto).
    assert (F2 : Forall (loopEvent s rid sid)
                        (evs0 ++ [EvRecorderYield rid (chunk t)])).
    { apply Forall_app. split; [exact F0|]. repeat constructor. }
    destruct (chunk t) as [|b c] eqn:Hc; [eexists; split; [exact X2 | auto]|].
    destruct (frombuffer_int16 (b :: c)) as [samples|] eqn:Hb;
      [|eexists; split; [exact X2 | auto]].
    match goal with
    | |- context [decodeLoop m s rid sid rest ?c0 ?r0 ?x] =>
        destruct (IH c0 r0 x Hrec1) as (evs & X & F & Hf);
        assert (X3 : extends st2 x
                  [EvFeedAudioContent sid samples;
                   EvIntermediateDecode sid
                     (intermediateDecode m (feedAudioContent m ctx samples));
                   EvPartialTextCaptured s
                     (intermediateDecode m (feedAudioContent m ctx samples)) 1 0])
          by (unfold extends; cbn; rewrite <- !app_assoc; auto)
    end.
    eexists. split; [|split].
    + eapply extends_trans; [eapply extends_trans; [exact X2 | exact X3]|exact X].
    + apply Forall_app. split; [|exact F].
      apply Forall_app. split; [exact F2|].
      repeat constructor. cbn. eauto.
    + intros H. apply Hf. cbn. auto.
Qed.

Lemma loopEvent_no_finish s rid sid evs :
  Forall (loopEvent s rid sid) evs ->
  finishes evs = [] /\ ~ elem_of EvEnd evs.
Proof.
  induction 1 as [|e l He _ (IH1 & IH2)].
  - split; [reflexivity|]. apply not_elem_of_nil.
  - split.
    + destruct e; cbn in He; try contradiction; exact IH1.
    + intros Hin. apply elem_of_cons in Hin. destruct Hin as [<-|Hin]; auto.
Qed.

(** ** When a session raises *)

(** X3: Whenever [decodeStream] raises, the last thing it did was to release
    the recorder it had entered: [finishStream()] and [end()] were not
    called, and the trigger flag was not cleared. *)
Theorem decodeStream_raised elapsed s ticks late st e st' :
  decodeStream elapsed s ticks late st = (Raised e, st') ->
  exists evs,
    log st' = log st ++ evs /\
    finishes evs = [] /\
    ~ elem_of EvEnd evs /\
    last evs = Some (EvRecorderExit (length (recorders st))) /\
    recording (length (recorders st)) st' = false /\
    (_triggerFlag st = true -> _triggerFlag st' = true).
Proof.
  intros Hrun. destruct (_model st) as [m|] eqn:Hm.
  2:{ destruct (decodeStream_unloaded_run elapsed s ticks late st Hm)
        as (st'' & Hrun' & Hlog & _ & Hrec & _ & Hflag & _).
      rewrite Hrun in Hrun'. injection Hrun' as _ ->.
      eexists. split; [exact Hlog|]. split; [reflexivity|].
      split.
      { intros Hin. repeat (apply elem_of_cons in Hin;
                            destruct Hin as [Hin|Hin]; [discriminate|]).
        apply not_elem_of_nil in Hin. exact Hin. }
      split; [reflexivity|]. split; [exact Hrec|]. intros; congruence. }
  rewrite (decodeStream_loaded m) in Hrun by exact Hm. cbn zeta in Hrun.
  match type of Hrun with
  | context [decodeLoop m s ?rid ?sid ticks ?c0 ?r0 ?x] =>
      destruct (decodeLoop_events m s rid sid ticks c0 r0 x eq_refl)
        as (evs & (L & _ & _ & _) & F & Hf);
      destruct (decodeLoop m s rid sid ticks c0 r0 x) as [[[ctx res]|e0] st2]
  end; [discriminate|].
  injection Hrun as <- <-. cbn [snd] in L, Hf. cbn [log _triggerFlag] in L, Hf.
  destruct (loopEvent_no_finish _ _ _ _ F) as (Hfin & Hend).
  exists ([EvSuperDecodeStream s; EvRecorderEnter (length (recorders st));
           EvAddRecorder (deviceUid s) (length (recorders st));
           EvCreateStream (nextStream st)]
            ++ evs ++ [EvRecorderExit (length (recorders st))]).
  split; [cbn; rewrite L, <- !app_assoc; reflexivity|].
  split.
  { unfold finishes in *. rewrite !omap_app, Hfin. reflexivity. }
  split.
  { intros Hin. apply elem_of_app in Hin. destruct Hin as [Hin|Hin].
    - repeat (apply elem_of_cons in Hin;
              destruct Hin as [Hin|Hin]; [discriminate|]).
      apply not_elem_of_nil in Hin. exact Hin.
    - apply elem_of_app in Hin. destruct Hin as [Hin|Hin]; [auto|].
      apply list_elem_of_singleton in Hin. discriminate. }
  split; [rewrite !app_assoc; apply last_snoc|].
  split; [|exact Hf].
  unfold recording. cbn. rewrite list_lookup_alter_eq.
  destruct (recorders st2 !! length (recorders st)); reflexivity.
Qed.

Lemma decodeStream_raised_witness :
  let run := decodeStream (3 # 2) Fixtures.kitchen
               [mkTick [VadUp] Fixtures.tone; mkTick [] torn] []
               Fixtures.started in
  run = (Raised (ValueError "buffer size must be a multiple of element size"),
         snd run) /\
  _triggerFlag (snd run) = true /\
  exists evs,
    log (snd run) = log Fixtures.started ++ evs /\
    finishes evs = [] /\
    ~ elem_of EvEnd evs /\
    last evs = Some (EvRecorderExit (length (recorders Fixtures.started))) /\
    recording (length (recorders Fixtures.started)) (snd run) = false /\
    (_triggerFlag Fixtures.started = true -> _triggerFlag (snd run) = true).
Proof.
  intros run.
  assert (E : run = (Raised (ValueError
                       "buffer size must be a multiple of element size"),
                     snd run))
    by (vm_compute; reflexivity).
  split; [exact E|]. split; [vm_compute; reflexivity|].
  exact (decodeStream_raised _ _ _ _ _ _ _ E).
Defined.

(** ** The audio that reaches the engine *)

Lemma list_pair_ind {A} (P : list A -> Prop) :
  P [] -> (forall x, P [x]) -> (forall x y l, P l -> P (x :: y :: l)) ->
  forall l, P l.
Proof.
  intros H0 H1 H2 l.
  assert (H : P l /\ forall x, P (x :: l)); [|apply H].
  induction l as [|y l (IH & IH')]; split; auto.
Qed.

Lemma int16_of_bytes_range lo hi : int16 (int16_of_bytes lo hi).
Proof.
  unfold int16, int16_of_bytes.
  pose proof (Byte.to_N_bounded lo). pose proof (Byte.to_N_bounded hi).
  cbv zeta.
  destruct (Z.ltb_spec (Z.of_N (Byte.to_N lo) + 256 * Z.of_N (Byte.to_N hi)) 32768);
    lia.
Qed.

Lemma frombuffer_int16_spec buf :
  match frombuffer_int16 buf with
  | Some l => length buf = (2 * length l)%nat /\ Forall int16 l
  | None => Nat.odd (length buf) = true
  end.
Proof.
  induction buf as [|x|x y l IH] using list_pair_ind.
  - cbn. split; [reflexivity | constructor].
  - reflexivity.
  - cbn [frombuffer_int16]. destruct (frombuffer_int16 l) as [l'|].
    + destruct IH as (Hlen & Hall). split.
      * cbn [length]. rewrite Hlen. lia.
      * constructor; [apply int16_of_bytes_range | exact Hall].
    + exact IH.
Qed.

Lemma frombuffer_int16_odd buf :
  frombuffer_int16 buf = None <-> Nat.odd (length buf) = true.
Proof.
  pose proof (frombuffer_int16_spec buf) as H.
  destruct (frombuffer_int16 buf) as [l|].
  - destruct H as (Hlen & _). split; [discriminate|].
    rewrite Hlen, Nat.odd_mul. cbn. discriminate.
  - split; auto.
Qed.

Lemma loopEvent_fedSamples s rid sid evs :
  Forall (loopEvent s rid sid) evs ->
  Forall (Forall int16) (fedSamples evs).
Proof.
  induction 1 as [|e l He _ IH]; [constructor|].
  destruct e; cbn in He |- *; try contradiction; try exact IH.
  constructor; [|exact IH].
  destruct He as (_ & c & Hc).
  pose proof (frombuffer_int16_spec c) as H. rewrite Hc in H. apply H.
Qed.

Lemma LoopTrace_fedSamples m s rid sid ctx res evs ctx' res' :
  LoopTrace m s rid sid ctx res evs ctx' res' ->
  map frombuffer_int16 (pulled evs) = map Some (fedSamples evs).
Proof.
  induction 1 as [| | |ctx res b c samples evs ctx' res' Hb HT IH]; auto.
  change (frombuffer_int16 (b :: c) :: map frombuffer_int16 (pulled evs)
          = Some samples :: map Some (fedSamples evs)).
  rewrite Hb, IH. reflexivity.
Qed.

Lemma decodeStream_raised_log elapsed s ticks late st e st' :
  decodeStream elapsed s ticks late st = (Raised e, st') ->
  exists pro loopEvs,
    log st' = log st ++ pro ++ loopEvs ++ [EvRecorderExit (length (recorders st))] /\
    Forall (loopEvent s (length (recorders st)) (nextStream st)) loopEvs /\
    fedSamples pro = [] /\ pulled pro = [] /\ partialCalls pro = [].
Proof.
  intros Hrun. destruct (_model st) as [m|] eqn:Hm.
  2:{ destruct (decodeStream_unloaded_run elapsed s ticks late st Hm)
        as (st'' & Hrun' & Hlog & _).
      rewrite Hrun in Hrun'. injection Hrun' as _ ->.
      exists [EvSuperDecodeStream s; EvRecorderEnter (length (recorders st));
              EvAddRecorder (deviceUid s) (length (recorders st))], [].
      split; [exact Hlog|]. split; [constructor|]. auto. }
  rewrite (decodeStream_loaded m) in Hrun by exact Hm. cbn zeta in Hrun.
  match type of Hrun with
  | context [decodeLoop m s ?rid ?sid ticks ?c0 ?r0 ?x] =>
      destruct (decodeLoop_events m s rid sid ticks c0 r0 x eq_refl)
        as (evs & (L & _ & _ & _) & F & _);
      destruct (decodeLoop m s rid sid ticks c0 r0 x) as [[[ctx res]|e0] st2]
  end; [discriminate|].
  injection Hrun as <- <-. cbn [snd] in L. cbn [log] in L.
  exists [EvSuperDecodeStream s; EvRecorderEnter (length (recorders st));
          EvAddRecorder (deviceUid s) (length (recorders st));
          EvCreateStream (nextStream st)], evs.
  split; [cbn; rewrite L, <- !app_assoc; reflexivity|]. auto.
Qed.

(** X5: Whatever the recorder delivers and however the session ends, every
    [feedAudioContent] call gets values of 16 bits; in a session that
    returns, the samples fed are those of the chunks pulled, the sentinel
    apart: each chunk whole, once, in the order pulled. *)
Theorem decodeStream_feeds_what_was_pulled elapsed s ticks late st :
  exists evs,
    log (snd (decodeStream elapsed s ticks late st)) = log st ++ evs /\
    Forall (Forall int16) (fedSamples evs) /\
    (forall r, fst (decodeStream elapsed s ticks late st) = Returned r ->
       map frombuffer_int16 (pulled evs) = map Some (fedSamples evs) /\
       Forall2 (fun c samples => length c = (2 * length samples)%nat)
               (pulled evs) (fedSamples evs)).
Proof.
  destruct (decodeStream elapsed s ticks late st) as [out st'] eqn:Hrun.
  cbn [fst snd].
  assert (Hpairs : forall cs ls,
            map frombuffer_int16 cs = map Some ls ->
            Forall2 (fun c samples => length c = (2 * length samples)%nat) cs ls
            /\ Forall (Forall int16) ls).
  { induction cs as [|c cs IH]; intros [|l ls] Heq; try discriminate.
    - split; constructor.
    - injection Heq as Hc Heq. destruct (IH ls Heq) as (IH1 & IH2).
      pose proof (frombuffer_int16_spec c) as H. rewrite Hc in H.
      destruct H as (Hlen & Hall). split; constructor; auto. }
  destruct out as [r|e].
  - destruct (decodeStream_returned _ _ _ _ _ _ _ Hrun)
      as (m & loopEvs & lateEvs & ctx & res & _ & HT & HF & Hlog & _).
    eexists. split; [exact Hlog|].
    assert (Hf : fedSamples (sessionLog s (length (recorders st)) (nextStream st)
                               loopEvs (finishStream m ctx) lateEvs)
                 = fedSamples loopEvs).
    { unfold fedSamples. erewrite sessionLog_omap; [|reflexivity|exact HF].
      cbn. rewrite app_nil_r. reflexivity. }
    assert (Hp : pulled (sessionLog s (length (recorders st)) (nextStream st)
                               loopEvs (finishStream m ctx) lateEvs)
                 = pulled loopEvs).
    { unfold pulled. erewrite sessionLog_omap; [|reflexivity|exact HF].
      cbn. rewrite app_nil_r. reflexivity. }
    rewrite Hf, Hp.
    pose proof (LoopTrace_fedSamples _ _ _ _ _ _ _ _ _ HT) as Heq.
    destruct (Hpairs _ _ Heq) as (H1 & H2).
    split; [exact H2|]. intros r0 _. split; [exact Heq | exact H1].
  - destruct (decodeStream_raised_log _ _ _ _ _ _ _ Hrun)
      as (pro & loopEvs & Hlog & F & Hpro & _).
    eexists. split; [exact Hlog|]. split; [|intros r0 Hr0; discriminate].
    unfold fedSamples in *. rewrite !omap_app, Hpro. cbn. rewrite app_nil_r.
    apply (loopEvent_fedSamples _ _ _ _ F).
Qed.

Lemma decodeStream_feeds_what_was_pulled_witness :
  let run := decodeStream (3 # 2) Fixtures.kitchen Fixtures.silenceToneTone []
                          Fixtures.started in
  fst run = Returned (Some (mkASRResult "hello" Fixtures.kitchen 1 (3 # 2))) /\
  exists evs,
    log (snd run) = log Fixtures.started ++ evs /\
    Forall (Forall int16) (fedSamples evs) /\
    map frombuffer_int16 (pulled evs) = map Some (fedSamples evs) /\
    Forall2 (fun c samples => length c = (2 * length samples)%nat)
            (pulled evs) (fedSamples evs).
Proof.
  intros run.
  assert (E : fst run
              = Returned (Some (mkASRResult "hello" Fixtures.kitchen 1 (3 # 2))))
    by (vm_compute; reflexivity).
  split; [exact E|].
  destruct (decodeStream_feeds_what_was_pulled
              (3 # 2) Fixtures.kitchen Fixtures.silenceToneTone []
              Fixtures.started) as (evs & Hlog & Hint & Hret).
  exists evs. split; [exact Hlog|]. split; [exact Hint|].
  exact (Hret _ E).
Defined.

(** ** Where the loop stops *)

Lemma decodeLoop_sentinel m s rid sid pre t post :
  chunk t = [] ->
  forall ctx res st,
    decodeLoop m s rid sid (pre ++ t :: post) ctx res st
    = decodeLoop m s rid sid (pre ++ [t]) ctx res st.
Proof.
  intros Ht. induction pre as [|a pre IH]; intros ctx res st; cbn [app].
  - rewrite !decodeLoop_cons. cbn zeta. rewrite Ht.
    destruct (negb (recording rid (deliver (during t) st))); reflexivity.
  - rewrite !decodeLoop_cons. cbn zeta.
    destruct (negb (recording rid (deliver (during a) st))); [reflexivity|].
    destruct (chunk a) as [|b c]; [reflexivity|].
    destruct (frombuffer_int16 (b :: c)); [|reflexivity].
    apply IH.
Qed.

Lemma decodeStream_unloaded_any elapsed s ticks late ticks' late' st :
  _model st = None ->
  decodeStream elapsed s ticks late st = decodeStream elapsed s ticks' late' st.
Proof.
  intros Hm.
  destruct st as [mo flag rc tmo rs ns lg]. cbn in Hm. subst mo.
  reflexivity.
Qed.

(** X6: The empty chunk ends the session there: what the source would have
    delivered after it, chunks and signals, has no effect at all. *)
Theorem decodeStream_stops_at_sentinel elapsed s pre t post late st :
  chunk t = [] ->
  decodeStream elapsed s (pre ++ t :: post) late st
  = decodeStream elapsed s (pre ++ [t]) late st.
Proof.
  intros Ht. destruct (_model st) as [m|] eqn:Hm.
  - rewrite !(decodeStream_loaded m) by exact Hm. cbn zeta.
    rewrite (decodeLoop_sentinel m s _ _ pre t post Ht). reflexivity.
  - apply decodeStream_unloaded_any, Hm.
Qed.

Lemma decodeStream_stops_at_sentinel_witness :
  chunk (mkTick [] []) = [] /\
  decodeStream (3 # 2) Fixtures.kitchen
    ([mkTick [] Fixtures.tone] ++ mkTick [] [] :: Fixtures.silenceToneTone)
    [] Fixtures.started
  = decodeStream (3 # 2) Fixtures.kitchen
      ([mkTick [] Fixtures.tone] ++ [mkTick [] []]) [] Fixtures.started.
Proof.
  split; [reflexivity|].
  apply (decodeStream_stops_at_sentinel (3 # 2) Fixtures.kitchen
           [mkTick [] Fixtures.tone] (mkTick [] []) Fixtures.silenceToneTone
           [] Fixtures.started).
  reflexivity.
Defined.

(** ** A voice-down that was not armed *)

Lemma decodeLoop_onlyVadDown m s rid sid ticks :
  Forall (fun t => onlyVadDown (during t)) ticks ->
  forall ctx res st,
    _triggerFlag st = false ->
    decodeLoop m s rid sid ticks ctx res st
    = decodeLoop m s rid sid (withoutSignals ticks) ctx res st /\
    _triggerFlag (snd (decodeLoop m s rid sid ticks ctx res st)) = false.
Proof.
  induction 1 as [|t rest Ht _ IH]; intros ctx res st Hf.
  - split; [reflexivity | exact Hf].
  - cbn [withoutSignals map]. rewrite !decodeLoop_cons. cbn zeta.
    cbn [during chunk deliver].
    rewrite (deliver_inert (during t) st Hf Ht).
    destruct (negb (recording rid st)); [auto|].
    destruct (chunk t) as [|b c]; [auto|].
    destruct (frombuffer_int16 (b :: c)); [|auto].
    apply IH. exact Hf.
Qed.

(** X7: With the flag clear when the session starts and no voice-up during
    it, the voice-downs that arrive are without any effect: the session
    runs, returns and logs as if none had arrived. *)
Theorem decodeStream_ignores_unarmed_voice_down elapsed s ticks late st :
  _triggerFlag st = false ->
  Forall (fun t => onlyVadDown (during t)) ticks ->
  onlyVadDown late ->
  decodeStream elapsed s ticks late st
  = decodeStream elapsed s (withoutSignals ticks) [] st.
Proof.
  intros Hf Hticks Hlate. destruct (_model st) as [m|] eqn:Hm.
  2:{ apply decodeStream_unloaded_any, Hm. }
  rewrite !(decodeStream_loaded m) by exact Hm. cbn zeta.
  match goal with
  | |- context [decodeLoop m s ?rid ?sid ticks ?c0 ?r0 ?x] =>
      destruct (decodeLoop_onlyVadDown m s rid sid ticks Hticks c0 r0 x Hf)
        as (<- & Hf2);
      destruct (decodeLoop m s rid sid ticks c0 r0 x) as [[[ctx res]|e] st2]
  end; [|reflexivity].
  cbn [snd] in Hf2. cbn [deliver].
  match goal with
  | |- context [deliver late ?x] =>
      rewrite (deliver_inert late x Hf2 Hlate)
  end.
  reflexivity.
Qed.

Lemma decodeStream_ignores_unarmed_voice_down_witness :
  _triggerFlag Fixtures.started = false /\
  Forall (fun t => onlyVadDown (during t))
         [mkTick [VadDown] Fixtures.tone; mkTick [VadDown; VadDown] Fixtures.tone] /\
  onlyVadDown [VadDown] /\
  decodeStream (3 # 2) Fixtures.kitchen
    [mkTick [VadDown] Fixtures.tone; mkTick [VadDown; VadDown] Fixtures.tone]
    [VadDown] Fixtures.started
  = decodeStream (3 # 2) Fixtures.kitchen
      (withoutSignals
         [mkTick [VadDown] Fixtures.tone; mkTick [VadDown; VadDown] Fixtures.tone])
      [] Fixtures.started.
Proof.
  assert (H1 : Forall (fun t => onlyVadDown (during t))
                 [mkTick [VadDown] Fixtures.tone;
                  mkTick [VadDown; VadDown] Fixtures.tone])
    by (repeat constructor).
  assert (H2 : onlyVadDown [VadDown]) by (repeat constructor).
  split; [reflexivity|]. split; [exact H1|]. split; [exact H2|].
  exact (decodeStream_ignores_unarmed_voice_down
           (3 # 2) Fixtures.kitchen _ _ Fixtures.started eq_refl H1 H2).
Defined.

(** ** Audio before a stop request or a torn chunk *)

Lemma deliver_app a b st : deliver (a ++ b) st = deliver b (deliver a st).
Proof.
  revert st. induction a as [|sg a IH]; intros st; cbn [app deliver];
    [reflexivity | apply IH].
Qed.

Lemma recording_signal_false rid sg st :
  recording rid st = false -> recording rid (snd (signal sg st)) = false.
Proof.
  intros H. destruct sg; cbn; [exact H|].
  unfold onVadDown, bind, get. destruct (_triggerFlag st); cbn; [|exact H].
  destruct (_recorder st) as [r|]; cbn; [|exact H].
  unfold recording in *. cbn.
  destruct (decide (r = rid)) as [->|Hne].
  - rewrite list_lookup_alter_eq. destruct (recorders st !! rid); cbn; auto.
  - rewrite list_lookup_alter_ne by exact Hne. exact H.
Qed.

Lemma recording_deliver_false rid sgs :
  forall st, recording rid st = false -> recording rid (deliver sgs st) = false.
Proof.
  induction sgs as [|sg rest IH]; intros st H; cbn [deliver]; [exact H|].
  apply IH, recording_signal_false, H.
Qed.

Lemma deliver_armed_stop rid a b st :
  _recorder st = Some rid ->
  _triggerFlag st = true \/ In VadUp a ->
  recording rid (deliver (a ++ VadDown :: b) st) = false.
Proof.
  intros Hr Harm. rewrite deliver_app. cbn [deliver].
  apply recording_deliver_false.
  assert (Hf : _triggerFlag (deliver a st) = true).
  { rewrite (deliver_flag a st).
    destruct Harm as [->|Hin]; [reflexivity|].
    apply orb_true_iff. right. apply existsb_exists.
    exists VadUp. split; [exact Hin | reflexivity]. }
  assert (Hr' : _recorder (deliver a st) = Some rid).
  { destruct (deliver_extends a st) as (? & (_ & _ & R & _) & _). congruence. }
  rewrite (signal_VadDown_armed _ rid Hf Hr').
  unfold recording. cbn. rewrite list_lookup_alter_eq.
  destruct (recorders (deliver a st) !! rid); reflexivity.
Qed.

Lemma fed_loop m s rid sid cs rest :
  Forall goodChunk cs ->
  forall ctx res st,
    recording rid st = true ->
    decodeLoop m s rid sid (map (mkTick []) cs ++ rest) ctx res st
    = decodeLoop m s rid sid rest
        (fst (fst (fed m s rid sid cs ctx res)))
        (snd (fst (fed m s rid sid cs ctx res)))
        (set_log (log st ++ snd (fed m s rid sid cs ctx res)) st).
Proof.
  induction 1 as [|c cs (Hne & samples & Hc) _ IH]; intros ctx res st Hrec.
  - cbn [map app fed fst snd]. rewrite app_nil_r.
    destruct st; reflexivity.
  - cbn [map app]. rewrite decodeLoop_cons. cbn zeta.
    cbn [during chunk deliver]. rewrite Hrec. cbn [negb].
    destruct c as [|b c]; [contradiction|].
    cbn [fed]. rewrite Hc.
    rewrite IH by exact Hrec.
    destruct (fed m s rid sid cs (feedAudioContent m ctx samples)
                (Some (intermediateDecode m (feedAudioContent m ctx samples))))
      as [[ctx2 res2] evs].
    cbn [fst snd]. f_equal.
    unfold set_log, emit, modify. cbn. f_equal.
    rewrite <- !app_assoc. reflexivity.
Qed.

Lemma fed_events m s rid sid cs :
  Forall goodChunk cs ->
  forall ctx res,
    pulled (snd (fed m s rid sid cs ctx res)) = cs /\
    length (partialCalls (snd (fed m s rid sid cs ctx res))) = length cs /\
    finishes (snd (fed m s rid sid cs ctx res)) = [] /\
    stopRequests (snd (fed m s rid sid cs ctx res)) = [].
Proof.
  induction 1 as [|c cs (Hne & samples & Hc) _ IH]; intros ctx res.
  - cbn. auto.
  - cbn [fed]. rewrite Hc.
    destruct (IH (feedAudioContent m ctx samples)
                 (Some (intermediateDecode m (feedAudioContent m ctx samples))))
      as (H1 & H2 & H3 & H4).
    destruct (fed m s rid sid cs (feedAudioContent m ctx samples)
                (Some (intermediateDecode m (feedAudioContent m ctx samples))))
      as [[ctx2 res2] evs].
    cbn [snd] in *. destruct c as [|b c]; [contradiction|].
    unfold pulled, partialCalls, finishes, stopRequests in *. cbn.
    rewrite H1, H2, H3, H4. auto.
Qed.

Lemma fed_hypotheses m s rid sid cs :
  forall ctx res,
    intermediateTexts (snd (fed m s rid sid cs ctx res)) = hypotheses m cs ctx /\
    partialCalls (snd (fed m s rid sid cs ctx res))
    = map (fun t => (s, t, 1%Q, 0%Q)) (hypotheses m cs ctx).
Proof.
  induction cs as [|c cs IH]; intros ctx res; cbn [fed hypotheses];
    [split; reflexivity|].
  destruct (frombuffer_int16 c) as [samples|]; [|split; reflexivity].
  destruct (IH (feedAudioContent m ctx samples)
               (Some (intermediateDecode m (feedAudioContent m ctx samples))))
    as (H1 & H2).
  destruct (fed m s rid sid cs (feedAudioContent m ctx samples)
              (Some (intermediateDecode m (feedAudioContent m ctx samples))))
    as [[ctx2 res2] evs].
  cbn [snd] in *. unfold intermediateTexts, partialCalls in *. cbn.
  rewrite H1, H2. split; reflexivity.
Qed.

Lemma fed_fedSamples m s rid sid cs :
  Forall goodChunk cs ->
  forall ctx res,
    length (fedSamples (snd (fed m s rid sid cs ctx res))) = length cs.
Proof.
  induction 1 as [|c cs (Hne & samples & Hc) _ IH]; intros ctx res;
    [reflexivity|].
  cbn [fed]. rewrite Hc.
  specialize (IH (feedAudioContent m ctx samples)
                 (Some (intermediateDecode m (feedAudioContent m ctx samples)))).
  destruct (fed m s rid sid cs (feedAudioContent m ctx samples)
              (Some (intermediateDecode m (feedAudioContent m ctx samples))))
    as [[ctx2 res2] evs].
  cbn [snd] in *. unfold fedSamples in *. cbn. rewrite IH. reflexivity.
Qed.

Lemma stops_omap {A} (f : Event -> option A) bound evs :
  (forall r, f (EvStopRecording r) = None) ->
  Forall (stopOf bound) evs -> omap f evs = [].
Proof.
  intros Hf. induction 1 as [|e l (r & _ & ->) _ IH]; cbn; [reflexivity|].
  rewrite Hf. exact IH.
Qed.

Ltac recording_entered :=
  unfold recording; cbn; rewrite lookup_app_r by lia;
  rewrite Nat.sub_diag; reflexivity.

(** X8: With the flag set, by an earlier voice-up or by one in the same wait,
    a voice-down ends the capture at that chunk boundary: after the
    chunks [cs] taken before it, neither the chunk that was ready nor
    anything after it is pulled, and the result is assembled from [cs]
    alone. *)
Theorem decodeStream_voice_gated_stop
    m elapsed s cs a b c post late st :
  _model st = Some m ->
  Forall goodChunk cs ->
  _triggerFlag st = true \/ In VadUp a ->
  let rid := length (recorders st) in
  let sid := nextStream st in
  let heard := fed m s rid sid cs (createStream m) None in
  exists st' evs,
    decodeStream elapsed s
      (map (mkTick []) cs ++ mkTick (a ++ VadDown :: b) c :: post) late st
    = (Returned (if truthy_text (snd (fst heard))
                 then Some (mkASRResult (finishStream m (fst (fst heard)))
                                        s 1 elapsed)
                 else None), st') /\
    log st' = log st ++ evs /\
    pulled evs = cs /\
    length (partialCalls evs) = length cs /\
    recording rid st' = false.
Proof.
  intros Hm Hcs Harm rid sid heard.
  rewrite (decodeStream_loaded m) by exact Hm. cbn zeta.
  fold rid sid.
  rewrite (fed_loop m s rid sid cs _ Hcs) by (subst rid; recording_entered).
  fold heard. rewrite decodeLoop_cons. cbn zeta. cbn [during chunk].
  match goal with
  | |- context [deliver (a ++ VadDown :: b) ?x] =>
      set (st1 := x);
      assert (Hstop : recording rid (deliver (a ++ VadDown :: b) st1) = false)
        by (apply deliver_armed_stop; [reflexivity | exact Harm]);
      destruct (deliver_extends (a ++ VadDown :: b) st1)
        as (stops1 & (L1 & _ & R1 & _) & F1)
  end.
  rewrite Hstop. cbn [negb].
  set (st2 := deliver (a ++ VadDown :: b) st1) in *.
  match goal with
  | |- context [deliver late ?x] =>
      destruct (deliver_extends late x) as (stops2 & (L2 & _ & _ & _) & F2);
      pose proof (recording_deliver_false rid late x) as Hrec2;
      set (st3 := deliver late x) in *
  end.
  cbn in L1, L2, F1, F2.
  destruct (fed_events m s rid sid cs Hcs (createStream m) None)
    as (Hp & Hc & _ & _).
  fold heard in Hp, Hc.
  eexists. eexists. split; [reflexivity|].
  split; [cbn; rewrite L2, L1, <- !app_assoc; reflexivity|].
  split; [|split].
  - unfold pulled in *. rewrite !omap_app, Hp.
    rewrite (stops_omap _ _ _ (fun _ => eq_refl) F1).
    rewrite (stops_omap _ _ _ (fun _ => eq_refl) F2).
    cbn. apply app_nil_r.
  - unfold partialCalls in *. rewrite !omap_app.
    rewrite (stops_omap _ _ _ (fun _ => eq_refl) F1).
    rewrite (stops_omap _ _ _ (fun _ => eq_refl) F2).
    cbn. rewrite app_nil_r. exact Hc.
  - cbn. apply Hrec2. unfold recording. cbn. rewrite list_lookup_alter_eq.
    destruct (recorders st2 !! rid); reflexivity.
Qed.

Lemma goodChunk_tone : Forall goodChunk [Fixtures.tone].
Proof.
  repeat constructor; [discriminate | eexists; reflexivity].
Qed.

Lemma decodeStream_voice_gated_stop_witness :
  _model Fixtures.started = Some Fixtures.toyModel /\
  Forall goodChunk [Fixtures.tone] /\
  (_triggerFlag Fixtures.started = true \/ In VadUp [VadUp]) /\
  exists st' evs,
    decodeStream (3 # 2) Fixtures.kitchen
      (map (mkTick []) [Fixtures.tone]
         ++ mkTick ([VadUp] ++ VadDown :: []) Fixtures.silence
         :: [mkTick [] Fixtures.silence]) [] Fixtures.started
    = (Returned (Some (mkASRResult "hello" Fixtures.kitchen 1 (3 # 2))), st') /\
    log st' = log Fixtures.started ++ evs /\
    pulled evs = [Fixtures.tone] /\
    length (partialCalls evs) = length [Fixtures.tone] /\
    recording (length (recorders Fixtures.started)) st' = false.
Proof.
  assert (Harm : _triggerFlag Fixtures.started = true \/ In VadUp [VadUp])
    by (right; left; reflexivity).
  split; [reflexivity|]. split; [exact goodChunk_tone|]. split; [exact Harm|].
  exact (decodeStream_voice_gated_stop
           Fixtures.toyModel (3 # 2) Fixtures.kitchen [Fixtures.tone]
           [VadUp] [] Fixtures.silence [mkTick [] Fixtures.silence] []
           Fixtures.started eq_refl goodChunk_tone Harm).
Defined.

(** X4: A chunk with an odd number of bytes aborts the session with a
    ValueError: the partial texts of the chunks before it were reported,
    each with the hypothesis the engine gave after that chunk; the torn
    chunk was pulled and not fed, nothing after it is pulled, the
    recorder is released and no result is assembled. *)
Theorem decodeStream_torn_chunk m elapsed s cs bad post late st :
  _model st = Some m ->
  Forall goodChunk cs ->
  Nat.odd (length bad) = true ->
  exists st' evs,
    decodeStream elapsed s (map (mkTick []) cs ++ mkTick [] bad :: post) late st
    = (Raised (ValueError "buffer size must be a multiple of element size"),
       st') /\
    log st' = log st ++ evs /\
    pulled evs = cs ++ [bad] /\
    length (partialCalls evs) = length cs /\
    finishes evs = [] /\
    recording (length (recorders st)) st' = false /\
    length (fedSamples evs) = length cs /\
    partialCalls evs
      = map (fun t => (s, t, 1%Q, 0%Q)) (hypotheses m cs (createStream m)).
Proof.
  intros Hm Hcs Hodd.
  assert (Hbad : frombuffer_int16 bad = None)
    by (apply frombuffer_int16_odd, Hodd).
  destruct bad as [|b0 bad]; [discriminate Hodd|].
  rewrite (decodeStream_loaded m) by exact Hm. cbn zeta.
  rewrite (fed_loop m s _ _ cs _ Hcs) by recording_entered.
  rewrite decodeLoop_cons. cbn zeta. cbn [during chunk deliver].
  match goal with
  | |- context [negb (recording ?r ?x)] =>
      assert (Hrec : recording r x = true) by recording_entered;
      rewrite Hrec
  end.
  cbn [negb]. rewrite Hbad.
  destruct (fed_events m s (length (recorders st)) (nextStream st) cs Hcs
              (createStream m) None) as (Hp & Hc & Hf & _).
  pose proof (fed_fedSamples m s (length (recorders st)) (nextStream st) cs Hcs
                (createStream m) None) as Hfed.
  destruct (fed_hypotheses m s (length (recorders st)) (nextStream st) cs
              (createStream m) None) as (_ & Hh).
  eexists. eexists. split; [reflexivity|].
  split; [cbn; rewrite <- !app_assoc; reflexivity|].
  split; [|split; [|split; [|split; [|split]]]].
  - unfold pulled in *. rewrite !omap_app, Hp. reflexivity.
  - unfold partialCalls in *. rewrite !omap_app. cbn.
    rewrite app_nil_r. exact Hc.
  - unfold finishes in *. rewrite !omap_app, Hf. reflexivity.
  - unfold recording. cbn. rewrite list_lookup_alter_eq.
    rewrite lookup_app_r by lia. rewrite Nat.sub_diag. reflexivity.
  - unfold fedSamples in *. rewrite !omap_app. cbn.
    rewrite app_nil_r. exact Hfed.
  - unfold partialCalls in *. rewrite !omap_app. cbn.
    rewrite app_nil_r. exact Hh.
Qed.

Lemma decodeStream_torn_chunk_witness :
  _model Fixtures.started = Some Fixtures.toyModel /\
  Forall goodChunk [Fixtures.tone] /\
  Nat.odd (length torn) = true /\
  exists st' evs,
    decodeStream (3 # 2) Fixtures.kitchen
      (map (mkTick []) [Fixtures.tone] ++ mkTick [] torn
         :: [mkTick [] Fixtures.tone]) [VadUp] Fixtures.started
    = (Raised (ValueError "buffer size must be a multiple of element size"),
       st') /\
    log st' = log Fixtures.started ++ evs /\
    pulled evs = [Fixtures.tone] ++ [torn] /\
    length (partialCalls evs) = length [Fixtures.tone] /\
    finishes evs = [] /\
    recording (length (recorders Fixtures.started)) st' = false /\
    length (fedSamples evs) = length [Fixtures.tone] /\
    partialCalls evs = [(Fixtures.kitchen, "hello", 1%Q, 0%Q)].
Proof.
  split; [reflexivity|]. split; [exact goodChunk_tone|].
  split; [reflexivity|].
  exact (decodeStream_torn_chunk
           Fixtures.toyModel (3 # 2) Fixtures.kitchen [Fixtures.tone] torn
           [mkTick [] Fixtures.tone] [VadUp] Fixtures.started
           eq_refl goodChunk_tone eq_refl).
Defined.

(** ** The chunks taken and the partial texts *)

Lemma deliver_unarmed sgs : forall st,
  armed (_triggerFlag st) sgs = false ->
  deliver sgs st = set_triggerFlag (_triggerFlag st || existsb isVadUp sgs) st.
Proof.
  induction sgs as [|sg rest IH]; intros st Ha; cbn [deliver existsb].
  - rewrite orb_false_r. destruct st; reflexivity.
  - destruct sg; cbn [armed isVadUp] in Ha.
    + change (snd (signal VadUp st)) with (set_triggerFlag true st).
      rewrite (IH (set_triggerFlag true st) Ha). cbn.
      rewrite orb_true_r. reflexivity.
    + apply orb_false_iff in Ha. destruct Ha as (Hf & Ha).
      assert (E : snd (signal VadDown st) = st)
        by (cbn; unfold onVadDown, bind, get; rewrite Hf; reflexivity).
      rewrite E. rewrite (IH st Ha). cbn [isVadUp orb]. reflexivity.
Qed.

Lemma deliver_armed rid sgs : forall st,
  _recorder st = Some rid ->
  armed (_triggerFlag st) sgs = true ->
  recording rid (deliver sgs st) = false.
Proof.
  induction sgs as [|sg rest IH]; intros st Hr Ha; cbn [deliver armed] in *;
    [discriminate|].
  destruct sg.
  - apply IH; [exact Hr | exact Ha].
  - destruct (_triggerFlag st) eqn:Hf.
    + apply recording_deliver_false.
      rewrite (signal_VadDown_armed st rid Hf Hr).
      unfold recording. cbn. rewrite list_lookup_alter_eq.
      destruct (recorders st !! rid); reflexivity.
    + assert (E : snd (signal VadDown st) = st)
        by (cbn; unfold onVadDown, bind, get; rewrite Hf; reflexivity).
      rewrite E. apply IH; [exact Hr|]. rewrite Hf. exact Ha.
Qed.

Lemma taken_good ticks :
  wellFormed ticks -> forall flag, Forall goodChunk (taken flag ticks).
Proof.
  induction 1 as [|t rest Ht _ IH]; intros flag; cbn [taken]; [constructor|].
  destruct (armed flag (during t)); [constructor|].
  destruct (chunk t) as [|b c]; constructor; [|apply IH].
  split; [discriminate | exact Ht].
Qed.

Lemma decodeLoop_taken m s rid sid ticks :
  wellFormed ticks ->
  forall ctx res st,
    _recorder st = Some rid ->
    recording rid st = true ->
    let heard := fed m s rid sid (taken (_triggerFlag st) ticks) ctx res in
    exists st' tail,
      decodeLoop m s rid sid ticks ctx res st = (Returned (fst heard), st') /\
      log st' = log st ++ snd heard ++ tail /\
      (Forall (stopOf (Some rid)) tail \/ tail = [EvRecorderYield rid []]).
Proof.
  induction 1 as [|t rest [samples Ht] _ IH]; intros ctx res st Hr Hrec.
  - cbn. exists st, []. rewrite app_nil_r. auto.
  - cbn zeta. rewrite decodeLoop_cons. cbn zeta. cbn [taken].
    destruct (armed (_triggerFlag st) (during t)) eqn:Ha.
    + rewrite (deliver_armed rid _ st Hr Ha). cbn [negb fed fst snd].
      destruct (deliver_extends (during t) st) as (stops & (L & _) & F).
      rewrite Hr in F. exists (deliver (during t) st), stops. auto.
    + rewrite (deliver_unarmed _ st Ha).
      set (flag := _triggerFlag st || existsb isVadUp (during t)).
      assert (Hrec1 : recording rid (set_triggerFlag flag st) = true) by exact Hrec.
      rewrite Hrec1. cbn [negb].
      destruct (chunk t) as [|b c] eqn:Hc.
      * cbn [fed fst snd]. eexists. exists [EvRecorderYield rid []].
        split; [reflexivity|]. cbn. auto.
      * rewrite Ht. cbn [fed]. rewrite Ht.
        match goal with
        | |- context [decodeLoop m s rid sid rest ?c1 ?r1 ?x] =>
            destruct (IH c1 r1 x Hr Hrec) as (st' & tail & Hrun & Hlog & Htail)
        end.
        cbn zeta in Hrun, Hlog.
        cbn [_triggerFlag emit modify snd set_log set_triggerFlag]
          in Hrun, Hlog.
        fold flag in Hrun, Hlog.
        destruct (fed m s rid sid (taken flag rest) _ _) as [[ctx2 res2] evs].
        cbn [fst snd] in *.
        exists st', tail. split; [exact Hrun|]. split; [|exact Htail].
        rewrite Hlog. cbn. rewrite <- !app_assoc. reflexivity.
Qed.

Lemma tail_omap {A} (f : Event -> option A) rid tail :
  (forall r, f (EvStopRecording r) = None) ->
  f (EvRecorderYield rid []) = None ->
  Forall (stopOf (Some rid)) tail \/ tail = [EvRecorderYield rid []] ->
  omap f tail = [].
Proof.
  intros Hs Hy [F| ->]; [exact (stops_omap f _ _ Hs F)|].
  cbn. rewrite Hy. reflexivity.
Qed.

(** C4: in a session that runs to its end, every chunk taken from the
    recorder, the sentinel not counted, gives exactly one call of
    [partialTextCaptured], with likelihood 1 and seconds 0 and with the
    text the intermediate decode returned after that chunk was fed.  The
    chunks taken are those the source delivers before the sentinel and
    before a stop is requested, in their order, so the calls are as many
    and in that order, whatever the engine answers; with no such chunk
    there is no call and no result. *)
Theorem decodeStream_one_partial_per_chunk m elapsed s ticks late st :
  _model st = Some m ->
  wellFormed ticks ->
  let cs := taken (_triggerFlag st) ticks in
  let texts := hypotheses m cs (createStream m) in
  exists r st' evs,
    decodeStream elapsed s ticks late st = (Returned r, st') /\
    log st' = log st ++ evs /\
    pulled evs = cs /\
    intermediateTexts evs = texts /\
    partialCalls evs = map (fun t => (s, t, 1%Q, 0%Q)) texts /\
    length (partialCalls evs) = length cs /\
    partialCalls evs = map (fun t => (s, t, 1%Q, 0%Q)) (intermediateTexts evs) /\
    length (partialCalls evs) = length (pulled evs) /\
    (exists loopEvs lateEvs ctx res,
        evs = sessionLog s (length (recorders st)) (nextStream st)
                         loopEvs (finishStream m ctx) lateEvs /\
        LoopTrace m s (length (recorders st)) (nextStream st)
                  (createStream m) None loopEvs ctx res) /\
    (pulled evs = [] -> partialCalls evs = [] /\ r = None).
Proof.
  intros Hm Hw cs texts.
  rewrite (decodeStream_loaded m) by exact Hm. cbn zeta.
  set (rid := length (recorders st)). set (sid := nextStream st).
  match goal with
  | |- context [decodeLoop m s rid sid ticks ?c0 ?r0 ?x] =>
      set (st1 := x);
      destruct (decodeLoop_taken m s rid sid ticks Hw c0 r0 st1 eq_refl)
        as (st2 & tail & Hloop & Hlog2 & Htail);
        [subst rid; recording_entered|]
  end.
  cbn zeta in Hloop, Hlog2. cbn [_triggerFlag log st1] in Hloop, Hlog2.
  fold cs in Hloop, Hlog2.
  destruct (fed_hypotheses m s rid sid cs (createStream m) None) as (Hi & Hp).
  destruct (fed_events m s rid sid cs (taken_good ticks Hw _) (createStream m) None)
    as (Hy & Hn & _ & _).
  fold texts in Hi, Hp.
  destruct (fed m s rid sid cs (createStream m) None) as [[ctx res] fevs].
  cbn [fst snd] in *.
  rewrite Hloop.
  destruct (decodeLoop_trace m s rid sid ticks _ _ st1 ctx res st2 eq_refl Hloop)
    as (loopEvs & (L2 & M2 & R2 & N2) & HT).
  cbn [log st1 _recorder] in L2, R2.
  assert (Hloop_evs : loopEvs = fevs ++ tail).
  { rewrite Hlog2 in L2. apply app_inv_head in L2. auto. }
  match goal with
  | |- context [deliver late ?x] =>
      destruct (deliver_extends late x) as (lateEvs & (L4 & _ & _ & _) & F4);
      set (st4 := deliver late x) in *
  end.
  cbn in L4, F4. rewrite R2 in F4.
  set (evs := sessionLog s rid sid loopEvs (finishStream m ctx) lateEvs).
  assert (Hpulled : pulled evs = cs).
  { unfold pulled, evs in *. erewrite sessionLog_omap; [|reflexivity|exact F4].
    rewrite Hloop_evs, omap_app, Hy.
    rewrite (tail_omap _ rid tail (fun _ => eq_refl) eq_refl Htail).
    cbn. rewrite !app_nil_r. reflexivity. }
  assert (Htexts : intermediateTexts evs = texts).
  { unfold intermediateTexts, evs in *.
    erewrite sessionLog_omap; [|reflexivity|exact F4].
    rewrite Hloop_evs, omap_app, Hi.
    rewrite (tail_omap _ rid tail (fun _ => eq_refl) eq_refl Htail).
    cbn. rewrite !app_nil_r. reflexivity. }
  assert (Hcalls : partialCalls evs = map (fun t => (s, t, 1%Q, 0%Q)) texts).
  { unfold partialCalls, evs in *.
    erewrite sessionLog_omap; [|reflexivity|exact F4].
    rewrite Hloop_evs, omap_app, Hp.
    rewrite (tail_omap _ rid tail (fun _ => eq_refl) eq_refl Htail).
    cbn. rewrite !app_nil_r. reflexivity. }
  assert (Hlen : length (partialCalls evs) = length cs).
  { unfold partialCalls, evs in *.
    erewrite sessionLog_omap; [|reflexivity|exact F4].
    rewrite Hloop_evs, omap_app.
    rewrite (tail_omap _ rid tail (fun _ => eq_refl) eq_refl Htail).
    cbn. rewrite !app_nil_r. exact Hn. }
  eexists. eexists. exists evs.
  split; [reflexivity|].
  split.
  { cbn. rewrite L4. cbn. rewrite L2. unfold evs, sessionLog.
    rewrite <- !app_assoc. reflexivity. }
  split; [exact Hpulled|]. split; [exact Htexts|]. split; [exact Hcalls|].
  split; [exact Hlen|].
  split; [rewrite Htexts; exact Hcalls|].
  split; [rewrite Hpulled; exact Hlen|].
  split; [exists loopEvs, lateEvs, ctx, res; auto|].
  intros Hnone. rewrite Hpulled in Hnone.
  split.
  - rewrite Hcalls. unfold texts. rewrite Hnone. reflexivity.
  - apply LoopTrace_result in HT. rewrite Hloop_evs in HT.
    unfold intermediateTexts in HT. rewrite omap_app in HT.
    fold (intermediateTexts fevs) in HT. rewrite Hi in HT.
    rewrite (tail_omap _ rid tail (fun _ => eq_refl) eq_refl Htail) in HT.
    unfold texts in HT. rewrite Hnone in HT. cbn in HT. subst res. reflexivity.
Qed.

Lemma decodeStream_one_partial_per_chunk_witness :
  _model Fixtures.started = Some Fixtures.toyModel /\
  wellFormed Fixtures.interrupted /\
  exists r st' evs,
    decodeStream (3 # 2) Fixtures.kitchen Fixtures.interrupted []
                 Fixtures.started = (Returned r, st') /\
    log st' = log Fixtures.started ++ evs /\
    pulled evs = [Fixtures.silence; Fixtures.tone; Fixtures.tone] /\
    intermediateTexts evs = [""; "hello"; "hello"] /\
    partialCalls evs
      = [(Fixtures.kitchen, "", 1%Q, 0%Q);
         (Fixtures.kitchen, "hello", 1%Q, 0%Q);
         (Fixtures.kitchen, "hello", 1%Q, 0%Q)] /\
    length (partialCalls evs) = 3%nat /\
    partialCalls evs
      = map (fun t => (Fixtures.kitchen, t, 1%Q, 0%Q)) (intermediateTexts evs) /\
    length (partialCalls evs) = length (pulled evs) /\
    (exists loopEvs lateEvs ctx res,
        evs = sessionLog Fixtures.kitchen
                         (length (recorders Fixtures.started))
                         (nextStream Fixtures.started)
                         loopEvs (finishStream Fixtures.toyModel ctx) lateEvs /\
        LoopTrace Fixtures.toyModel Fixtures.kitchen
                  (length (recorders Fixtures.started))
                  (nextStream Fixtures.started)
                  (createStream Fixtures.toyModel) None loopEvs ctx res) /\
    (pulled evs = [] -> partialCalls evs = [] /\ r = None).
Proof.
  assert (Hw : wellFormed Fixtures.interrupted)
    by (repeat (constructor; [eexists; reflexivity|]); constructor).
  split; [reflexivity|]. split; [exact Hw|].
  exact (decodeStream_one_partial_per_chunk
           Fixtures.toyModel (3 # 2) Fixtures.kitchen Fixtures.interrupted []
           Fixtures.started eq_refl Hw).
Defined.

(** ** The flag when the method returns *)

Lemma decodeStreamToReturn_quiet elapsed s ticks late st :
  decodeStreamToReturn elapsed s ticks late [] [] st
  = decodeStream elapsed s ticks late st.
Proof.
  cbv [decodeStreamToReturn decodeStream bind modify emit ret get deliver].
  match goal with
  | |- context [Recorder_enter ?a ?b ?c] =>
      destruct (Recorder_enter a b c) as [[rid|e] st1]; [|reflexivity]
  end.
  match goal with
  | |- context [finally ?a ?b ?c] =>
      destruct (finally a b c) as [[[m rc]|e] st2]; reflexivity
  end.
Qed.

Lemma decodeStreamToReturn_run elapsed s ticks late closing returning st :
  match decodeStream elapsed s ticks late st with
  | (Returned r, st0) =>
      exists mid,
        _triggerFlag mid = false /\
        _recorder mid = _recorder st0 /\
        st0 = snd (emit EvEnd mid) /\
        decodeStreamToReturn elapsed s ticks late closing returning st
        = (Returned r,
           deliver returning (snd (emit EvEnd (deliver closing mid))))
  | (Raised e, st0) =>
      decodeStreamToReturn elapsed s ticks late closing returning st
      = (Raised e, st0)
  end.
Proof.
  cbv [decodeStreamToReturn decodeStream bind modify emit ret get].
  match goal with
  | |- context [Recorder_enter ?a ?b ?c] =>
      destruct (Recorder_enter a b c) as [[rid|e] st1]; [|reflexivity]
  end.
  match goal with
  | |- context [finally ?a ?b ?c] =>
      destruct (finally a b c) as [[[m rc]|e] st2]; [|reflexivity]
  end.
  cbn [fst snd]. eexists. split; [|split; [|split; reflexivity]]; reflexivity.
Qed.

(** C10, as the code has it: the flag is cleared after [finishStream()],
    whatever signals arrived until then, but the method has not returned
    yet.  When it returns, the flag is set exactly when a voice-up arrived
    after the clearing: with none, the flag is clear and an [onVadDown]
    that comes next changes nothing and requests no stop; with one, the
    flag is set and the next [onVadDown] asks the recorder of the
    finished session to stop.  The result is the one of [decodeStream]. *)
Theorem decodeStream_flag_at_return
    elapsed s ticks late closing returning st r st' :
  decodeStreamToReturn elapsed s ticks late closing returning st
    = (Returned r, st') ->
  fst (decodeStream elapsed s ticks late st) = Returned r /\
  _triggerFlag st' = existsb isVadUp (closing ++ returning) /\
  (existsb isVadUp (closing ++ returning) = false ->
   onVadDown st' = (Returned tt, st') /\
   stopRequests (log (snd (onVadDown st'))) = stopRequests (log st')) /\
  (existsb isVadUp (closing ++ returning) = true ->
   stopRequests (log (snd (onVadDown st')))
     = stopRequests (log st') ++ [length (recorders st)]).
Proof.
  intros Hrun.
  pose proof (decodeStreamToReturn_run elapsed s ticks late closing returning st)
    as H.
  destruct (decodeStream elapsed s ticks late st) as [[r0|e] st0] eqn:Hd;
    [|congruence].
  destruct H as (mid & Hmid & Hrec & Hst0 & H). rewrite H in Hrun.
  injection Hrun as <- <-.
  split; [reflexivity|].
  assert (Hflag : _triggerFlag
            (deliver returning (snd (emit EvEnd (deliver closing mid))))
          = existsb isVadUp (closing ++ returning)).
  { rewrite deliver_flag. cbn [emit modify snd set_log _triggerFlag].
    rewrite deliver_flag, Hmid, existsb_app. reflexivity. }
  split; [exact Hflag|].
  set (st' := deliver returning _) in *.
  split.
  - intros Hq. rewrite Hq in Hflag.
    assert (Hdown : onVadDown st' = (Returned tt, st'))
      by (unfold onVadDown, bind, get; rewrite Hflag; reflexivity).
    rewrite Hdown. auto.
  - intros Hq. rewrite Hq in Hflag.
    destruct (decodeStream_returned _ _ _ _ _ _ _ Hd)
      as (_ & _ & _ & _ & _ & _ & _ & _ & _ & _ & _ & Hr0 & _).
    assert (Hr' : _recorder st' = Some (length (recorders st))).
    { unfold st'.
      destruct (deliver_extends returning (snd (emit EvEnd (deliver closing mid))))
        as (? & (_ & _ & R1 & _) & _).
      destruct (deliver_extends closing mid) as (? & (_ & _ & R2 & _) & _).
      rewrite R1. cbn. rewrite R2, Hrec, Hst0 in *. exact Hr0. }
    change (onVadDown st') with (signal VadDown st').
    rewrite (signal_VadDown_armed st' _ Hflag Hr'). cbn.
    unfold stopRequests. rewrite omap_app. reflexivity.
Qed.

Lemma decodeStream_flag_at_return_witness :
  let ticks := [mkTick [VadUp] Fixtures.tone;
                mkTick [VadUp; VadUp] Fixtures.tone] in
  let run := decodeStreamToReturn (3 # 2) Fixtures.kitchen ticks
               [VadUp] [VadDown] [VadDown] Fixtures.started in
  let res := Some (mkASRResult "hello" Fixtures.kitchen 1 (3 # 2)) in
  run = (Returned res, snd run) /\
  fst (decodeStream (3 # 2) Fixtures.kitchen ticks [VadUp] Fixtures.started)
    = Returned res /\
  _triggerFlag (snd run) = existsb isVadUp ([VadDown] ++ [VadDown]) /\
  (existsb isVadUp ([VadDown] ++ [VadDown]) = false ->
   onVadDown (snd run) = (Returned tt, snd run) /\
   stopRequests (log (snd (onVadDown (snd run))))
     = stopRequests (log (snd run))) /\
  (existsb isVadUp ([VadDown] ++ [VadDown]) = true ->
   stopRequests (log (snd (onVadDown (snd run))))
     = stopRequests (log (snd run)) ++ [length (recorders Fixtures.started)]).
Proof.
  intros ticks run res.
  assert (E : run = (Returned res, snd run)) by (vm_compute; reflexivity).
  split; [exact E|].
  exact (decodeStream_flag_at_return _ _ _ _ _ _ _ _ _ E).
Defined.

(** C10, as the specification states it, fails: a voice-up that arrives
    after the flag was cleared and before [decodeStream] returns leaves
    the flag set after a session that completed normally. *)
Lemma flagClearOnReturn_fails :
  ~ Claimed.flagClearOnReturn (3 # 2) Fixtures.kitchen Fixtures.toneThenSilence
      [] [] [VadUp] Fixtures.started.
Proof.
  intros H.
  edestruct H as [Hflag _]; [vm_compute; reflexivity|].
  vm_compute in Hflag. discriminate Hflag.
Qed.

(** After that session the next voice-down does ask for a stop, of a
    recorder that was released already. *)
Example late_voice_up_arms_next_voice_down :
  let st' := snd (decodeStreamToReturn (3 # 2) Fixtures.kitchen
                    Fixtures.toneThenSilence [] [] [VadUp] Fixtures.started) in
  _triggerFlag st' = true /\
  log (snd (onVadDown st')) = log st' ++ [EvStopRecording 0].
Proof. vm_compute. split; reflexivity. Qed.
End CaptureFacts.

(** * Properties of [_checkResponses] *)

Section ResponsesFacts.
Import CoquiAsr Responses.

Lemma checkLoop_cons s r rest st :
  checkLoop s (r :: rest) st
  = match leading r with
    | Some (alt, true) => (Returned (Some (transcript alt, confidence alt)), st)
    | Some (alt, false) =>
        checkLoop s rest
          (snd (emit (EvPartialTextCaptured s (transcript alt)
                                            (confidence alt) 0) st))
    | None => checkLoop s rest st
    end.
Proof.
  unfold leading. cbn [checkLoop].
  destruct (results r) as [|result ?]; [reflexivity|].
  destruct (alternatives result) as [|alt ?]; [reflexivity|].
  destruct (is_final result); reflexivity.
Qed.

(** X9: [_checkResponses] never raises and changes nothing but the log.  It
    returns the transcript and the confidence of the first response that
    leads with a final result, and reports as partial texts, in order and
    with their own confidence, the responses before that one that lead
    with a result that is not final; responses with no result, or whose
    first result has no alternative, are passed over.  Without such a
    final response, and for [None], it returns [None]. *)
Theorem checkResponses_first_final s rs st :
  _checkResponses s (Some rs) st
    = (Returned (match firstFinal rs with
                 | Some r => answerOf r
                 | None => None
                 end),
       set_log (log st ++ omap (partialOf s) (beforeFinal rs)) st) /\
  (fst (_checkResponses s (Some rs) st) = Returned None
   <-> Forall (fun r => isFinal r = false) rs) /\
  (forall r, firstFinal rs = Some r ->
     exists post alt,
       rs = beforeFinal rs ++ r :: post /\
       leading r = Some (alt, true) /\
       fst (_checkResponses s (Some rs) st)
         = Returned (Some (transcript alt, confidence alt))) /\
  _checkResponses s None st = (Returned None, st).
Proof.
  assert (Hrun : forall rs st,
    checkLoop s rs st
    = (Returned (match firstFinal rs with
                 | Some r => answerOf r
                 | None => None
                 end),
       set_log (log st ++ omap (partialOf s) (beforeFinal rs)) st)).
  { clear. induction rs as [|r rest IH]; intros st.
    - cbn. rewrite app_nil_r. destruct st; reflexivity.
    - rewrite checkLoop_cons. cbn [firstFinal beforeFinal].
      destruct (leading r) as [[alt [|]]|] eqn:El.
      + assert (Hf : isFinal r = true) by (unfold isFinal; rewrite El; reflexivity).
        assert (Ha : answerOf r = Some (transcript alt, confidence alt))
          by (unfold answerOf; rewrite El; reflexivity).
        rewrite Hf, Ha. cbn. rewrite app_nil_r. destruct st; reflexivity.
      + assert (Hf : isFinal r = false) by (unfold isFinal; rewrite El; reflexivity).
        assert (Hp : partialOf s r
                     = Some (EvPartialTextCaptured s (transcript alt)
                                                   (confidence alt) 0))
          by (unfold partialOf; rewrite El; reflexivity).
        rewrite Hf, IH. cbn [omap list_omap]. rewrite Hp.
        f_equal. unfold set_log, emit, modify. cbn.
        rewrite <- app_assoc. reflexivity.
      + assert (Hf : isFinal r = false) by (unfold isFinal; rewrite El; reflexivity).
        assert (Hp : partialOf s r = None)
          by (unfold partialOf; rewrite El; reflexivity).
        rewrite Hf, IH. cbn [omap list_omap]. rewrite Hp. reflexivity. }
  assert (Hsplit : forall rs r, firstFinal rs = Some r ->
            isFinal r = true /\ exists post, rs = beforeFinal rs ++ r :: post).
  { clear. induction rs as [|r0 rest IH]; intros r; cbn; [discriminate|].
    destruct (isFinal r0) eqn:E.
    - intros [= <-]. split; [exact E|]. exists rest. reflexivity.
    - intros H. destruct (IH r H) as (Hf & post & Hpost).
      split; [exact Hf|]. exists post. cbn. f_equal. exact Hpost. }
  assert (Hfinal : forall r, isFinal r = true ->
            exists alt, leading r = Some (alt, true) /\
                        answerOf r = Some (transcript alt, confidence alt)).
  { clear. intros r. unfold isFinal, answerOf.
    destruct (leading r) as [[alt [|]]|]; try discriminate. eauto. }
  cbn [_checkResponses]. rewrite Hrun. cbn [fst].
  split; [reflexivity|]. split; [|split; [|reflexivity]].
  - split.
    + intros Hnone. induction rs as [|r rest IH]; [constructor|].
      cbn [firstFinal] in Hnone. destruct (isFinal r) eqn:E.
      * destruct (Hfinal r E) as (alt & _ & Ha). rewrite Ha in Hnone.
        discriminate.
      * constructor; [exact E | apply IH, Hnone].
    + induction 1 as [|r rest Hr _ IH]; [reflexivity|].
      cbn [firstFinal]. rewrite Hr. exact IH.
  - intros r Hr. destruct (Hsplit rs r Hr) as (Hf & post & Hpost).
    destruct (Hfinal r Hf) as (alt & Hl & Ha).
    exists post, alt. rewrite Hr, Ha. auto.
Qed.

Lemma checkResponses_first_final_witness :
  firstFinal heard = Some (final "hello" (9 # 10)) /\
  _checkResponses Fixtures.kitchen (Some heard) Fixtures.started
    = (Returned (Some ("hello", 9 # 10)),
       set_log [EvPartialTextCaptured Fixtures.kitchen "hel" (1 # 2) 0]
               Fixtures.started) /\
  exists post alt,
    heard = beforeFinal heard ++ final "hello" (9 # 10) :: post /\
    leading (final "hello" (9 # 10)) = Some (alt, true) /\
    fst (_checkResponses Fixtures.kitchen (Some heard) Fixtures.started)
      = Returned (Some (transcript alt, confidence alt)).
Proof.
  split; [reflexivity|]. split; [reflexivity|].
  exact (proj1 (proj2 (proj2 (checkResponses_first_final
                                Fixtures.kitchen heard Fixtures.started)))
               (final "hello" (9 # 10)) eq_refl).
Defined.

(** X10: [_checkResponses] reads of each response only the first alternative
    of the first result and whether that result is final, and it reads no
    response after the first one that leads with a final result. *)
Theorem checkResponses_reads_leading_only s st :
  (forall rs rs',
      Forall2 (fun r r' => leading r = leading r') rs rs' ->
      _checkResponses s (Some rs) st = _checkResponses s (Some rs') st) /\
  (forall pre r post,
      isFinal r = true ->
      _checkResponses s (Some (pre ++ r :: post)) st
      = _checkResponses s (Some (pre ++ [r])) st).
Proof.
  split.
  - intros rs rs' H. cbn [_checkResponses]. revert st.
    induction H as [|r r' rs rs' Hr _ IH]; intros st; [reflexivity|].
    rewrite !checkLoop_cons, <- Hr.
    destruct (leading r) as [[alt [|]]|]; auto.
  - intros pre r post Hr. cbn [_checkResponses]. revert st.
    induction pre as [|r0 pre IH]; intros st; cbn [app].
    + rewrite !checkLoop_cons. unfold isFinal in Hr.
      destruct (leading r) as [[alt [|]]|]; try discriminate. reflexivity.
    + rewrite !checkLoop_cons.
      destruct (leading r0) as [[alt [|]]|]; auto.
Qed.

Lemma checkResponses_reads_leading_only_witness :
  (Forall2 (fun r r' => leading r = leading r')
           [final "hello" (9 # 10)]
           [mkResponse [mkResult [mkAlternative "hello" (9 # 10)] true]] /\
   _checkResponses Fixtures.kitchen (Some [final "hello" (9 # 10)])
                   Fixtures.started
   = _checkResponses Fixtures.kitchen
       (Some [mkResponse [mkResult [mkAlternative "hello" (9 # 10)] true]])
       Fixtures.started) /\
  (isFinal (final "hello" (9 # 10)) = true /\
   _checkResponses Fixtures.kitchen
     (Some ([interim "hel" (1 # 2)] ++ final "hello" (9 # 10)
              :: [interim "later" (1 # 3)])) Fixtures.started
   = _checkResponses Fixtures.kitchen
       (Some ([interim "hel" (1 # 2)] ++ [final "hello" (9 # 10)]))
       Fixtures.started).
Proof.
  assert (H : Forall2 (fun r r' => leading r = leading r')
                [final "hello" (9 # 10)]
                [mkResponse [mkResult [mkAlternative "hello" (9 # 10)] true]])
    by (repeat constructor).
  split.
  - split; [exact H|].
    exact (proj1 (checkResponses_reads_leading_only
                    Fixtures.kitchen Fixtures.started) _ _ H).
  - split; [reflexivity|].
    exact (proj2 (checkResponses_reads_leading_only
                    Fixtures.kitchen Fixtures.started)
                 [interim "hel" (1 # 2)] (final "hello" (9 # 10))
                 [interim "later" (1 # 3)] eq_refl).
Defined.

End ResponsesFacts.

(** * Properties of the start-up of the embedded engine *)

Section StartupFacts.
Import Startup.

Lemma fetch_run h model lm st :
  fetch h model lm st
  = (Returned true,
     mkState (asr st) (_langPath st)
             (fetched h lm (scorer st) (fetched h model (tFlite st) (files st)))
             (log st ++ [EvDownloadFile model (tFlite st);
                         EvDownloadFile lm (scorer st)])).
Proof.
  unfold fetch, downloadFile, fetched, bind, get, emit, modify, ret.
  cbn. destruct (reachable h model); cbn; destruct (reachable h lm); cbn;
    rewrite <- app_assoc; reflexivity.
Qed.

(** The two ways [downloadLanguage] can go. *)
Lemma downloadLanguage_cases h :
  (In (activeLanguage h) supported /\
   exists model lm, forall st,
     downloadLanguage h st
     = (Returned true,
        mkState (asr st) (_langPath st)
                (fetched h lm (scorer st) (fetched h model (tFlite st) (files st)))
                (log st ++ [downloading h;
                            EvDownloadFile model (tFlite st);
                            EvDownloadFile lm (scorer st)]))) \/
  (~ In (activeLanguage h) supported /\
   exists msg, forall st,
     downloadLanguage h st
     = (Returned false,
        mkState (asr st) (_langPath st) (files st)
                (log st ++ [downloading h; EvLogError msg]))).
Proof.
  assert (Hfetch : forall model lm st,
    fetch h model lm
      (mkState (asr st) (_langPath st) (files st) (log st ++ [downloading h]))
    = (Returned true,
       mkState (asr st) (_langPath st)
               (fetched h lm (scorer st) (fetched h model (tFlite st) (files st)))
               (log st ++ [downloading h; EvDownloadFile model (tFlite st);
                           EvDownloadFile lm (scorer st)]))).
  { intros model lm st. rewrite fetch_run. cbn. rewrite <- app_assoc.
    reflexivity. }
  assert (Hrun : forall st (k : M State bool),
    (emit (downloading h) ;;; k)%py st
    = k (mkState (asr st) (_langPath st) (files st) (log st ++ [downloading h])))
    by reflexivity.
  unfold downloadLanguage. fold (downloading h). unfold supported.
  destruct (String.eqb_spec (activeLanguage h) "de") as [E|N1];
    [left; split; [rewrite E; cbn; auto
                  | eexists; eexists; intros st; rewrite Hrun; apply Hfetch]|].
  destruct (String.eqb_spec (activeLanguage h) "en") as [E|N2];
    [left; split; [rewrite E; cbn; auto
                  | eexists; eexists; intros st; rewrite Hrun; apply Hfetch]|].
  destruct (String.eqb_spec (activeLanguage h) "fr") as [E|N3];
    [left; split; [rewrite E; cbn; auto
                  | eexists; eexists; intros st; rewrite Hrun; apply Hfetch]|].
  destruct (String.eqb_spec (activeLanguage h) "it") as [E|N4];
    [left; split; [rewrite E; cbn; auto
                  | eexists; eexists; intros st; rewrite Hrun; apply Hfetch]|].
  destruct (String.eqb_spec (activeLanguage h) "pl") as [E|N5];
    [left; split; [rewrite E; cbn; auto 6
                  | eexists; eexists; intros st; rewrite Hrun; apply Hfetch]|].
  destruct (String.eqb_spec (activeLanguage h) "pt") as [E|N6];
    [left; split; [rewrite E; cbn; auto 7
                  | eexists; eexists; intros st; rewrite Hrun; apply Hfetch]|].
  right. split.
  - cbn. intros [H|[H|[H|[H|[H|[H|[]]]]]]]; congruence.
  - eexists. intros st. rewrite Hrun.
    unfold bind, emit, modify, ret. cbn. rewrite <- app_assoc.
    reflexivity.
Qed.

(** X12: [downloadLanguage] returns [True] exactly for de, en, fr, it, pl and
    pt, whether or not anything could be fetched.  It then asks for two
    downloads, the model into [tFlite] and the scorer into [lm.scorer] of
    the language directory, and logs no error; for any other language it
    asks for none, logs one error and leaves the files alone. *)
Theorem downloadLanguage_supported h st :
  exists b st' evs,
    downloadLanguage h st = (Returned b, st') /\
    log st' = log st ++ evs /\
    asr st' = asr st /\
    _langPath st' = _langPath st /\
    (b = true <-> In (activeLanguage h) supported) /\
    (b = true ->
       exists model lm,
         downloads evs = [(model, tFlite st); (lm, scorer st)] /\
         errors evs = [] /\
         files st'
           = fetched h lm (scorer st) (fetched h model (tFlite st) (files st))) /\
    (b = false ->
       downloads evs = [] /\ length (errors evs) = 1%nat /\
       files st' = files st).
Proof.
  destruct (downloadLanguage_cases h)
    as [(Hin & model & lm & Hdl)|(Hout & msg & Hdl)]; rewrite Hdl.
  - eexists. eexists. eexists. split; [reflexivity|]. cbn.
    split; [reflexivity|]. split; [reflexivity|]. split; [reflexivity|].
    split; [tauto|]. split; [|discriminate].
    intros _. exists model, lm. auto.
  - eexists. eexists. eexists. split; [reflexivity|]. cbn.
    split; [reflexivity|]. split; [reflexivity|]. split; [reflexivity|].
    split; [split; [discriminate | contradiction]|].
    split; [discriminate | auto].
Qed.

Lemma downloadLanguage_supported_witness :
  (In (activeLanguage (offline "fr")) supported /\
   exists st',
     downloadLanguage (offline "fr") (fresh "fr") = (Returned true, st') /\
     downloads (log st')
     = [("https://github.com/coqui-ai/STT-models/releases/download/french/commonvoice-fr/v0.6/model.tflite",
         tFlite (fresh "fr"));
        ("https://github.com/coqui-ai/STT-models/releases/download/french/commonvoice-fr/v0.6/fr-cvfr-2-prune-kenlm.scorer",
         scorer (fresh "fr"))] /\
     files st' = files (fresh "fr")) /\
  (~ In (activeLanguage (online "es")) supported /\
   exists st',
     downloadLanguage (online "es") (fresh "es") = (Returned false, st') /\
     downloads (log st') = [] /\
     files st' = files (fresh "es")).
Proof.
  split.
  - destruct (downloadLanguage_supported (offline "fr") (fresh "fr"))
      as (b & st' & evs & Hrun & Hlog & _ & _ & Hb & _).
    assert (Hin : In (activeLanguage (offline "fr")) supported)
      by (cbn; auto).
    split; [exact Hin|].
    eexists. split; [reflexivity|]. split; reflexivity.
  - destruct (downloadLanguage_supported (online "es") (fresh "es"))
      as (b & st' & evs & Hrun & Hlog & _ & _ & Hb & _).
    assert (Hout : ~ In (activeLanguage (online "es")) supported)
      by (intros Hin; apply Hb in Hin; subst b; vm_compute in Hrun;
          discriminate).
    split; [exact Hout|].
    eexists. split; [reflexivity|]. split; reflexivity.
Defined.

Lemma append_ne (a b : string) : b <> "" -> a +:+ b <> a.
Proof.
  intros Hb. induction a as [|c a IH]; [exact Hb|].
  change (String c (a +:+ b) <> String c a). congruence.
Qed.

Lemma tFlite_not_langPath st : tFlite st <> _langPath st.
Proof. apply append_ne. discriminate. Qed.

(** ** Paths *)

Lemma length_append (a b : string) :
  String.length (a +:+ b) = (String.length a + String.length b)%nat.
Proof.
  induction a as [|c a IH]; [reflexivity|].
  change (S (String.length (a +:+ b)) = S (String.length a + String.length b)).
  rewrite IH. reflexivity.
Qed.

Lemma concat_length l : String.length (String.concat "/" l) = joined l.
Proof.
  induction l as [|x [|y l] IH]; [reflexivity..|].
  change (String.length (x +:+ "/" +:+ String.concat "/" (y :: l))
          = (String.length x + 1 + joined (y :: l))%nat).
  rewrite !length_append, IH. cbn [String.length]. lia.
Qed.

Lemma segments_joined p : forall cur,
  joined (segments cur p) = (String.length cur + String.length p)%nat.
Proof.
  induction p as [|c p IH]; intros cur; cbn [segments].
  - cbn. lia.
  - destruct (isSep c).
    + specialize (IH ""). destruct (segments "" p) as [|y l] eqn:E.
      * destruct p as [|c' p']; cbn [segments] in E; [discriminate|].
        destruct (isSep c'); [discriminate|].
        exfalso. clear -E. revert E. generalize ("" +:+ String c' "").
        induction p' as [|c2 p2 IHp]; intros cur; cbn [segments];
          [discriminate|].
        destruct (isSep c2); [discriminate | apply IHp].
      * cbn [joined] in *. cbn [String.length] in *. lia.
    + rewrite IH, length_append. cbn [String.length]. lia.
Qed.

Lemma joined_sublist l1 l2 : sublist l1 l2 -> (joined l1 <= joined l2)%nat.
Proof.
  induction 1 as [|x l1 l2 Hs IH|x l1 l2 Hs IH]; [lia| |].
  - destruct l1 as [|y1 l1], l2 as [|y2 l2]; cbn [joined] in *; try lia.
    apply sublist_nil_r in Hs. discriminate.
  - destruct l2 as [|y2 l2]; cbn [joined] in *; [|lia].
    destruct l1; cbn in *; lia.
Qed.

Lemma filter_sublist {A} (f : A -> bool) l : sublist (List.filter f l) l.
Proof.
  induction l as [|x l IH]; cbn; [constructor|].
  destruct (f x); constructor; exact IH.
Qed.

Lemma parts_joined p k : (joined (take k (parts p)) <= String.length p)%nat.
Proof.
  rewrite <- (Nat.add_0_l (String.length p)).
  change 0%nat with (String.length "").
  rewrite <- segments_joined. apply joined_sublist.
  etransitivity; [apply sublist_take | apply filter_sublist].
Qed.

Lemma parts_cons_sep c p : isSep c = true -> parts (String c p) = parts p.
Proof. intros Hc. unfold parts. cbn [segments]. rewrite Hc. reflexivity. Qed.

Lemma anchor_cases c p :
  (isSep c = false /\ anchor (String c p) = "") \/
  (isSep c = true /\ anchor (String c p) = "/") \/
  (isSep c = true /\ anchor (String c p) = "//" /\
   exists c2 p2, p = String c2 p2 /\ isSep c2 = true).
Proof.
  destruct (isSep c) eqn:Hc; [right|left; split; [reflexivity|]].
  - destruct p as [|c2 [|c3 p3]]; cbn [anchor]; rewrite Hc.
    + left. auto.
    + destruct (isSep c2) eqn:H2; [right|left; auto].
      split; [reflexivity|]. split; [reflexivity|]. eauto.
    + destruct (isSep c2) eqn:H2; cbn [andb]; [|left; auto].
      destruct (isSep c3); cbn [negb]; [left; auto|right].
      split; [reflexivity|]. split; [reflexivity|]. eauto.
  - destruct p as [|c2 [|c3 p3]]; cbn [anchor]; rewrite Hc; reflexivity.
Qed.

(** No directory above a path has a longer name than the path. *)
Lemma parents_length p q :
  In q (parents p) -> (String.length q <= String.length p)%nat.
Proof.
  unfold parents. rewrite in_map_iff. intros (k & <- & Hk).
  apply in_seq in Hk. destruct Hk as (_ & Hk). cbn in Hk.
  destruct p as [|c p]; [cbn in Hk; lia|].
  destruct (anchor_cases c p)
    as [(Hc & ->)|[(Hc & ->)|(Hc & -> & c2 & p2 & -> & Hc2)]].
  - unfold render. destruct (take k (parts (String c p))) eqn:E.
    + cbn. lia.
    + rewrite <- E. change ("" +:+ ?x) with x. rewrite concat_length.
      apply parts_joined.
  - unfold render. rewrite parts_cons_sep by exact Hc.
    rewrite length_append, concat_length.
    pose proof (parts_joined p k). cbn [String.length]. lia.
  - unfold render. rewrite parts_cons_sep by exact Hc.
    rewrite parts_cons_sep by exact Hc2.
    rewrite length_append, concat_length.
    pose proof (parts_joined p2 k). cbn [String.length]. lia.
Qed.

(** Creating a directory and those above it creates nothing in it. *)
Lemma mkdir_parents_spec p fs x :
  elem_of x (mkdir_parents p fs) <->
  elem_of x fs \/ x = p \/ In x (parents p).
Proof.
  unfold mkdir_parents. rewrite elem_of_union, elem_of_list_to_set.
  rewrite elem_of_cons, <- list_elem_of_In. reflexivity.
Qed.

Lemma mkdir_parents_below p fs name :
  elem_of (p +:+ String (Ascii.ascii_of_nat 47) name) (mkdir_parents p fs) <->
  elem_of (p +:+ String (Ascii.ascii_of_nat 47) name) fs.
Proof.
  rewrite mkdir_parents_spec. split; [|auto].
  intros [H|[H|H]]; [exact H | |].
  - exfalso. revert H. apply append_ne. discriminate.
  - exfalso. apply parents_length in H. rewrite length_append in H.
    cbn [String.length] in H. lia.
Qed.

Lemma mkdir_parents_tFlite st :
  elem_of (tFlite st) (mkdir_parents (_langPath st) (files st)) <->
  elem_of (tFlite st) (files st).
Proof. apply (mkdir_parents_below _ _ "output_graph.tflite"). Qed.

Lemma mkdir_parents_scorer st :
  elem_of (scorer st) (mkdir_parents (_langPath st) (files st)) <->
  elem_of (scorer st) (files st).
Proof. apply (mkdir_parents_below _ _ "lm.scorer"). Qed.

Lemma mkdir_parents_self p fs : elem_of p (mkdir_parents p fs).
Proof. apply mkdir_parents_spec. auto. Qed.

Lemma mkdir_parents_keeps p fs x :
  elem_of x fs -> elem_of x (mkdir_parents p fs).
Proof. intros H. apply mkdir_parents_spec. auto. Qed.

Lemma fetched_spec h url dest fs x :
  elem_of x (fetched h url dest fs) <->
  elem_of x fs \/ (reachable h url = true /\ x = dest).
Proof.
  unfold fetched. destruct (reachable h url).
  - rewrite elem_of_union, elem_of_singleton. tauto.
  - split; [auto | intros [H|(H & _)]; [exact H | discriminate]].
Qed.

Lemma fetched_keeps h url dest fs x :
  elem_of x fs -> elem_of x (fetched h url dest fs).
Proof. intros H. apply fetched_spec. auto. Qed.

(** ** [checkLanguage] *)

Lemma checkLanguage_present st :
  elem_of (_langPath st) (files st) ->
  checkLanguage st
  = (Returned (bool_decide (elem_of (tFlite st) (files st))), st).
Proof.
  intros Hd. unfold checkLanguage, bind, get, ret.
  rewrite (bool_decide_eq_true_2 _ Hd). reflexivity.
Qed.

Lemma checkLanguage_absent st :
  ~ elem_of (_langPath st) (files st) ->
  checkLanguage st
  = (Returned false,
     set_files (mkdir_parents (_langPath st) (files st)) st).
Proof.
  intros Hd. unfold checkLanguage, bind, get, ret, modify.
  rewrite (bool_decide_eq_false_2 _ Hd). reflexivity.
Qed.

(** X11: [checkLanguage] answers [True] exactly when the language directory
    and the model file in it both exist; it never looks for the scorer.
    It changes nothing when the directory exists; when it is missing it
    creates it together with the directories above it, and nothing else:
    no file in it, so that a second call in a row finds the directory and
    answers whether the model file was there. *)
Theorem checkLanguage_creates_directory st :
  exists b st',
    checkLanguage st = (Returned b, st') /\
    (b = true <-> elem_of (_langPath st) (files st) /\
                  elem_of (tFlite st) (files st)) /\
    files st'
      = (if bool_decide (elem_of (_langPath st) (files st))
         then files st
         else union (files st)
                    (list_to_set (_langPath st :: parents (_langPath st)))) /\
    elem_of (_langPath st) (files st') /\
    (elem_of (tFlite st) (files st') <-> elem_of (tFlite st) (files st)) /\
    (elem_of (scorer st) (files st') <-> elem_of (scorer st) (files st)) /\
    log st' = log st /\
    asr st' = asr st /\
    _langPath st' = _langPath st /\
    checkLanguage st'
      = (Returned (bool_decide (elem_of (tFlite st) (files st))), st').
Proof.
  destruct (decide (elem_of (_langPath st) (files st))) as [Hd|Hd].
  - rewrite (checkLanguage_present st Hd), (bool_decide_eq_true_2 _ Hd).
    eexists. eexists. split; [reflexivity|].
    split; [rewrite bool_decide_eq_true; tauto|].
    split; [reflexivity|]. split; [exact Hd|].
    split; [reflexivity|]. split; [reflexivity|].
    split; [reflexivity|]. split; [reflexivity|]. split; [reflexivity|].
    apply checkLanguage_present, Hd.
  - rewrite (checkLanguage_absent st Hd), (bool_decide_eq_false_2 _ Hd).
    eexists. eexists. split; [reflexivity|].
    split; [split; [discriminate | tauto]|].
    cbn [files set_files log asr _langPath].
    split; [reflexivity|].
    split; [apply mkdir_parents_self|].
    split; [apply mkdir_parents_tFlite|].
    split; [apply mkdir_parents_scorer|].
    split; [reflexivity|]. split; [reflexivity|]. split; [reflexivity|].
    rewrite checkLanguage_present by apply mkdir_parents_self.
    f_equal. f_equal. apply bool_decide_ext.
    apply (mkdir_parents_tFlite st).
Qed.

Lemma checkLanguage_creates_directory_witness :
  exists st',
    checkLanguage (fresh "en") = (Returned false, st') /\
    files st'
      = list_to_set
          ["/home/pi/ProjectAlice/trained/asr/coqui/en";
           "/"; "/home"; "/home/pi"; "/home/pi/ProjectAlice";
           "/home/pi/ProjectAlice/trained";
           "/home/pi/ProjectAlice/trained/asr";
           "/home/pi/ProjectAlice/trained/asr/coqui"] /\
    checkLanguage st' = (Returned false, st').
Proof.
  destruct (checkLanguage_creates_directory (fresh "en"))
    as (b & st' & Hrun & Hb & Hfiles & _ & _ & _ & _ & _ & _ & Hagain).
  exists st'. split; [|split].
  - rewrite Hrun. f_equal. f_equal.
    destruct b; [|reflexivity].
    destruct (proj1 Hb eq_refl) as (Hin & _).
    exfalso. revert Hin. apply not_elem_of_empty.
  - rewrite Hfiles. vm_compute. reflexivity.
  - rewrite Hagain. reflexivity.
Defined.

Lemma installDependencies_run h st :
  installDependencies h st
  = match checkLanguage
            (mkState (asr st) (_langPath st) (files st)
                     (log st ++ map EvRunSystemCommand wheelCommands)) with
    | (Returned present, st1) =>
        if negb present then downloadLanguage h st1 else (Returned true, st1)
    | (Raised e, st1) => (Raised e, st1)
    end.
Proof.
  unfold installDependencies. unfold bind at 1 2 3. cbn [emit modify].
  cbn [asr _langPath files log]. rewrite <- !app_assoc. cbn [app].
  unfold wheelCommands. cbn [map]. unfold bind.
  destruct (checkLanguage _) as [[[|]|e] st1]; reflexivity.
Qed.

(** X13: [installDependencies] runs the three commands for the wheel before
    anything else.  It answers [True] when the model file was already in
    its directory, and then fetches nothing and leaves the files alone;
    otherwise it answers what [downloadLanguage] answers, so [True]
    exactly for a supported language, after two downloads.  The language
    directory exists afterwards. *)
Theorem installDependencies_result h st :
  exists b st' evs,
    installDependencies h st = (Returned b, st') /\
    log st' = log st ++ map EvRunSystemCommand wheelCommands ++ evs /\
    commands evs = [] /\
    (b = true <-> (elem_of (_langPath st) (files st) /\
                   elem_of (tFlite st) (files st)) \/
                  In (activeLanguage h) supported) /\
    (elem_of (_langPath st) (files st) -> elem_of (tFlite st) (files st) ->
       evs = [] /\ files st' = files st) /\
    (~ (elem_of (_langPath st) (files st) /\ elem_of (tFlite st) (files st)) ->
       length (downloads evs) = (if b then 2 else 0)%nat) /\
    elem_of (_langPath st) (files st') /\
    asr st' = asr st /\
    _langPath st' = _langPath st.
Proof.
  rewrite installDependencies_run.
  set (st0 := mkState (asr st) (_langPath st) (files st) _).
  destruct (decide (elem_of (_langPath st) (files st))) as [Hd|Hd].
  - rewrite (checkLanguage_present st0) by exact Hd.
    cbn [tFlite _langPath files st0].
    fold (tFlite st).
    destruct (decide (elem_of (tFlite st) (files st))) as [Hf|Hf].
    + rewrite (bool_decide_eq_true_2 _ Hf). cbn [negb].
      exists true, st0, []. split; [reflexivity|].
      split; [unfold st0; cbn [log]; rewrite app_nil_r; reflexivity|].
      split; [reflexivity|]. split; [tauto|]. split; [auto|].
      split; [tauto|]. auto.
    + rewrite (bool_decide_eq_false_2 _ Hf). cbn [negb].
      destruct (downloadLanguage_cases h)
        as [(Hin & model & lm & Hdl)|(Hout & msg & Hdl)]; rewrite Hdl.
      * eexists. eexists. eexists. split; [reflexivity|].
        cbn [log asr _langPath files].
        split; [try unfold st1; unfold st0; cbn [log set_files];
               rewrite <- ?app_assoc; reflexivity|].
        split; [reflexivity|]. split; [tauto|]. split; [tauto|].
        split; [reflexivity|]. split; [|auto].
        unfold fetched.
        destruct (reachable h model), (reachable h lm); cbn; set_solver.
      * eexists. eexists. eexists. split; [reflexivity|].
        cbn [log asr _langPath files].
        split; [try unfold st1; unfold st0; cbn [log set_files];
               rewrite <- ?app_assoc; reflexivity|].
        split; [reflexivity|].
        split; [split; [discriminate | tauto]|]. split; [tauto|].
        split; [reflexivity|]. auto.
  - rewrite (checkLanguage_absent st0) by exact Hd. cbn [negb].
    match goal with
    | |- context [downloadLanguage h ?x] =>
        set (st1 := x);
        destruct (downloadLanguage_cases h)
          as [(Hin & model & lm & Hdl)|(Hout & msg & Hdl)]; rewrite Hdl
    end.
    + eexists. eexists. eexists. split; [reflexivity|].
        cbn [log asr _langPath files].
      split; [try unfold st1; unfold st0; cbn [log set_files];
               rewrite <- ?app_assoc; reflexivity|].
      split; [reflexivity|]. split; [tauto|]. split; [tauto|].
      split; [reflexivity|]. split; [|auto].
      apply fetched_keeps, fetched_keeps. apply mkdir_parents_self.
    + eexists. eexists. eexists. split; [reflexivity|].
        cbn [log asr _langPath files].
      split; [try unfold st1; unfold st0; cbn [log set_files];
               rewrite <- ?app_assoc; reflexivity|].
      split; [reflexivity|].
      split; [split; [discriminate | tauto]|]. split; [tauto|].
      split; [reflexivity|]. split; [apply mkdir_parents_self | auto].
Qed.

Lemma installDependencies_result_witness :
  (elem_of (_langPath (fresh "es")) (files (fresh "es")) /\
   elem_of (tFlite (fresh "es")) (files (fresh "es")) -> False) /\
  exists st',
    installDependencies (online "es") (fresh "es") = (Returned false, st') /\
    commands (log st') = wheelCommands /\
    length (downloads (log st')) = 0%nat /\
    elem_of (_langPath (fresh "es")) (files st').
Proof.
  destruct (installDependencies_result (online "es") (fresh "es"))
    as (b & st' & evs & Hrun & Hlog & Hcmd & Hb & _ & Hdl & Hdir & _).
  assert (Habsent : ~ (elem_of (_langPath (fresh "es")) (files (fresh "es")) /\
                       elem_of (tFlite (fresh "es")) (files (fresh "es"))))
    by (intros (H & _); revert H; apply not_elem_of_empty).
  split; [exact Habsent|].
  exists st'.
  assert (b = false) as ->.
  { destruct b; [|reflexivity]. exfalso.
    destruct (proj1 Hb eq_refl) as [H|H]; [exact (Habsent H)|].
    cbn in H. intuition discriminate. }
  split; [exact Hrun|]. split; [|split; [|exact Hdir]].
  - rewrite Hlog. unfold commands in *. rewrite !omap_app, Hcmd.
    reflexivity.
  - rewrite Hlog. unfold downloads in *. rewrite !omap_app, length_app.
    change (downloads evs) with (omap (fun e => match e with
                                   | EvDownloadFile u d => Some (u, d)
                                   | _ => None end) evs) in Hdl.
    rewrite length_app, (Hdl Habsent). reflexivity.
Defined.

(** ** [onStart] *)

Lemma loadModel_run h st :
  loadModel h st
  = match stt_Model h (tFlite st) with
    | Some m =>
        match enableExternalScorer h m (scorer st) with
        | Some m' =>
            (Returned tt,
             set_model m' (mkState (asr st) (_langPath st) (files st)
                                   (log st ++ loaded st)))
        | None =>
            (Raised (Exception "enableExternalScorer failed"),
             set_model m (mkState (asr st) (_langPath st) (files st)
                                  (log st ++ noScorer st)))
        end
    | None =>
        (Raised (Exception "stt.Model failed"),
         mkState (asr st) (_langPath st) (files st) (log st ++ notLoaded st))
    end.
Proof.
  unfold loadModel, bind, get, emit, modify, raise, loaded, notLoaded,
    noScorer, scorer, tFlite.
  cbn. destruct (stt_Model h _) as [m|]; cbn;
    [|rewrite <- !app_assoc; reflexivity].
  destruct (enableExternalScorer h m _); cbn; rewrite <- !app_assoc;
    reflexivity.
Qed.

(** What [loadModel] leaves behind, whichever way it goes: the files and
    the directory as they were, the log longer by one of the three
    sequences, and the model bound unless [stt.Model] raised. *)
Lemma loadModel_cases h st :
  exists out st' evs,
    loadModel h st = (out, st') /\
    log st' = log st ++ evs /\
    files st' = files st /\
    _langPath st' = _langPath st /\
    match stt_Model h (tFlite st) with
    | Some m =>
        match enableExternalScorer h m (scorer st) with
        | Some m' =>
            out = Returned tt /\ evs = loaded st /\
            asr st' = asr (set_model m' st)
        | None =>
            out = Raised (Exception "enableExternalScorer failed") /\
            evs = noScorer st /\
            asr st' = asr (set_model m st)
        end
    | None =>
        out = Raised (Exception "stt.Model failed") /\ evs = notLoaded st /\
        asr st' = asr st
    end.
Proof.
  rewrite loadModel_run. destruct (stt_Model h (tFlite st)) as [m|].
  - destruct (enableExternalScorer h m (scorer st)) as [m'|];
      eexists; eexists; eexists; (split; [reflexivity|]); cbn; auto 10.
  - eexists; eexists; eexists; (split; [reflexivity|]); cbn; auto 10.
Qed.

Lemma loadModel_log st evs :
  (evs = loaded st \/ evs = noScorer st \/ evs = notLoaded st) ->
  downloads evs = [] /\ errors evs = [] /\ loads evs = [tFlite st].
Proof. intros [->|[->| ->]]; repeat split. Qed.

Lemma loadModel_events h st :
  exists out st' evs,
    loadModel h st = (out, st') /\
    log st' = log st ++ evs /\
    files st' = files st /\
    (evs = loaded st \/ evs = noScorer st \/ evs = notLoaded st) /\
    (out = Returned tt <->
     exists m, stt_Model h (tFlite st) = Some m /\
               is_Some (enableExternalScorer h m (scorer st))).
Proof.
  destruct (loadModel_cases h st) as (out & st' & evs & Hrun & Hlog & Hf & _ & H).
  exists out, st', evs. do 3 (split; [assumption|]).
  destruct (stt_Model h (tFlite st)) as [m|].
  - destruct (enableExternalScorer h m (scorer st)) as [m'|] eqn:E;
      destruct H as (-> & -> & _).
    + split; [auto|]. split; [|reflexivity].
      intros _. exists m. rewrite E. eauto.
    + split; [auto|]. split; [discriminate|].
      intros (m0 & [= <-] & [m' Hm']). congruence.
  - destruct H as (-> & -> & _). split; [auto|]. split; [discriminate|].
    intros (m0 & Hm0 & _). discriminate.
Qed.

Lemma provision_run h st :
  provision h st
  = match installDependencies h
            (mkState (asr st) (_langPath st) (files st)
                     (log st ++ [EvSuperOnStart])) with
    | (Returned _, st1) =>
        match checkLanguage st1 with
        | (Returned present, st2) =>
            if negb present
            then match downloadLanguage h st2 with
                 | (Returned _, st3) => (Returned tt, st3)
                 | (Raised e, st3) => (Raised e, st3)
                 end
            else (Returned tt, st2)
        | (Raised e, st2) => (Raised e, st2)
        end
    | (Raised e, st1) => (Raised e, st1)
    end.
Proof.
  unfold provision. unfold bind at 1. cbn [emit modify].
  unfold bind at 1.
  destruct (installDependencies h _) as [[b|e] st1]; [|reflexivity].
  unfold bind at 1.
  destruct (checkLanguage st1) as [[[|]|e] st2]; try reflexivity.
Qed.

Lemma first_check st :
  ~ elem_of (tFlite st) (files st) ->
  exists st1,
    checkLanguage st = (Returned false, st1) /\
    asr st1 = asr st /\ _langPath st1 = _langPath st /\ log st1 = log st /\
    elem_of (_langPath st) (files st1) /\
    ~ elem_of (tFlite st) (files st1).
Proof.
  intros Hf. destruct (decide (elem_of (_langPath st) (files st))) as [Hd|Hd].
  - rewrite (checkLanguage_present st Hd), (bool_decide_eq_false_2 _ Hf).
    exists st. auto 10.
  - rewrite (checkLanguage_absent st Hd). eexists.
    do 4 (split; [reflexivity|]). cbn [files set_files].
    split; [apply mkdir_parents_self|]. rewrite mkdir_parents_tFlite. exact Hf.
Qed.

Lemma later_check st :
  elem_of (_langPath st) (files st) ->
  checkLanguage st
  = (Returned (bool_decide (elem_of (tFlite st) (files st))), st).
Proof. apply checkLanguage_present. Qed.

Lemma provision_present h st :
  elem_of (_langPath st) (files st) ->
  elem_of (tFlite st) (files st) ->
  provision h st
  = (Returned tt,
     mkState (asr st) (_langPath st) (files st) (log st ++ preamble)).
Proof.
  intros Hd Hf. rewrite provision_run, installDependencies_run.
  rewrite checkLanguage_present by exact Hd.
  unfold tFlite in *. cbn [_langPath files].
  rewrite (bool_decide_eq_true_2 _ Hf). cbn [negb].
  rewrite checkLanguage_present by exact Hd.
  unfold tFlite in *. cbn [_langPath files].
  rewrite (bool_decide_eq_true_2 _ Hf). cbn [negb].
  cbn [asr _langPath files log]. unfold preamble.
  rewrite <- app_assoc. reflexivity.
Qed.

(** After a round of [downloadLanguage] that did not bring the model
    file, the second [checkLanguage] of [onStart] fails as well. *)
Lemma second_check_fails st :
  elem_of (_langPath st) (files st) ->
  ~ elem_of (tFlite st) (files st) ->
  checkLanguage st = (Returned false, st).
Proof.
  intros Hd Hf. rewrite later_check by exact Hd.
  rewrite bool_decide_eq_false_2 by exact Hf. reflexivity.
Qed.

Lemma scorer_not_tFlite st : scorer st <> tFlite st.
Proof.
  unfold scorer, tFlite. intros H. apply (inj (String.app _)) in H.
  discriminate.
Qed.

Lemma provision_unsupported h st :
  ~ elem_of (tFlite st) (files st) ->
  ~ In (activeLanguage h) supported ->
  exists st1 msg,
    provision h st = (Returned tt, st1) /\
    log st1 = log st ++ preamble
                ++ [downloading h; EvLogError msg;
                    downloading h; EvLogError msg] /\
    asr st1 = asr st /\
    _langPath st1 = _langPath st /\
    elem_of (_langPath st) (files st1) /\
    ~ elem_of (tFlite st) (files st1).
Proof.
  intros Hf Hout. rewrite provision_run, installDependencies_run.
  destruct (downloadLanguage_cases h)
    as [(Hin & _)|(_ & msg & Hdl)]; [contradiction|].
  match goal with
  | |- context [checkLanguage ?x] =>
      destruct (first_check x Hf) as (st1 & -> & A1 & L1 & G1 & D1 & F1)
  end.
  cbn [negb]. rewrite Hdl.
  cbn [asr _langPath files log] in A1, L1, G1, D1, F1.
  change (tFlite (mkState ?a (_langPath st) ?f ?l)) with (tFlite st) in F1.
  rewrite second_check_fails;
    [|cbn [_langPath files]; rewrite L1; exact D1
     |unfold tFlite; cbn [_langPath files]; rewrite L1; exact F1].
  cbn [negb]. rewrite Hdl. cbn [asr _langPath files log].
  eexists. exists msg. split; [reflexivity|]. cbn [asr _langPath files log].
  rewrite G1, <- !app_assoc. auto 10.
Qed.

Lemma provision_supported h st :
  ~ elem_of (tFlite st) (files st) ->
  In (activeLanguage h) supported ->
  exists model lm st1,
    provision h st = (Returned tt, st1) /\
    asr st1 = asr st /\
    _langPath st1 = _langPath st /\
    ((reachable h model = true /\
      log st1 = log st ++ preamble
                  ++ [downloading h; EvDownloadFile model (tFlite st);
                      EvDownloadFile lm (scorer st)] /\
      elem_of (tFlite st) (files st1)) \/
     (reachable h model = false /\
      log st1 = log st ++ preamble
                  ++ [downloading h; EvDownloadFile model (tFlite st);
                      EvDownloadFile lm (scorer st);
                      downloading h; EvDownloadFile model (tFlite st);
                      EvDownloadFile lm (scorer st)] /\
      ~ elem_of (tFlite st) (files st1))) /\
    (reachable h lm = true -> elem_of (scorer st) (files st1)).
Proof.
  intros Hf Hin. rewrite provision_run, installDependencies_run.
  destruct (downloadLanguage_cases h)
    as [(_ & model & lm & Hdl)|(Hout & _)]; [|contradiction].
  match goal with
  | |- context [checkLanguage ?x] =>
      destruct (first_check x Hf) as (st1 & -> & A1 & L1 & G1 & D1 & F1)
  end.
  cbn [negb]. rewrite Hdl.
  cbn [asr _langPath files log] in A1, L1, G1, D1, F1.
  change (tFlite (mkState ?a (_langPath st) ?f ?l)) with (tFlite st) in F1.
  assert (Ht : tFlite st1 = tFlite st) by (unfold tFlite; rewrite L1; reflexivity).
  assert (Hs : scorer st1 = scorer st) by (unfold scorer; rewrite L1; reflexivity).
  pose proof (scorer_not_tFlite st) as Hne.
  rewrite Ht, Hs.
  exists model, lm.
  set (fs2 := fetched h lm (scorer st) (fetched h model (tFlite st) (files st1))).
  assert (Hd2 : elem_of (_langPath st) fs2)
    by (apply fetched_keeps, fetched_keeps, D1).
  assert (Hsc : reachable h lm = true -> elem_of (scorer st) fs2)
    by (intros Rl; apply fetched_spec; auto).
  assert (Ht2 : elem_of (tFlite st) fs2 <-> reachable h model = true).
  { unfold fs2. rewrite !fetched_spec. split.
    - intros [[H|(H & _)]|(_ & H)]; [contradiction | exact H | congruence].
    - auto. }
  destruct (reachable h model) eqn:Rm.
  - rewrite later_check by (cbn [_langPath files]; rewrite L1; exact Hd2).
    rewrite bool_decide_eq_true_2
      by (unfold tFlite; cbn [_langPath files]; rewrite L1;
          apply Ht2; reflexivity).
    cbn [negb]. eexists. split; [reflexivity|]. cbn [asr _langPath files log].
    split; [exact A1|]. split; [exact L1|]. split; [|exact Hsc].
    left. split; [reflexivity|]. rewrite G1, <- !app_assoc.
    split; [reflexivity|]. apply Ht2. reflexivity.
  - assert (Hno : ~ elem_of (tFlite st) fs2)
      by (intros H; apply Ht2 in H; discriminate).
    rewrite second_check_fails;
      [|cbn [_langPath files]; rewrite L1; exact Hd2
       |unfold tFlite; cbn [_langPath files]; rewrite L1; exact Hno].
    cbn [negb]. rewrite Hdl. cbn [asr _langPath files log].
    change (tFlite (mkState (asr st1) (_langPath st1) ?f ?l))
      with (tFlite st1).
    change (scorer (mkState (asr st1) (_langPath st1) ?f ?l))
      with (scorer st1).
    rewrite Ht, Hs.
    eexists. split; [reflexivity|]. cbn [asr _langPath files log].
    split; [exact A1|]. split; [exact L1|]. split.
    + right. split; [reflexivity|]. rewrite G1, <- !app_assoc.
      split; [reflexivity|].
      rewrite !fetched_spec, Rm.
      intros [[H|(H & _)]|(_ & H)]; [contradiction | discriminate | congruence].
    + intros Rl. apply fetched_spec. auto.
Qed.

Lemma onStart_run h st :
  onStart h st
  = match provision h st with
    | (Returned _, st1) => loadModel h st1
    | (Raised e, st1) => (Raised e, st1)
    end.
Proof. reflexivity. Qed.

(** X14: With the model file in place, [onStart] fetches nothing, reports no
    error and leaves the files alone: it runs the three commands and
    asks [stt] for the model at [tFlite].  When that raises, [onStart]
    raises and the instance is as before.  When it succeeds the model is
    bound to the instance, and [onStart] asks for the scorer [lm.scorer]
    of the language directory to be attached to it, a file it never
    looked for: when that succeeds the instance holds the model with the
    scorer, and when it raises [onStart] raises with the model bound,
    without its scorer. *)
Theorem onStart_model_present h st :
  elem_of (_langPath st) (files st) ->
  elem_of (tFlite st) (files st) ->
  exists out st' evs,
    onStart h st = (out, st') /\
    log st' = log st ++ preamble ++ evs /\
    files st' = files st /\
    _langPath st' = _langPath st /\
    downloads evs = [] /\
    errors evs = [] /\
    match stt_Model h (tFlite st) with
    | Some m =>
        match enableExternalScorer h m (scorer st) with
        | Some m' =>
            out = Returned tt /\ evs = loaded st /\
            CoquiAsr._model (asr st') = Some m'
        | None =>
            out = Raised (Exception "enableExternalScorer failed") /\
            evs = noScorer st /\
            CoquiAsr._model (asr st') = Some m
        end
    | None =>
        out = Raised (Exception "stt.Model failed") /\ evs = notLoaded st /\
        asr st' = asr st
    end.
Proof.
  intros Hd Hf. rewrite onStart_run, (provision_present h st Hd Hf).
  rewrite loadModel_run.
  change (tFlite (mkState (asr st) (_langPath st) (files st) ?l))
    with (tFlite st).
  change (scorer (mkState (asr st) (_langPath st) (files st) ?l))
    with (scorer st).
  destruct (stt_Model h (tFlite st)) as [m|].
  - destruct (enableExternalScorer h m (scorer st)) as [m'|].
    + eexists. eexists. exists (loaded st). split; [reflexivity|].
      cbn. rewrite <- !app_assoc. auto 10.
    + eexists. eexists. exists (noScorer st). split; [reflexivity|].
      cbn. rewrite <- !app_assoc. auto 10.
  - eexists. eexists. exists (notLoaded st). split; [reflexivity|].
    cbn. rewrite <- !app_assoc. auto 10.
Qed.

Lemma onStart_model_present_witness :
  elem_of (_langPath (installed "en")) (files (installed "en")) /\
  elem_of (tFlite (installed "en")) (files (installed "en")) /\
  (exists st',
      onStart (offline "xx") (installed "en")
        = (Raised (Exception "stt.Model failed"), st') /\
      log st' = preamble ++ notLoaded (installed "en") /\
      files st' = files (installed "en") /\
      asr st' = asr (installed "en")) /\
  (exists st',
      onStart (scorerless "en") (installed "en")
        = (Raised (Exception "enableExternalScorer failed"), st') /\
      log st' = preamble ++ noScorer (installed "en") /\
      files st' = files (installed "en") /\
      CoquiAsr._model (asr st') = Some Fixtures.toyModel).
Proof.
  assert (Hd : elem_of (_langPath (installed "en")) (files (installed "en")))
    by (vm_compute; set_solver).
  assert (Hf : elem_of (tFlite (installed "en")) (files (installed "en")))
    by (vm_compute; set_solver).
  split; [exact Hd|]. split; [exact Hf|]. split.
  - destruct (onStart_model_present (offline "xx") (installed "en") Hd Hf)
      as (out & st' & evs & Hrun & Hlog & Hfiles & _ & _ & _ & Hload).
    cbn in Hload. destruct Hload as (-> & -> & Hasr).
    exists st'. auto.
  - destruct (onStart_model_present (scorerless "en") (installed "en") Hd Hf)
      as (out & st' & evs & Hrun & Hlog & Hfiles & _ & _ & _ & Hload).
    cbn in Hload. destruct Hload as (-> & -> & Hasr).
    exists st'. auto.
Defined.

(** X15: For a language without a model, and with no model file in place,
    [onStart] does not stop: it reports the error twice, once from
    [installDependencies] and once itself, fetches nothing, and goes on
    to ask [stt] for a model file that does not exist; it returns exactly
    when [stt] makes a model of that path and attaches the scorer to
    it. *)
Theorem onStart_unsupported_language h st :
  ~ elem_of (tFlite st) (files st) ->
  ~ In (activeLanguage h) supported ->
  exists out st' evs,
    onStart h st = (out, st') /\
    log st' = log st ++ preamble ++ evs /\
    downloads evs = [] /\
    length (errors evs) = 2%nat /\
    loads evs = [tFlite st] /\
    ~ elem_of (tFlite st) (files st') /\
    (out = Returned tt <->
     exists m, stt_Model h (tFlite st) = Some m /\
               is_Some (enableExternalScorer h m (scorer st))).
Proof.
  intros Hf Hout. rewrite onStart_run.
  destruct (provision_unsupported h st Hf Hout)
    as (st1 & msg & -> & L1 & A1 & G1 & D1 & F1).
  destruct (loadModel_events h st1)
    as (out & st' & evs & -> & Hlog & Hfiles & Hevs & Hret).
  assert (Ht : tFlite st1 = tFlite st) by (unfold tFlite; rewrite G1; reflexivity).
  assert (Hs : scorer st1 = scorer st) by (unfold scorer; rewrite G1; reflexivity).
  destruct (loadModel_log st1 evs Hevs) as (Hd & He & Hl).
  rewrite Ht, Hs in *.
  exists out, st', ([downloading h; EvLogError msg;
                     downloading h; EvLogError msg] ++ evs).
  split; [reflexivity|].
  split; [rewrite Hlog, L1, <- !app_assoc; reflexivity|].
  split; [unfold downloads in *; rewrite omap_app, Hd; reflexivity|].
  split; [unfold errors in *; rewrite omap_app, He; reflexivity|].
  split; [unfold loads in *; rewrite omap_app, Hl; reflexivity|].
  split; [rewrite Hfiles; exact F1 | exact Hret].
Qed.

Lemma onStart_unsupported_language_witness :
  ~ elem_of (tFlite (fresh "es")) (files (fresh "es")) /\
  ~ In (activeLanguage (online "es")) supported /\
  exists st' evs,
    onStart (online "es") (fresh "es") = (Returned tt, st') /\
    log st' = log (fresh "es") ++ preamble ++ evs /\
    downloads evs = [] /\
    length (errors evs) = 2%nat /\
    loads evs = [tFlite (fresh "es")] /\
    ~ elem_of (tFlite (fresh "es")) (files st').
Proof.
  assert (Hf : ~ elem_of (tFlite (fresh "es")) (files (fresh "es")))
    by apply not_elem_of_empty.
  assert (Hout : ~ In (activeLanguage (online "es")) supported)
    by (cbn; intuition discriminate).
  split; [exact Hf|]. split; [exact Hout|].
  destruct (onStart_unsupported_language (online "es") (fresh "es") Hf Hout)
    as (out & st' & evs & Hrun & Hlog & Hd & He & Hl & Hno & Hret).
  exists st', evs.
  assert (out = Returned tt) as ->
    by (apply Hret; eexists; split; [reflexivity | eexists; reflexivity]).
  auto 10.
Defined.

(** X16: For a supported language with no model file in place, [onStart]
    fetches the model and the scorer once when the model can be fetched,
    and fetches both a second time when it cannot; without error report
    either way, it then asks [stt] for the model, which is in place
    exactly when it could be fetched. *)
Theorem onStart_fetches_model h st :
  ~ elem_of (tFlite st) (files st) ->
  In (activeLanguage h) supported ->
  exists model lm out st' evs,
    onStart h st = (out, st') /\
    log st' = log st ++ preamble ++ evs /\
    errors evs = [] /\
    loads evs = [tFlite st] /\
    downloads evs
      = (if reachable h model
         then [(model, tFlite st); (lm, scorer st)]
         else [(model, tFlite st); (lm, scorer st);
               (model, tFlite st); (lm, scorer st)]) /\
    (elem_of (tFlite st) (files st') <-> reachable h model = true) /\
    (reachable h lm = true -> elem_of (scorer st) (files st')).
Proof.
  intros Hf Hin. rewrite onStart_run.
  destruct (provision_supported h st Hf Hin)
    as (model & lm & st1 & -> & A1 & G1 & Hcase & Hsc).
  destruct (loadModel_events h st1)
    as (out & st' & evs & -> & Hlog & Hfiles & Hevs & _).
  assert (Ht : tFlite st1 = tFlite st) by (unfold tFlite; rewrite G1; reflexivity).
  destruct (loadModel_log st1 evs Hevs) as (Hd & He & Hl).
  rewrite Ht in *.
  exists model, lm, out, st'.
  destruct Hcase as [(Rm & L1 & Hin1)|(Rm & L1 & Hno)]; rewrite Rm.
  - exists ([downloading h; EvDownloadFile model (tFlite st);
             EvDownloadFile lm (scorer st)] ++ evs).
    split; [reflexivity|].
    split; [rewrite Hlog, L1, <- !app_assoc; reflexivity|].
    split; [unfold errors in *; rewrite omap_app, He; reflexivity|].
    split; [unfold loads in *; rewrite omap_app, Hl; reflexivity|].
    split; [unfold downloads in *; rewrite omap_app, Hd; reflexivity|].
    rewrite Hfiles. split; [tauto | exact Hsc].
  - exists ([downloading h; EvDownloadFile model (tFlite st);
             EvDownloadFile lm (scorer st);
             downloading h; EvDownloadFile model (tFlite st);
             EvDownloadFile lm (scorer st)] ++ evs).
    split; [reflexivity|].
    split; [rewrite Hlog, L1, <- !app_assoc; reflexivity|].
    split; [unfold errors in *; rewrite omap_app, He; reflexivity|].
    split; [unfold loads in *; rewrite omap_app, Hl; reflexivity|].
    split; [unfold downloads in *; rewrite omap_app, Hd; reflexivity|].
    rewrite Hfiles. split; [split; [contradiction | discriminate] | exact Hsc].
Qed.

Lemma onStart_fetches_model_witness :
  ~ elem_of (tFlite (fresh "en")) (files (fresh "en")) /\
  In (activeLanguage (online "en")) supported /\
  In (activeLanguage (offline "en")) supported /\
  (exists model lm st',
      onStart (online "en") (fresh "en") = (Returned tt, st') /\
      downloads (log st') = [(model, tFlite (fresh "en"));
                             (lm, scorer (fresh "en"))] /\
      elem_of (tFlite (fresh "en")) (files st')) /\
  (exists model lm e st',
      onStart (offline "en") (fresh "en") = (Raised e, st') /\
      downloads (log st') = [(model, tFlite (fresh "en"));
                             (lm, scorer (fresh "en"));
                             (model, tFlite (fresh "en"));
                             (lm, scorer (fresh "en"))] /\
      ~ elem_of (tFlite (fresh "en")) (files st')).
Proof.
  assert (Hf : ~ elem_of (tFlite (fresh "en")) (files (fresh "en")))
    by apply not_elem_of_empty.
  assert (Hin : In "en" supported) by (cbn; auto).
  split; [exact Hf|]. split; [exact Hin|]. split; [exact Hin|].
  assert (Hdl : forall evs, downloads (preamble ++ evs) = downloads evs)
    by reflexivity.
  split.
  - destruct (onStart_fetches_model (online "en") (fresh "en") Hf Hin)
      as (model & lm & out & st' & evs & Hrun & Hlog & _ & _ & Hd & Hfile & _).
    cbn [reachable online] in Hd, Hfile.
    exists model, lm, st'.
    assert (out = Returned tt) as ->
      by (clear -Hrun; vm_compute in Hrun; congruence).
    split; [exact Hrun|]. split; [|apply Hfile; reflexivity].
    rewrite Hlog. cbn [log fresh init app]. rewrite Hdl. exact Hd.
  - destruct (onStart_fetches_model (offline "en") (fresh "en") Hf Hin)
      as (model & lm & out & st' & evs & Hrun & Hlog & _ & _ & Hd & Hfile & _).
    cbn [reachable offline] in Hd, Hfile.
    destruct out as [[]|e].
    { exfalso. clear -Hrun. vm_compute in Hrun. congruence. }
    exists model, lm, e, st'.
    split; [exact Hrun|]. split.
    + rewrite Hlog. cbn [log fresh init app]. rewrite Hdl. exact Hd.
    + intros H. apply Hfile in H. discriminate.
Defined.

Lemma checkLanguage_frame st :
  exists b st1,
    checkLanguage st = (Returned b, st1) /\
    asr st1 = asr st /\ _langPath st1 = _langPath st.
Proof.
  destruct (decide (elem_of (_langPath st) (files st))) as [Hd|Hd].
  - rewrite (checkLanguage_present st Hd). eauto.
  - rewrite (checkLanguage_absent st Hd). eauto.
Qed.

Lemma downloadLanguage_frame h st :
  exists b st1,
    downloadLanguage h st = (Returned b, st1) /\
    asr st1 = asr st /\ _langPath st1 = _langPath st.
Proof.
  destruct (downloadLanguage_cases h)
    as [(_ & model & lm & Hdl)|(_ & msg & Hdl)]; rewrite Hdl; eauto.
Qed.

Lemma provision_frame h st :
  exists st1,
    provision h st = (Returned tt, st1) /\
    asr st1 = asr st /\ _langPath st1 = _langPath st.
Proof.
  rewrite provision_run, installDependencies_run.
  match goal with
  | |- context [checkLanguage ?x] =>
      destruct (checkLanguage_frame x) as (b1 & st1 & -> & A1 & G1)
  end.
  cbn [asr _langPath] in A1, G1.
  assert (H2 : exists b2 st2,
            (if negb b1 then downloadLanguage h st1 else (Returned true, st1))
            = (Returned b2, st2) /\ asr st2 = asr st /\
            _langPath st2 = _langPath st).
  { destruct b1; cbn [negb]; [eauto|].
    destruct (downloadLanguage_frame h st1) as (b2 & st2 & -> & A2 & G2).
    exists b2, st2. split; [reflexivity|]. split; congruence. }
  destruct H2 as (b2 & st2 & -> & A2 & G2).
  destruct (checkLanguage_frame st2) as (b3 & st3 & -> & A3 & G3).
  destruct b3; cbn [negb].
  - exists st3. split; [reflexivity|]. split; congruence.
  - destruct (downloadLanguage_frame h st3) as (b4 & st4 & -> & A4 & G4).
    exists st4. split; [reflexivity|]. split; congruence.
Qed.

(** X17: [onStart] returns exactly when [stt] makes a model of the file at
    [tFlite] and attaches the scorer to it.  Whenever [stt] makes the
    model, it is bound to the instance, with the scorer when that could
    be attached and without it when [onStart] raised there; the other
    attributes are as before, and a [decodeStream] that follows runs to
    its end on every sequence of chunks that can be read.  When [stt]
    makes no model, the instance is as it was before the call. *)
Theorem onStart_then_decodeStream h st :
  exists out st',
    onStart h st = (out, st') /\
    (out = Returned tt <->
     exists m, stt_Model h (tFlite st) = Some m /\
               is_Some (enableExternalScorer h m (scorer st))) /\
    (forall m, stt_Model h (tFlite st) = Some m ->
       CoquiAsr._model (asr st')
         = Some (default m (enableExternalScorer h m (scorer st))) /\
       CoquiAsr._triggerFlag (asr st') = CoquiAsr._triggerFlag (asr st) /\
       CoquiAsr._recorder (asr st') = CoquiAsr._recorder (asr st) /\
       CoquiAsr.nextStream (asr st') = CoquiAsr.nextStream (asr st) /\
       CoquiAsr.log (asr st') = CoquiAsr.log (asr st) /\
       forall elapsed s ticks late,
         Trace.wellFormed ticks ->
         exists r st'',
           CoquiAsr.decodeStream elapsed s ticks late (asr st')
           = (Returned r, st'')) /\
    (stt_Model h (tFlite st) = None -> asr st' = asr st).
Proof.
  rewrite onStart_run.
  destruct (provision_frame h st) as (st1 & -> & A1 & G1).
  assert (Ht : tFlite st1 = tFlite st) by (unfold tFlite; rewrite G1; reflexivity).
  assert (Hs : scorer st1 = scorer st) by (unfold scorer; rewrite G1; reflexivity).
  destruct (loadModel_events h st1)
    as (out & st' & evs & Hrun & _ & _ & _ & Hret).
  destruct (loadModel_cases h st1)
    as (out2 & st2 & evs2 & Hrun2 & _ & _ & _ & Hcase).
  rewrite Hrun in Hrun2. injection Hrun2 as <- <-.
  rewrite Ht, Hs in *. rewrite Hrun.
  exists out, st'. split; [reflexivity|]. split; [exact Hret|].
  destruct (stt_Model h (tFlite st)) as [m|].
  - split; [|discriminate]. intros m0 [= <-].
    assert (Hasr : asr st'
                   = asr (set_model
                            (default m (enableExternalScorer h m (scorer st)))
                            st1)).
    { destruct (enableExternalScorer h m (scorer st)) as [m'|];
        destruct Hcase as (_ & _ & ->); reflexivity. }
    rewrite Hasr.
    cbn [asr set_model CoquiAsr._model CoquiAsr._triggerFlag
         CoquiAsr._recorder CoquiAsr.nextStream CoquiAsr.log].
    rewrite A1.
    do 5 (split; [reflexivity|]).
    intros elapsed s ticks late Hw.
    eapply decodeStream_total; [reflexivity | exact Hw].
  - destruct Hcase as (_ & _ & ->).
    split; [discriminate|]. intros _. exact A1.
Qed.

Lemma onStart_then_decodeStream_witness :
  stt_Model (scorerless "en") (tFlite (fresh "en")) = Some Fixtures.toyModel /\
  Trace.wellFormed Fixtures.silenceToneTone /\
  exists e st',
    onStart (scorerless "en") (fresh "en") = (Raised e, st') /\
    CoquiAsr._model (asr st') = Some Fixtures.toyModel /\
    exists r st'',
      CoquiAsr.decodeStream (3 # 2) Fixtures.kitchen Fixtures.silenceToneTone
                            [] (asr st')
      = (Returned r, st'').
Proof.
  split; [reflexivity|]. split; [apply wellFormed_quiet_chunks|].
  destruct (onStart_then_decodeStream (scorerless "en") (fresh "en"))
    as (out & st' & Hrun & Hret & Hload & _).
  destruct (Hload Fixtures.toyModel eq_refl) as (Hm & _ & _ & _ & _ & Hdec).
  destruct out as [[]|e].
  { exfalso. destruct (proj1 Hret eq_refl) as (m & _ & [m' Hm']).
    discriminate Hm'. }
  exists e, st'.
  split; [exact Hrun|]. split; [exact Hm|].
  apply Hdec, wellFormed_quiet_chunks.
Defined.

End StartupFacts.

(** * Further properties of the delegated engine *)

Section TogglesFacts.
Import SnipsAsr Toggles.

Lemma deliver_state ts : forall st,
  deliver ts st
  = mkState (match lastToggle ts with
             | Some b => b
             | None => _listening st
             end) (log st).
Proof.
  induction ts as [|t rest IH]; intros st; cbn [deliver].
  - destruct st; reflexivity.
  - rewrite IH. unfold lastToggle.
    destruct rest as [|t' rest'].
    + destruct t; reflexivity.
    + change (last (t :: t' :: rest')) with (last (t' :: rest')).
      destruct (last (t' :: rest')) as [[?|?]|] eqn:El; destruct t; try reflexivity;
        apply last_None in El; discriminate.
Qed.

Lemma pollLoop_ext fuel env env' :
  (forall k, lastToggle (env k) = lastToggle (env' k)) ->
  forall k st, pollLoop fuel env k st = pollLoop fuel env' k st.
Proof.
  intros H. induction fuel as [|fuel IH]; intros k st; cbn [pollLoop];
    [reflexivity|].
  destruct (_listening st); [|reflexivity].
  rewrite !deliver_state, H. apply IH.
Qed.

Lemma pollLoop_offThenOn device s' fuel :
  forall k st,
    _listening st = true ->
    pollLoop fuel (offThenOn device s') k st = None.
Proof.
  induction fuel as [|fuel IH]; intros k st H; cbn [pollLoop]; rewrite H;
    [reflexivity|].
  apply IH. reflexivity.
Qed.

(** X18: The listening flag is one flag that the last writer wins: after any
    toggles it is what the last of them asks for, whatever the sessions
    and devices named, and the log is untouched.  The polling loop tests
    the flag between sleeps only, so it sees nothing of the toggles of a
    sleep but the last: a toggle-off that is followed in the same sleep
    by a new request to listen never ends a [decodeStream]. *)
Theorem toggles_last_writer_wins env s st :
  (forall ts,
      _listening (deliver ts st)
        = match lastToggle ts with
          | Some b => b
          | None => _listening st
          end /\
      log (deliver ts st) = log st) /\
  (forall env' fuel,
      (forall k, lastToggle (env k) = lastToggle (env' k)) ->
      decodeStream fuel env s st = decodeStream fuel env' s st) /\
  (forall device s' fuel,
      _listening st = true ->
      decodeStream fuel (offThenOn device s') s st = None).
Proof.
  split; [|split].
  - intros ts. rewrite deliver_state. split; reflexivity.
  - intros env' fuel H. unfold decodeStream.
    rewrite (pollLoop_ext fuel env env' H). reflexivity.
  - intros device s' fuel H. unfold decodeStream.
    rewrite pollLoop_offThenOn by exact H. reflexivity.
Qed.

Lemma toggles_last_writer_wins_witness :
  let env := SnipsFixtures.toggleOffDuring 2 "kitchen" in
  let env' := fun k => if Nat.eqb k 2
                       then [StartListening Fixtures.kitchen; ToggleOff "attic"]
                       else [] in
  (forall k, lastToggle (env k) = lastToggle (env' k)) /\
  decodeStream 5 env Fixtures.kitchen SnipsFixtures.listening
    = decodeStream 5 env' Fixtures.kitchen SnipsFixtures.listening /\
  _listening SnipsFixtures.listening = true /\
  decodeStream 5 (offThenOn "kitchen" Fixtures.kitchen) Fixtures.kitchen
               SnipsFixtures.listening = None.
Proof.
  intros env env'.
  assert (H : forall k, lastToggle (env k) = lastToggle (env' k)).
  { intros k. unfold env, env', SnipsFixtures.toggleOffDuring.
    destruct (Nat.eqb k 2); reflexivity. }
  split; [exact H|]. split.
  - exact (proj1 (proj2 (toggles_last_writer_wins
                           env Fixtures.kitchen SnipsFixtures.listening))
                 env' 5%nat H).
  - split; [reflexivity|].
    exact (proj2 (proj2 (toggles_last_writer_wins
                           env Fixtures.kitchen SnipsFixtures.listening))
                 "kitchen" Fixtures.kitchen 5%nat eq_refl).
Defined.

End TogglesFacts.
